(** * Minesweeper: a shallow embedding of [minesweeper.py]

    The development follows the source class by class: [Config] (the
    settings dictionary and its persisted copy), [GameState] (safe zone,
    mine placement, neighbour counts, best-time check), [FieldFrame]
    ([on_click], [set_flag]), [Cell] ([reveal], [try_chord]) and
    [ConfigFrame.apply_settings].  Widgets are kept only as far as the
    program writes to them: the colour, text colour and text of each grid
    button, the text of the mine-count label, the list of end-of-game
    popups and of error dialogs created so far.

    Conventions.
    - Python integers are [Z]; [//] and [%] are [Z.div] and [Z.modulo]
      (both floor towards minus infinity, as in Python).
    - A [Cell] object is identified with its grid position: [do_field]
      creates the cell at [field[row][col]] with [self.row = row] and
      [self.col = col], and nothing ever changes them.
    - Python sets are stdpp's [gset]; [list(set(a) - set(b))] is
      [elements] of the set difference, whose order is as unspecified
      here as it is in Python.
    - The outcome of [random.sample] is an argument of the functions that
      draw it; [sample_of] says what outcomes are possible.
    - The recursion of [Cell.reveal] is bounded by an explicit fuel
      argument; the call stack of the interpreter is taken as unbounded.
    - A text-entry value is a [string] whose characters are the code
      points below 256. *)

From Stdlib Require Import ZArith Lia Ascii String.
From Stdlib Require Floats Uint63.
From Stdlib Require DecimalString DecimalPos.
From stdpp Require Import gmap strings list.

Local Open Scope Z_scope.

(** ** Outcomes of a call *)

Inductive exn : Type :=
| ValueError (msg : string)
| KeyError (key : string).

(** [Ok s]: the call returned in state [s]; [Raise e s]: it raised [e],
    leaving the (already mutated) state [s]; [OutOfFuel]: the model ran
    out of fuel before the call finished. *)
Inductive result (A : Type) : Type :=
| Ok (a : A)
| Raise (e : exn) (a : A)
| OutOfFuel.
Arguments Ok {A} a.
Arguments Raise {A} e a.
Arguments OutOfFuel {A}.

Definition bind {A : Type} (m : result A) (k : A → result A) : result A :=
  match m with
  | Ok a => k a
  | Raise e a => Raise e a
  | OutOfFuel => OutOfFuel
  end.

(** [for x in l: body] over a state. *)
Fixpoint for_each {A S : Type} (l : list A) (body : A → S → result S) (s : S)
  : result S :=
  match l with
  | [] => Ok s
  | x :: l' => bind (body x s) (for_each l' body)
  end.

(** The list [[-1, 0, 1]] every neighbourhood loop ranges over. *)
Definition offsets : list Z := [-1; 0; 1].

(** [list.remove(x)]: drops the first occurrence, [None] (a ValueError in
    Python) when there is none. *)
Fixpoint list_remove (x : Z) (l : list Z) : option (list Z) :=
  match l with
  | [] => None
  | y :: l' => if bool_decide (x = y) then Some l'
               else cons y <$> list_remove x l'
  end.

(** ** Config *)

Record Difficulty : Type := mkDifficulty {
  d_width : Z;
  d_height : Z;
  d_mines : Z }.

(** The part of the settings dictionary the modelled code reads or writes
    (window size and colour tables are left out). *)
Record ConfigData : Type := mkConfigData {
  current_diff : string;
  current_theme : string;
  best_time : gmap string Z;
  difficulties : gmap string Difficulty }.

Definition set_current_diff (d : string) (c : ConfigData) : ConfigData :=
  mkConfigData d (current_theme c) (best_time c) (difficulties c).
Definition set_current_theme (t : string) (c : ConfigData) : ConfigData :=
  mkConfigData (current_diff c) t (best_time c) (difficulties c).
Definition set_best_time (b : gmap string Z) (c : ConfigData) : ConfigData :=
  mkConfigData (current_diff c) (current_theme c) b (difficulties c).
Definition set_difficulties (d : gmap string Difficulty) (c : ConfigData)
  : ConfigData :=
  mkConfigData (current_diff c) (current_theme c) (best_time c) d.

(** The properties [Config.width], [Config.height] and [Config.bombs]:
    [difficulties[current_diff][...]].  A missing key raises KeyError in
    Python; [GameState.reset_game] reads [config.bombs] before any grid
    exists, so the model gives 0 there instead of threading the error
    through every bounds test. *)
Definition cfg_diff (c : ConfigData) : Difficulty :=
  default (mkDifficulty 0 0 0) (difficulties c !! current_diff c).
Definition cfg_width (c : ConfigData) : Z := d_width (cfg_diff c).
Definition cfg_height (c : ConfigData) : Z := d_height (cfg_diff c).
Definition cfg_bombs (c : ConfigData) : Z := d_mines (cfg_diff c).
Arguments cfg_width : simpl never.
Arguments cfg_height : simpl never.
Arguments cfg_bombs : simpl never.

(** ** Cells and widgets *)

Record Cell : Type := mkCell {
  bomb : bool;
  revealed : bool;
  flagged : bool;
  neighbor_bombs : Z }.

Definition set_bomb (b : bool) (c : Cell) : Cell :=
  mkCell b (revealed c) (flagged c) (neighbor_bombs c).
Definition set_revealed (b : bool) (c : Cell) : Cell :=
  mkCell (bomb c) b (flagged c) (neighbor_bombs c).
Definition set_flagged (b : bool) (c : Cell) : Cell :=
  mkCell (bomb c) (revealed c) b (neighbor_bombs c).
Definition set_neighbor_bombs (n : Z) (c : Cell) : Cell :=
  mkCell (bomb c) (revealed c) (flagged c) n.

(** Colours are named by the theme key they are read from. *)
Inductive Color : Type :=
| button_color | pressed_color | flag_color | mines_color
| text_color | num_color (n : Z).

Record Button : Type := mkButton {
  fg_color : Color;
  btn_text_color : Color;
  btn_text : option Z }.

Definition set_fg_color (c : Color) (b : Button) : Button :=
  mkButton c (btn_text_color b) (btn_text b).
Definition set_btn_text_color (c : Color) (b : Button) : Button :=
  mkButton (fg_color b) c (btn_text b).
Definition set_btn_text (n : Z) (b : Button) : Button :=
  mkButton (fg_color b) (btn_text_color b) (Some n).

(** Text of the mine-count label: ["Bombs: m"] or ["Are you dumb?"]. *)
Inductive LabelText : Type :=
| Bombs (m : Z)
| AreYouDumb.

(** ** The state of the application *)

Record World : Type := mkWorld {
  (* Config *)
  config : ConfigData;            (* Config._config_data *)
  config_json : ConfigData;       (* the contents of config.json *)
  (* GameState *)
  first_click : bool;
  running : bool;
  time_elapsed : Z;
  def_zone : list Z;
  field : list (list Cell);
  buttons : list (list Button);
  all_cords : list Z;
  danger_cords : list Z;
  mines : Z;
  (* InfoFrame.mines_label *)
  mines_label : LabelText;
  (* EndGamePopup windows created so far, each with its [win] argument *)
  popups : list bool;
  (* error dialogs shown by ConfigFrame, each with its message *)
  error_dialogs : list string }.

Definition set_config (x : ConfigData) (s : World) : World :=
  mkWorld x (config_json s) (first_click s) (running s) (time_elapsed s)
    (def_zone s) (field s) (buttons s) (all_cords s) (danger_cords s)
    (mines s) (mines_label s) (popups s) (error_dialogs s).
Definition set_config_json (x : ConfigData) (s : World) : World :=
  mkWorld (config s) x (first_click s) (running s) (time_elapsed s)
    (def_zone s) (field s) (buttons s) (all_cords s) (danger_cords s)
    (mines s) (mines_label s) (popups s) (error_dialogs s).
Definition set_first_click (x : bool) (s : World) : World :=
  mkWorld (config s) (config_json s) x (running s) (time_elapsed s)
    (def_zone s) (field s) (buttons s) (all_cords s) (danger_cords s)
    (mines s) (mines_label s) (popups s) (error_dialogs s).
Definition set_running (x : bool) (s : World) : World :=
  mkWorld (config s) (config_json s) (first_click s) x (time_elapsed s)
    (def_zone s) (field s) (buttons s) (all_cords s) (danger_cords s)
    (mines s) (mines_label s) (popups s) (error_dialogs s).
Definition set_time_elapsed (x : Z) (s : World) : World :=
  mkWorld (config s) (config_json s) (first_click s) (running s) x
    (def_zone s) (field s) (buttons s) (all_cords s) (danger_cords s)
    (mines s) (mines_label s) (popups s) (error_dialogs s).
Definition set_def_zone (x : list Z) (s : World) : World :=
  mkWorld (config s) (config_json s) (first_click s) (running s)
    (time_elapsed s) x (field s) (buttons s) (all_cords s) (danger_cords s)
    (mines s) (mines_label s) (popups s) (error_dialogs s).
Definition set_field (x : list (list Cell)) (s : World) : World :=
  mkWorld (config s) (config_json s) (first_click s) (running s)
    (time_elapsed s) (def_zone s) x (buttons s) (all_cords s)
    (danger_cords s) (mines s) (mines_label s) (popups s) (error_dialogs s).
Definition set_buttons (x : list (list Button)) (s : World) : World :=
  mkWorld (config s) (config_json s) (first_click s) (running s)
    (time_elapsed s) (def_zone s) (field s) x (all_cords s)
    (danger_cords s) (mines s) (mines_label s) (popups s) (error_dialogs s).
Definition set_all_cords (x : list Z) (s : World) : World :=
  mkWorld (config s) (config_json s) (first_click s) (running s)
    (time_elapsed s) (def_zone s) (field s) (buttons s) x
    (danger_cords s) (mines s) (mines_label s) (popups s) (error_dialogs s).
Definition set_danger_cords (x : list Z) (s : World) : World :=
  mkWorld (config s) (config_json s) (first_click s) (running s)
    (time_elapsed s) (def_zone s) (field s) (buttons s) (all_cords s) x
    (mines s) (mines_label s) (popups s) (error_dialogs s).
Definition set_mines (x : Z) (s : World) : World :=
  mkWorld (config s) (config_json s) (first_click s) (running s)
    (time_elapsed s) (def_zone s) (field s) (buttons s) (all_cords s)
    (danger_cords s) x (mines_label s) (popups s) (error_dialogs s).
Definition set_mines_label (x : LabelText) (s : World) : World :=
  mkWorld (config s) (config_json s) (first_click s) (running s)
    (time_elapsed s) (def_zone s) (field s) (buttons s) (all_cords s)
    (danger_cords s) (mines s) x (popups s) (error_dialogs s).
Definition set_popups (x : list bool) (s : World) : World :=
  mkWorld (config s) (config_json s) (first_click s) (running s)
    (time_elapsed s) (def_zone s) (field s) (buttons s) (all_cords s)
    (danger_cords s) (mines s) (mines_label s) x (error_dialogs s).
Definition set_error_dialogs (x : list string) (s : World) : World :=
  mkWorld (config s) (config_json s) (first_click s) (running s)
    (time_elapsed s) (def_zone s) (field s) (buttons s) (all_cords s)
    (danger_cords s) (mines s) (mines_label s) (popups s) x.

(** [self.config.width] and [self.config.height] as the game reads
    them. *)
Abbreviation width s := (cfg_width (config s)).
Abbreviation height s := (cfg_height (config s)).

(** ** Two-dimensional lists *)

(** [g[row][col]] for indices that passed the bounds test. *)
Definition lookup2 {A : Type} (g : list (list A)) (row col : Z) : option A :=
  row_ ← g !! Z.to_nat row; row_ !! Z.to_nat col.

(** In-place update of [g[row][col]]. *)
Definition update2 {A : Type} (f : A → A) (row col : Z) (g : list (list A))
  : list (list A) :=
  alter (alter f (Z.to_nat col)) (Z.to_nat row) g.

Definition hidden_cell : Cell := mkCell false false false 0.
Definition fresh_button : Button := mkButton button_color text_color None.

Definition cell_at (s : World) (row col : Z) : Cell :=
  default hidden_cell (lookup2 (field s) row col).
Definition button_at (s : World) (row col : Z) : Button :=
  default fresh_button (lookup2 (buttons s) row col).

(** The test [0 <= col < width and 0 <= row < height]. *)
Definition in_grid (s : World) (row col : Z) : bool :=
  (0 <=? col) && (col <? width s) && (0 <=? row) && (row <? height s).

(** ** GameState *)

Definition reset_game (s : World) : World :=
  let s := set_first_click true s in
  let s := set_running false s in
  let s := set_time_elapsed 0 s in
  let s := set_def_zone [] s in
  let s := set_field [] s in
  let s := set_buttons [] s in
  let s := set_all_cords [] s in
  let s := set_danger_cords [] s in
  set_mines (cfg_bombs (config s)) s.

(** [do_field]: one fresh [Cell] per position, row by row. *)
Definition do_field (s : World) : World :=
  set_field ((λ _ : Z, (λ _ : Z, hidden_cell) <$> seqZ 0 (width s))
               <$> seqZ 0 (height s)) s.

(** [safe_zone]: the linear coordinates of the in-grid cells of the 3x3
    block around the first click are appended to [def_zone]. *)
Definition safe_zone (row col : Z) (s : World) : World :=
  foldl (λ s dc,
    foldl (λ s dr,
      let new_r := row + dr in
      let new_c := col + dc in
      if in_grid s new_r new_c
      then set_def_zone (def_zone s ++ [new_r * width s + new_c]) s
      else s) s offsets) s offsets.

(** What [random.sample(population, k)] can return for a population
    without repetitions: [k] distinct members of it, in any order. *)
Definition sample_of (population : list Z) (k : Z) (l : list Z) : bool :=
  bool_decide (NoDup l) && (Z.of_nat (length l) =? k)
  && forallb (λ x, bool_decide (x ∈ population)) l.

Definition set_difference_list (a b : list Z) : list Z :=
  elements ((list_to_set a : gset Z) ∖ list_to_set b).

(** [place_bombs], with [bomb_coords] the list drawn by [random.sample];
    the draw raises ValueError when it asks for more than the population
    holds or for a negative number. *)
Definition place_bombs (bomb_coords : list Z) (s : World) : result World :=
  let bombs_ := cfg_bombs (config s) in
  let s := set_all_cords (seqZ 0 (height s * width s)) s in
  let s := set_danger_cords
             (set_difference_list (all_cords s) (def_zone s)) s in
  if (bombs_ <? 0) || (Z.of_nat (length (danger_cords s)) <? bombs_)
  then Raise (ValueError "Sample larger than population or is negative") s
  else
    let s := set_all_cords
               (set_difference_list (all_cords s) bomb_coords) s in
    let unique_cords :=
      (λ cell, (cell `div` width s, cell `mod` width s)) <$> bomb_coords in
    Ok (foldl (λ s rc,
                 set_field (update2 (set_bomb true) rc.1 rc.2 (field s)) s)
              s unique_cords).

(** The inner double loop of [calculate_neighbor_bombs] for one cell. *)
Definition count_neighbor_bombs (s : World) (row col : Z) : Z :=
  foldl (λ count dr,
    foldl (λ count dc,
      let nr := row + dr in
      let nc := col + dc in
      if (0 <=? nr) && (nr <? height s) && (0 <=? nc) && (nc <? width s)
         && bomb (cell_at s nr nc)
      then count + 1 else count) count offsets) 0 offsets.

(** The body of the loops of [calculate_neighbor_bombs] for one cell. *)
Definition count_cell (row col : Z) (s : World) : World :=
  if negb (bomb (cell_at s row col))
  then set_field (update2 (set_neighbor_bombs
                             (count_neighbor_bombs s row col))
                          row col (field s)) s
  else s.

Definition calculate_neighbor_bombs (s : World) : World :=
  foldl (λ s row,
    foldl (λ s col, count_cell row col s) s (seqZ 0 (width s)))
    s (seqZ 0 (height s)).

(** [check_best]; [config.best_time] is [best_time[current_diff]], read
    only when the difficulty is not ["custom"]. *)
Definition check_best (s : World) : result World :=
  let diff := current_diff (config s) in
  if bool_decide (diff ≠ "custom"%string) then
    match best_time (config s) !! diff with
    | None => Raise (KeyError diff) s
    | Some best =>
      if time_elapsed s <? best then
        let s := set_config
                   (set_best_time
                      (<[diff := time_elapsed s]> (best_time (config s)))
                      (config s)) s in
        Ok (set_config_json (config s) s)
      else Ok s
    end
  else Ok s.

(** ** InfoFrame *)

(** [start_timer]: the first call of [update_timer] ticks at once. *)
Definition start_timer (s : World) : World :=
  if running s then s
  else let s := set_running true s in
       set_time_elapsed (time_elapsed s + 1) s.

Definition stop_timer (s : World) : World := set_running false s.


(** [EndGamePopup(..., win)] opens a window; the grid stays as it is. *)
Definition EndGamePopup (win : bool) (s : World) : World :=
  set_popups (popups s ++ [win]) s.

(** ** Cell *)

(** The colour of a revealed number:
    [theme("num_colors").get(str(n), theme("text_color"))]. *)
Definition number_color (n : Z) : Color :=
  if (1 <=? n) && (n <=? 8) then num_color n else text_color.

(** The flag count of [try_chord]. *)
Definition flagged_count (s : World) (row col : Z) : Z :=
  foldl (λ count dr,
    foldl (λ count dc,
      let nr := row + dr in
      let nc := col + dc in
      if (0 <=? nr) && (nr <? height s) && (0 <=? nc) && (nc <? width s)
      then if flagged (cell_at s nr nc) then count + 1 else count
      else count) count offsets) 0 offsets.

(** [try_chord], with [reveal_] the method it calls on the neighbours. *)
Definition try_chord_with (reveal_ : Z → Z → World → result World)
    (row col : Z) (s : World) : result World :=
  if negb (revealed (cell_at s row col)) then Ok s
  else if flagged_count s row col =? neighbor_bombs (cell_at s row col) then
    for_each offsets (λ dr,
      for_each offsets (λ dc s,
        let nr := row + dr in
        let nc := col + dc in
        if (0 <=? nr) && (nr <? height s) && (0 <=? nc) && (nc <? width s)
        then if negb (revealed (cell_at s nr nc))
                && negb (flagged (cell_at s nr nc))
             then reveal_ nr nc s
             else Ok s
        else Ok s)) s
  else Ok s.

(** The first branch of [reveal] up to the recursive loop: the cell is
    marked, taken off [all_cords], its button redrawn, and the win test
    made. *)
Definition mark_revealed (row col : Z) (s : World) : result World :=
  let s := set_field (update2 (set_revealed true) row col (field s)) s in
  match list_remove (row * width s + col) (all_cords s) with
  | None => Raise (ValueError "list.remove(x): x not in list") s
  | Some l =>
    let s := set_all_cords l s in
    let s := set_buttons
               (update2 (set_fg_color pressed_color) row col (buttons s)) s in
    let n := neighbor_bombs (cell_at s row col) in
    let s :=
      if 1 <=? n then
        let s := set_buttons
                   (update2 (set_btn_text_color (number_color n)) row col
                            (buttons s)) s in
        set_buttons (update2 (set_btn_text n) row col (buttons s)) s
      else s in
    match all_cords s with
    | [] => bind (check_best (EndGamePopup true s)) (λ s, Ok (stop_timer s))
    | _ :: _ => Ok s
    end
  end.

(** The third branch of [reveal]: a mine goes off. *)
Definition explode (row col : Z) (s : World) : World :=
  let s := EndGamePopup false s in
  let s := stop_timer s in
  set_buttons (update2 (set_fg_color mines_color) row col (buttons s)) s.

(** The recursive loop of [reveal], with [reveal_] the method it calls
    on the neighbours that are not yet revealed. *)
Definition spread_with (reveal_ : Z → Z → World → result World)
    (row col : Z) (s : World) : result World :=
  for_each offsets (λ dc,
    for_each offsets (λ dr s,
      let new_r := row + dr in
      let new_c := col + dc in
      if in_grid s new_r new_c
         && negb (revealed (cell_at s new_r new_c))
      then reveal_ new_r new_c s
      else Ok s)) s.

Fixpoint reveal (fuel : nat) (row col : Z) (s : World) : result World :=
  match fuel with
  | O => OutOfFuel
  | S fuel' =>
    let self := cell_at s row col in
    if negb (bomb self) && negb (revealed self) then
      if negb (flagged self) then
        bind (mark_revealed row col s) (λ s,
          if neighbor_bombs (cell_at s row col) =? 0
          then spread_with (reveal fuel') row col s
          else Ok s)
      else Ok s
    else if revealed self then
      try_chord_with (reveal fuel') row col s
    else if bomb self && negb (flagged self) then
      Ok (explode row col s)
    else Ok s
  end.

Definition try_chord (fuel : nat) (row col : Z) (s : World) : result World :=
  try_chord_with (reveal fuel) row col s.

(** ** FieldFrame *)

(** [FieldFrame.__init__]: the grid of cells and one button per cell. *)
Definition field_frame_init (s : World) : World :=
  let s := do_field s in
  set_buttons ((λ _ : Z, (λ _ : Z, fresh_button) <$> seqZ 0 (width s))
                 <$> seqZ 0 (height s)) s.

(** [GreetScreen.start_game]: the info panel shows the mine counter and
    the field frame builds the grid. *)
Definition start_game (s : World) : World :=
  let s := set_first_click true s in
  let s := set_mines_label (Bombs (mines s)) s in
  field_frame_init s.

(** [on_click]; [bomb_coords] is the draw used if this is the first
    click. *)
Definition on_click (fuel : nat) (bomb_coords : list Z) (row col : Z)
    (s : World) : result World :=
  if first_click s then
    let s := safe_zone row col s in
    let s := set_first_click false s in
    bind (place_bombs bomb_coords s) (λ s,
      let s := calculate_neighbor_bombs s in
      let s := start_timer s in
      for_each offsets (λ dc,
        for_each offsets (λ dr s,
          let new_r := row + dr in
          let new_c := col + dc in
          if in_grid s new_r new_c
          then reveal fuel new_r new_c s
          else Ok s)) s)
  else reveal fuel row col s.

Definition mines_text (m : Z) : LabelText :=
  if 0 <=? m then Bombs m else AreYouDumb.

Definition set_flag (row col : Z) (s : World) : World :=
  if negb (revealed (cell_at s row col)) then
    let s := set_field
               (update2 (λ c, set_flagged (negb (flagged c)) c) row col
                        (field s)) s in
    if flagged (cell_at s row col) then
      let s := set_buttons
                 (update2 (set_fg_color flag_color) row col (buttons s)) s in
      let s := set_mines (mines s - 1) s in
      set_mines_label (mines_text (mines s)) s
    else
      let s := set_buttons
                 (update2 (set_fg_color button_color) row col (buttons s)) s in
      let s := set_mines (mines s + 1) s in
      set_mines_label (mines_text (mines s)) s
  else s.

(** ** ConfigFrame *)

(** The values held by the settings form when a button is pressed. *)
Record ConfigForm : Type := mkConfigForm {
  selected_diff : string;
  selected_theme : string;
  custom_height : string;
  custom_width : string;
  custom_mines : string }.

Definition code_point (a : ascii) : Z := Z.of_N (Ascii.N_of_ascii a).

(** ASCII ['0'] to ['9']: the digits [int()] reads. *)
Definition is_decimal (a : ascii) : bool :=
  (48 <=? code_point a) && (code_point a <=? 57).

(** [str.isdigit] on one character: below code point 256 it also holds
    of the superscripts two, three and one (178, 179, 185). *)
Definition is_digit_char (a : ascii) : bool :=
  is_decimal a
  || bool_decide (code_point a = 178)
  || bool_decide (code_point a = 179)
  || bool_decide (code_point a = 185).

Fixpoint all_chars (p : ascii → bool) (s : string) : bool :=
  match s with
  | EmptyString => true
  | String a s' => p a && all_chars p s'
  end.

Definition isdigit (s : string) : bool :=
  negb (bool_decide (s = EmptyString)) && all_chars is_digit_char s.

Fixpoint decimal_value (acc : Z) (s : string) : Z :=
  match s with
  | EmptyString => acc
  | String a s' => decimal_value (10 * acc + (code_point a - 48)) s'
  end.

(** [int(s.strip())] for a string that passed [isdigit]; [None] is the
    ValueError raised on a digit that is not a decimal one. *)
Definition int_of_str (s : string) : option Z :=
  if negb (bool_decide (s = EmptyString)) && all_chars is_decimal s
  then Some (decimal_value 0 s) else None.

Definition int_error (s : string) : string :=
  ("invalid literal for int() with base 10: '" ++ s ++ "'")%string.

Definition to_float (n : Z) : PrimFloat.float :=
  PrimFloat.of_uint63 (Uint63.of_Z n).

(** The binary64 number the literal [0.8] denotes. *)
Definition float_0_8 : PrimFloat.float :=
  PrimFloat.div (to_float 4) (to_float 5).

(** [mines >= width * height * 0.8 - 9], evaluated where the source
    evaluates it: after [4 <= width, height <= 100] has been checked, so
    the product converts to a float exactly.  Python compares the integer
    [mines] with the float exactly; from 2^53 on it exceeds any such
    bound. *)
Definition too_many_mines (mines_ width_ height_ : Z) : bool :=
  if mines_ <? 2 ^ 53 then
    PrimFloat.leb
      (PrimFloat.sub (PrimFloat.mul (to_float (width_ * height_)) float_0_8)
                     (to_float 9))
      (to_float mines_)
  else true.

(** The validation of the custom fields: [inl msg] is [ValueError(msg)],
    [inr (height, width, mines)] the accepted values. *)
Definition validate_custom (f : ConfigForm) : string + (Z * Z * Z) :=
  if negb (isdigit (custom_height f) && isdigit (custom_width f)
           && isdigit (custom_mines f))
  then inl "Height, Width and Mines must be numeric"%string
  else
    match int_of_str (custom_height f) with
    | None => inl (int_error (custom_height f))
    | Some height_ =>
      match int_of_str (custom_width f) with
      | None => inl (int_error (custom_width f))
      | Some width_ =>
        match int_of_str (custom_mines f) with
        | None => inl (int_error (custom_mines f))
        | Some mines_ =>
          if (height_ <? 4) || (width_ <? 4)
             || (100 <? height_) || (100 <? width_)
          then inl "The field is too small or big. Min/max value is 4/100."%string
          else if too_many_mines mines_ width_ height_
          then inl "Mines count must be less than Width * Height * 0.8 - 9(for safe zone)."%string
          else if mines_ <? 1
          then inl "Too few mines"%string
          else inr (height_, width_, mines_)
        end
      end
    end.

Definition show_error_dialog (msg : string) (s : World) : World :=
  set_error_dialogs (error_dialogs s ++ [msg]) s.

(** [Config.reload_config]: the dictionary is read back from the file. *)
Definition reload_config (s : World) : World := set_config (config_json s) s.

(** Writing [config.json] and reloading it. *)
Definition save_and_reload (s : World) : World :=
  reload_config (set_config_json (config s) s).

Definition apply_settings (f : ConfigForm) (s : World) : World :=
  let s := set_config (set_current_diff (selected_diff f) (config s)) s in
  let s := set_config (set_current_theme (selected_theme f) (config s)) s in
  if bool_decide (selected_diff f = "custom"%string) then
    match validate_custom f with
    | inl msg => show_error_dialog msg s
    | inr (height_, width_, mines_) =>
      match difficulties (config s) !! "custom"%string with
      | None => show_error_dialog "'custom'" s
      | Some _ =>
        save_and_reload
          (set_config
             (set_difficulties
                (<["custom"%string := mkDifficulty width_ height_ mines_]>
                   (difficulties (config s)))
                (config s)) s)
      end
    end
  else save_and_reload s.

(** [ok_settings]: apply, then leave the screen; [exit_config] rebuilds
    the menu, which reloads the configuration. *)
Definition exit_config (s : World) : World := reload_config s.
Definition ok_settings (f : ConfigForm) (s : World) : World :=
  exit_config (apply_settings f s).

(** * Example games *)

(** The configuration [load_config] writes when there is no file. *)
Definition default_config : ConfigData :=
  mkConfigData "easy" "dark"
    {[ "easy"%string := 9999; "normal"%string := 9999;
       "hard"%string := 9999 ]}
    {[ "easy"%string := mkDifficulty 9 9 10;
       "normal"%string := mkDifficulty 16 16 40;
       "hard"%string := mkDifficulty 30 16 80;
       "custom"%string := mkDifficulty 10 10 1 ]}.

(** The application when its window opens. *)
Definition initial_world : World :=
  reset_game (mkWorld default_config default_config true false 0
                      [] [] [] [] [] 0 (Bombs 0) [] []).

(** The state a call ended in. *)
Definition state_after (r : result World) : World :=
  match r with
  | Ok s => s
  | Raise _ s => s
  | OutOfFuel => initial_world
  end.

(** A custom 4x4 game with one mine, chosen in the settings screen and
    started from the menu. *)
Definition small_form : ConfigForm := mkConfigForm "custom" "dark" "4" "4" "1".
Definition small_start : World :=
  start_game (ok_settings small_form initial_world).

(** The player flags (0,0) and (0,2), then clicks (1,1); the mine is
    drawn at (3,3), linear coordinate 15. *)
Definition small_flagged : World := set_flag 0 2 (set_flag 0 0 small_start).
Definition small_clicked : World :=
  state_after (on_click 20 [15] 1 1 small_flagged).

(** Both flags are taken off again. *)
Definition small_unflagged : World :=
  set_flag 0 2 (set_flag 0 0 small_clicked).

(** Then (0,0) is clicked. *)
Definition small_corner : World :=
  state_after (on_click 20 [] 0 0 small_unflagged).

(** Or, instead, the mine at (3,3) is clicked. *)
Definition small_lost : World :=
  state_after (on_click 20 [] 3 3 small_unflagged).

(** A settings form with a width below the minimum. *)
Definition narrow_form : ConfigForm :=
  mkConfigForm "custom" "light" "10" "3" "1".

(** * The rest of the application *)

(** ** MinesweeperApp.build_ui and EndGamePopup *)



(** ** ConfigFrame.__init__ *)

(** [str(n)] for an integer. *)
Definition str_of_int (n : Z) : string :=
  DecimalString.NilZero.string_of_int (Z.to_int n).

(** The variables of the settings form when the screen opens; [None] is
    the KeyError raised when there is no custom preset. *)
Definition config_frame_init (s : World) : option ConfigForm :=
  match difficulties (config s) !! "custom"%string with
  | Some d =>
    Some (mkConfigForm (current_diff (config s)) (current_theme (config s))
                       (str_of_int (d_height d)) (str_of_int (d_width d))
                       (str_of_int (d_mines d)))
  | None => None
  end.

(** ** The events of the game screen *)




(** ** Further example states *)


(** A settings file edited by hand: a custom 4x4 grid with 16 mines,
    more than there are cells outside a clicked block. *)
Definition crowded_config : ConfigData :=
  mkConfigData "custom" "dark" ∅
    {[ "custom"%string := mkDifficulty 4 4 16 ]}.

Definition crowded_start : World :=
  start_game
    (reset_game (mkWorld crowded_config crowded_config true false 0
                         [] [] [] [] [] 0 (Bombs 0) [] [])).

(** The player flags (3,2) before the first click. *)
Definition small_trap : World := set_flag 3 2 small_start.

(** The settings form as the screen opens it at the start of the
    application. *)
Definition opening_form : ConfigForm :=
  mkConfigForm "easy" "dark" "10" "10" "1".

(** * Specification vocabulary *)

(** A position is a pair (row, column). *)
Definition inside (s : World) (p : Z * Z) : Prop :=
  0 ≤ p.1 < height s ∧ 0 ≤ p.2 < width s.

Definition cell (s : World) (p : Z * Z) : Cell := cell_at s p.1 p.2.

(** All positions of the grid, row by row. *)
Definition positions (s : World) : list (Z * Z) :=
  r ← seqZ 0 (height s); c ← seqZ 0 (width s); [(r, c)].

(** The 3x3 block around a position, and its in-grid members other than
    the position itself: the (up to eight) neighbours. *)
Definition around (p : Z * Z) : list (Z * Z) :=
  dr ← offsets; dc ← offsets; [(p.1 + dr, p.2 + dc)].

Definition neighbors8 (s : World) (p : Z * Z) : list (Z * Z) :=
  filter (λ q, in_grid s q.1 q.2 ∧ q ≠ p) (around p).

Definition mines_around (s : World) (p : Z * Z) : Z :=
  Z.of_nat (length (filter (λ q, bomb (cell s q)) (neighbors8 s p))).


Definition adjacent (p q : Z * Z) : Prop :=
  -1 ≤ q.1 - p.1 ≤ 1 ∧ -1 ≤ q.2 - p.2 ≤ 1.

(** The linear coordinate [row * width + col]. *)
Definition lin (s : World) (p : Z * Z) : Z := p.1 * width s + p.2.

(** Number of cells of the field that hold a mine. *)
Definition mine_total (s : World) : nat :=
  sum_list ((λ row, length (filter (λ c, bomb c) row)) <$> field s).

(** The field is a [height] by [width] rectangle. *)
Definition grid_ok (s : World) : bool :=
  bool_decide (length (field s) = Z.to_nat (height s))
  && forallb (λ row, bool_decide (length row = Z.to_nat (width s)))
             (field s).

(** The state [start_game] leaves: an empty safe zone and a rectangle of
    hidden cells without mines (flags may already have been set). *)
Definition fresh_game (s : World) : bool :=
  grid_ok s && first_click s && bool_decide (def_zone s = [])
  && forallb (λ p, negb (bomb (cell s p)) && negb (revealed (cell s p)))
             (positions s).

Definition counts_ok (s : World) : bool :=
  forallb (λ p, bomb (cell s p)
                || bool_decide (neighbor_bombs (cell s p) = mines_around s p))
          (positions s).

(** Linear coordinates of the cells that are neither mines nor
    revealed. *)
Definition safe_hidden (s : World) : list Z :=
  lin s <$> filter (λ p, negb (bomb (cell s p)) && negb (revealed (cell s p)))
                   (positions s).

(** [all_cords] lists the outstanding safe cells, each once. *)
Definition cords_ok (s : World) : bool :=
  bool_decide (NoDup (all_cords s))
  && forallb (λ x, bool_decide (x ∈ safe_hidden s)) (all_cords s)
  && forallb (λ x, bool_decide (x ∈ all_cords s)) (safe_hidden s).

Definition no_revealed_bomb (s : World) : bool :=
  forallb (λ p, negb (revealed (cell s p) && bomb (cell s p))) (positions s).

(** The invariant of claim C10: no cell is revealed and flagged. *)
Definition no_revealed_flag (s : World) : bool :=
  forallb (λ p, negb (revealed (cell s p) && flagged (cell s p)))
          (positions s).

(** [check_best] finds the record it compares with. *)
Definition best_time_ok (s : World) : bool :=
  bool_decide (current_diff (config s) = "custom"%string)
  || bool_decide (is_Some (best_time (config s) !! current_diff (config s))).

(** A game after mine placement: what the first click establishes and
    every later click keeps. *)
Definition placed (s : World) : bool :=
  grid_ok s && negb (first_click s) && counts_ok s && cords_ok s
  && no_revealed_bomb s && best_time_ok s.

Definition all_safe_revealed (s : World) : bool :=
  forallb (λ p, bomb (cell s p) || revealed (cell s p)) (positions s).

Definition hidden_count (s : World) : nat :=
  length (filter (λ p, negb (revealed (cell s p))) (positions s)).

Definition wins (s : World) : nat := length (filter (λ b : bool, b) (popups s)).
Definition losses (s : World) : nat :=
  length (filter (λ b : bool, negb b) (popups s)).

(** Cells connected to [start] through cells satisfying [P], by steps to
    one of the eight neighbours. *)
Inductive connected (P : Z * Z → Prop) (start : Z * Z) : Z * Z → Prop :=
| connected_start : connected P start start
| connected_step p q :
    connected P start p → adjacent p q → P q → connected P start q.

(** A cell the flood fill spreads from: in the grid, hidden, unflagged,
    no mine, and with neighbour count zero. *)
Definition spreads (s : World) (p : Z * Z) : Prop :=
  inside s p ∧ revealed (cell s p) = false ∧ flagged (cell s p) = false
  ∧ bomb (cell s p) = false ∧ neighbor_bombs (cell s p) = 0.



(** The offset pairs, first offset outermost. *)
Definition offset_pairs : list (Z * Z) := a ← offsets; b ← offsets; [(a, b)].

(** Invariant of the loops of [calculate_neighbor_bombs], started in
    [s0]: only neighbour counts have changed, and the cells in [D] that
    hold no mine have their count. *)
Definition calc_inv (s0 : World) (D : Z * Z → Prop) (s : World) : Prop :=
  s = set_field (field s) s0 ∧ grid_ok s = true
  ∧ (∀ p, inside s0 p →
          set_neighbor_bombs 0 (cell s p) = set_neighbor_bombs 0 (cell s0 p))
  ∧ (∀ p, inside s0 p → D p → bomb (cell s0 p) = false →
          neighbor_bombs (cell s p) = count_neighbor_bombs s0 p.1 p.2).

(** A property of the result of a call: [P] of the state it returns,
    [E] of the state it leaves when it raises, [F] if the fuel ran out. *)
Definition outcome {S : Type} (P E : S → Prop) (F : Prop) (r : result S)
  : Prop :=
  match r with
  | Ok s => P s
  | Raise _ s => E s
  | OutOfFuel => F
  end.

(** What [reveal] may do to the grid between a state [s] and a later
    state [s']: the grid keeps its shape, no cell changes its mine, flag
    or count, revealed cells stay revealed, and a cell that has become
    revealed held no mine and no flag. *)
Record evolves (s s' : World) : Prop := mkEvolves {
  ev_diff : cfg_diff (config s') = cfg_diff (config s);
  ev_grid : grid_ok s' = true;
  ev_bomb : ∀ p, inside s p → bomb (cell s' p) = bomb (cell s p);
  ev_flagged : ∀ p, inside s p → flagged (cell s' p) = flagged (cell s p);
  ev_count : ∀ p, inside s p →
      neighbor_bombs (cell s' p) = neighbor_bombs (cell s p);
  ev_mono : ∀ p, inside s p →
      revealed (cell s p) = true → revealed (cell s' p) = true;
  ev_new : ∀ p, inside s p →
      revealed (cell s' p) = true → revealed (cell s p) = false →
      bomb (cell s p) = false ∧ flagged (cell s p) = false }.

(** The parts of the state that only the end of a game touches. *)
Definition session (s : World)
  : ConfigData * ConfigData * bool * Z * list bool * bool :=
  (config s, config_json s, first_click s, time_elapsed s, popups s,
   running s).

(** A run of [reveal] that returns has taken as many entries off
    [all_cords] as it has revealed cells. *)
Definition marks_balance (s s' : World) : Prop :=
  (length (all_cords s') + hidden_count s
   = length (all_cords s) + hidden_count s')%nat.

(** The settings dictionary and the file after [check_best] ran with
    elapsed time [t]. *)
Definition best_checked (cfg json : ConfigData) (t : Z)
  : ConfigData * ConfigData :=
  if bool_decide (current_diff cfg ≠ "custom"%string) then
    match best_time cfg !! current_diff cfg with
    | Some best =>
      if t <? best then
        let cfg' := set_best_time (<[current_diff cfg := t]> (best_time cfg))
                                  cfg in
        (cfg', cfg')
      else (cfg, json)
    | None => (cfg, json)
    end
  else (cfg, json).

(** What a sequence of reveals does to the game between [s] and [s']:
    the grid evolves; a win popup is shown exactly when the last safe
    cell has just been revealed, and then the best time has been
    checked; any popup stops the timer. *)
Record play (s s' : World) : Prop := mkPlay {
  pl_evolves : evolves s s';
  pl_time : time_elapsed s' = time_elapsed s;
  pl_first : first_click s' = first_click s;
  pl_wins :
    wins s'
    = (wins s + if all_safe_revealed s' && negb (all_safe_revealed s)
                then 1 else 0)%nat;
  pl_losses : (losses s ≤ losses s')%nat;
  pl_config :
    (config s', config_json s')
    = if bool_decide (wins s' = wins s) then (config s, config_json s)
      else best_checked (config s) (config_json s) (time_elapsed s);
  pl_running :
    running s'
    = if bool_decide (wins s' = wins s ∧ losses s' = losses s)
      then running s else false }.

(** After a run of [reveal], a revealed cell with count zero has all its
    unflagged neighbours revealed. *)
Definition closed (s : World) (q : Z * Z) : Prop :=
  neighbor_bombs (cell s q) = 0 →
  ∀ y, adjacent q y → inside s y → flagged (cell s y) = false →
       revealed (cell s y) = true.

(** Where a run of [reveal] started at [x] in state [s] can reveal a
    cell: at [x], or next to a cell the flood fill spreads from. *)
Definition flooded (s : World) (x q : Z * Z) : Prop :=
  q = x ∨ (spreads s x ∧ ∃ p, connected (spreads s) x p ∧ adjacent p q).

(** A hidden unflagged mine. *)
Definition live_mine (s : World) (q : Z * Z) : bool :=
  in_grid s q.1 q.2 && bomb (cell s q)
  && negb (revealed (cell s q)) && negb (flagged (cell s q)).

(** The mines a call of [reveal] on [p] sets off: the cell itself if it
    is a hidden unflagged mine; for a revealed cell whose flag count
    matches, the hidden unflagged mines around it. *)
Definition mines_hit (s : World) (p : Z * Z) : nat :=
  if revealed (cell s p) then
    if flagged_count s p.1 p.2 =? neighbor_bombs (cell s p) then
      length (filter (λ q, live_mine s q) (around p))
    else 0%nat
  else if bomb (cell s p) && negb (flagged (cell s p)) then 1%nat
  else 0%nat.

(** What a call of [reveal] on a hidden safe unflagged cell of a placed
    game does. *)
Definition flood_result (s : World) (x : Z * Z) (s' : World) : Prop :=
  placed s' = true ∧ play s s' ∧ losses s' = losses s
  ∧ revealed (cell s' x) = true
  ∧ ∀ q, inside s q → revealed (cell s' q) = true →
         revealed (cell s q) = false → closed s' q ∧ flooded s x q.

(** What [try_chord] does on a revealed cell of a placed game when the
    flag count matches. *)
Definition chord_result (s : World) (x : Z * Z) (s' : World) : Prop :=
  placed s' = true ∧ play s s'
  ∧ losses s' = (losses s + length (filter (λ q, live_mine s q) (around x)))%nat
  ∧ ∀ y, adjacent x y → inside s y →
         revealed (cell s y) = false → flagged (cell s y) = false →
         bomb (cell s y) = false → revealed (cell s' y) = true.

(** * Vocabulary of the further properties *)

#[global] Instance Color_eq_dec : EqDecision Color.
Proof. solve_decision. Defined.

#[global] Instance Button_eq_dec : EqDecision Button.
Proof. solve_decision. Defined.

#[global] Instance LabelText_eq_dec : EqDecision LabelText.
Proof. solve_decision. Defined.

(** Number of flagged cells of the grid. *)
Definition flag_total (s : World) : nat :=
  length (filter (λ p, flagged (cell s p)) (positions s)).

(** The buttons form a [height] by [width] rectangle. *)
Definition buttons_ok (s : World) : bool :=
  bool_decide (length (buttons s) = Z.to_nat (height s))
  && forallb (λ row, bool_decide (length row = Z.to_nat (width s)))
             (buttons s).

Definition button (s : World) (p : Z * Z) : Button := button_at s p.1 p.2.

(** How the button of a cell looks when it shows the cell: a revealed
    cell is pressed and carries its count in the colour of that number
    (no text for count zero); a hidden cell carries no text and has the
    flag colour if flagged, else the plain colour, or the mine colour on
    a mine that has gone off. *)
Definition shows (c : Cell) (b : Button) : bool :=
  if revealed c then
    bool_decide (fg_color b = pressed_color)
    && (if 1 <=? neighbor_bombs c
        then bool_decide (btn_text b = Some (neighbor_bombs c))
             && bool_decide (btn_text_color b
                             = number_color (neighbor_bombs c))
        else bool_decide (btn_text b = None))
  else
    bool_decide (btn_text b = None)
    && (if flagged c then bool_decide (fg_color b = flag_color)
        else bool_decide (fg_color b = button_color)
             || (bomb c && bool_decide (fg_color b = mines_color))).

(** Every button of the grid shows its cell. *)
Definition rendered (s : World) : bool :=
  grid_ok s && buttons_ok s
  && forallb (λ p, shows (cell s p) (button s p)) (positions s).

(** The parts of the state no click touches. *)
Definition counters (s : World) : Z * LabelText * list string :=
  (mines s, mines_label s, error_dialogs s).






(** Binary64: the mantissa and exponent of the float of a positive
    integer below 2^53. *)
Definition mantissa53 (q : positive) : positive :=
  match (53 - Z.pos (SpecFloat.digits2_pos q))%Z with
  | Z.pos k => Pos.iter xO q k
  | _ => q
  end.

Definition exponent53 (q : positive) : Z :=
  Z.pos (SpecFloat.digits2_pos q) - 53.

(** The least mine count the test of [apply_settings] rejects on a
    field of [p] cells, in exact arithmetic, and the float it compares
    the mine count with. *)
Definition mines_limit (p : Z) : Z := (4 * p - 45 + 4) `div` 5.

Definition float_bound (p : Z) : PrimFloat.float :=
  PrimFloat.sub (PrimFloat.mul (to_float p) float_0_8) (to_float 9).

(** * Properties *)

(** ** Two-dimensional lists *)

Section grid2.
Context {A : Type}.
Implicit Types (g : list (list A)) (f h : A → A).

Lemma lookup2_update2 f r c r' c' g :
  0 ≤ r → 0 ≤ c → 0 ≤ r' → 0 ≤ c' →
  lookup2 (update2 f r c g) r' c'
  = if bool_decide (r = r' ∧ c = c') then f <$> lookup2 g r c
    else lookup2 g r' c'.
Proof.
  intros Hr Hc Hr' Hc'. unfold lookup2, update2.
  case_bool_decide as Heq.
  - destruct Heq as [<- <-]. rewrite list_lookup_alter_eq.
    destruct (g !! Z.to_nat r) as [row|]; simpl; [|done].
    by rewrite list_lookup_alter_eq.
  - destruct (decide (r = r')) as [<-|Hne].
    + rewrite list_lookup_alter_eq.
      destruct (g !! Z.to_nat r) as [row|]; simpl; [|done].
      rewrite list_lookup_alter_ne; [done|]. intros E.
      apply Heq. split; [done|]. lia.
    + rewrite list_lookup_alter_ne; [done|]. lia.
Qed.

Lemma length_update2 f r c g : length (update2 f r c g) = length g.
Proof. apply length_alter. Qed.

Lemma update2_rows f r c g (n : nat) :
  Forall (λ row, length row = n) g →
  Forall (λ row, length row = n) (update2 f r c g).
Proof.
  rewrite !Forall_lookup. intros Hg i row. unfold update2.
  destruct (decide (Z.to_nat r = i)) as [<-|Hne].
  - rewrite list_lookup_alter_eq.
    destruct (g !! Z.to_nat r) as [row'|] eqn:E; simpl; [|done].
    intros [= <-]. rewrite length_alter. by eapply Hg.
  - rewrite list_lookup_alter_ne; [|done]. apply Hg.
Qed.

Lemma update2_id f r c g : (∀ x, f x = x) → update2 f r c g = g.
Proof.
  intros Hf. unfold update2. apply list_alter_id.
  intros row. by apply list_alter_id.
Qed.

Lemma update2_compose f h r c g :
  update2 f r c (update2 h r c g) = update2 (f ∘ h) r c g.
Proof.
  unfold update2. apply list_eq. intros i.
  destruct (decide (Z.to_nat r = i)) as [<-|Hne].
  - rewrite !list_lookup_alter_eq.
    destruct (g !! Z.to_nat r) as [row|]; simpl; [|done].
    f_equal. apply list_eq. intros j.
    destruct (decide (Z.to_nat c = j)) as [<-|Hne].
    + rewrite !list_lookup_alter_eq. by destruct (row !! Z.to_nat c).
    + by rewrite !list_lookup_alter_ne.
  - by rewrite !list_lookup_alter_ne.
Qed.

Lemma update2_fix f r c g :
  (∀ x, lookup2 g r c = Some x → f x = x) → update2 f r c g = g.
Proof.
  intros Hf. unfold update2, lookup2 in *.
  apply list_eq. intros i.
  destruct (decide (Z.to_nat r = i)) as [<-|Hne].
  - rewrite list_lookup_alter_eq.
    destruct (g !! Z.to_nat r) as [row|] eqn:E; simpl in *; [|done].
    f_equal. apply list_eq. intros j.
    destruct (decide (Z.to_nat c = j)) as [<-|Hne].
    + rewrite list_lookup_alter_eq.
      destruct (row !! Z.to_nat c) as [x|] eqn:E'; simpl; [|done].
      f_equal. by apply Hf.
    + by rewrite list_lookup_alter_ne.
  - by rewrite list_lookup_alter_ne.
Qed.
End grid2.

(** ** Loops *)

Lemma bind_ext {A : Type} (m : result A) (k1 k2 : A → result A) :
  (∀ a, k1 a = k2 a) → bind m k1 = bind m k2.
Proof. intros H. destruct m; simpl; auto. Qed.

Lemma for_each_app {A S : Type} (l1 l2 : list A) (body : A → S → result S)
    (s : S) :
  for_each (l1 ++ l2) body s = bind (for_each l1 body s) (for_each l2 body).
Proof.
  revert s. induction l1 as [|x l1 IH]; intros s; simpl; [done|].
  destruct (body x s); simpl; auto.
Qed.

(** A nested loop is a loop over the pairs, outer index first. *)
Lemma for_each_nested {A B S : Type} (l1 : list A) (l2 : list B)
    (body : A → B → S → result S) (s : S) :
  for_each l1 (λ a, for_each l2 (body a)) s
  = for_each (a ← l1; b ← l2; [(a, b)]) (λ ab, body ab.1 ab.2) s.
Proof.
  revert s. induction l1 as [|a l1 IH]; intros s; [done|].
  rewrite bind_cons, for_each_app. simpl.
  assert (Hin : ∀ s, for_each l2 (body a) s
                     = for_each (b ← l2; [(a, b)]) (λ ab, body ab.1 ab.2) s).
  { clear. induction l2 as [|b l2 IH2]; intros s; [done|].
    simpl. apply bind_ext, IH2. }
  rewrite Hin. apply bind_ext, IH.
Qed.

(** ** Positions and the shape of the grid *)

Lemma forallb_elem_of {A : Type} (f : A → bool) (l : list A) :
  forallb f l = true ↔ ∀ x, x ∈ l → f x = true.
Proof.
  rewrite forallb_forall. split; intros H x Hx; apply H.
  - by apply list_elem_of_In.
  - by apply list_elem_of_In in Hx.
Qed.

Lemma in_grid_inside s r c : in_grid s r c = true ↔ inside s (r, c).
Proof.
  unfold in_grid, inside. simpl.
  rewrite !andb_true_iff, !Z.leb_le, !Z.ltb_lt. lia.
Qed.

Lemma in_grid_false s r c : in_grid s r c = false ↔ ¬ inside s (r, c).
Proof.
  rewrite <- in_grid_inside. destruct (in_grid s r c); naive_solver.
Qed.

Lemma elem_of_positions s p : p ∈ positions s ↔ inside s p.
Proof.
  unfold positions, inside. destruct p as [r c]. simpl.
  rewrite list_elem_of_bind. split.
  - intros (r' & Hc & Hr). apply list_elem_of_bind in Hc as (c' & Hp & Hc).
    apply list_elem_of_singleton in Hp as [= -> ->].
    apply elem_of_seqZ in Hr, Hc. lia.
  - intros [Hr Hc]. exists r. split; [|apply elem_of_seqZ; lia].
    apply list_elem_of_bind. exists c. split; [|apply elem_of_seqZ; lia].
    by apply list_elem_of_singleton.
Qed.

Lemma NoDup_positions s : NoDup (positions s).
Proof.
  unfold positions. apply NoDup_bind.
  - intros r1 r2 p _ _ H1 H2.
    apply list_elem_of_bind in H1 as (c1 & H1 & _).
    apply list_elem_of_bind in H2 as (c2 & H2 & _).
    apply list_elem_of_singleton in H1, H2. congruence.
  - intros r _. apply NoDup_bind.
    + intros c1 c2 p _ _ H1 H2.
      apply list_elem_of_singleton in H1, H2. congruence.
    + intros c _. apply NoDup_singleton.
    + apply NoDup_seqZ.
  - apply NoDup_seqZ.
Qed.

Lemma grid_ok_spec s :
  grid_ok s = true ↔
  length (field s) = Z.to_nat (height s)
  ∧ Forall (λ row, length row = Z.to_nat (width s)) (field s).
Proof.
  unfold grid_ok. rewrite andb_true_iff, bool_decide_eq_true.
  rewrite forallb_elem_of, Forall_forall.
  by setoid_rewrite bool_decide_eq_true.
Qed.

Lemma lookup2_inside s p :
  grid_ok s = true → inside s p → is_Some (lookup2 (field s) p.1 p.2).
Proof.
  intros [Hlen Hrows]%grid_ok_spec [Hr Hc]. unfold lookup2.
  destruct (lookup_lt_is_Some_2 (field s) (Z.to_nat p.1)) as [row Hrow];
    [lia|].
  rewrite Hrow. simpl. apply lookup_lt_is_Some_2.
  rewrite Forall_lookup in Hrows. rewrite (Hrows _ _ Hrow). lia.
Qed.

(** Reading a cell after [field[r][c]] was updated in place. *)
Lemma cell_update2 s s' f r c p :
  grid_ok s = true → inside s (r, c) → inside s p →
  field s' = update2 f r c (field s) →
  cell s' p = if bool_decide ((r, c) = p) then f (cell s p) else cell s p.
Proof.
  intros Hg Hrc Hp Hf. unfold cell, cell_at. rewrite Hf.
  destruct Hrc as [Hr Hc], Hp as [Hr' Hc']. simpl in *.
  rewrite lookup2_update2 by lia.
  destruct p as [r' c']; simpl in *.
  destruct (lookup2_inside s (r, c) Hg) as [x Hx]; [done|]. simpl in Hx.
  repeat case_bool_decide; try done.
  - destruct_and!; simplify_eq. by rewrite Hx.
  - destruct_and!; simplify_eq.
  - simplify_eq. tauto.
Qed.

Lemma grid_ok_update2 s s' f r c :
  grid_ok s = true → cfg_diff (config s') = cfg_diff (config s) →
  field s' = update2 f r c (field s) → grid_ok s' = true.
Proof.
  rewrite !grid_ok_spec. unfold cfg_width, cfg_height.
  intros [Hl Hr] Hc Hf. rewrite Hc, Hf.
  split; [by rewrite length_update2 | by apply update2_rows].
Qed.

Lemma grid_ok_same s s' :
  grid_ok s = true → cfg_diff (config s') = cfg_diff (config s) →
  field s' = field s → grid_ok s' = true.
Proof.
  rewrite !grid_ok_spec. unfold cfg_width, cfg_height.
  intros [Hl Hr] Hc Hf. by rewrite Hc, Hf.
Qed.

(** ** Counting loops *)

Lemma foldl_count {A : Type} (P : A → bool) (l : list A) (a : Z) :
  foldl (λ count x, if P x then count + 1 else count) a l
  = a + Z.of_nat (length (filter (λ x, P x) l)).
Proof.
  revert a. induction l as [|x l IH]; intros a; simpl; [lia|].
  rewrite IH, filter_cons. destruct (P x) eqn:E.
  - rewrite decide_True by done. simpl. lia.
  - rewrite decide_False by (by intros ?). lia.
Qed.

Lemma foldl_nested {A B C : Type} (F : C → A → B → C) (l1 : list A)
    (l2 : list B) (a : C) :
  foldl (λ a x, foldl (λ a y, F a x y) a l2) a l1
  = foldl (λ a xy, F a xy.1 xy.2) a (x ← l1; y ← l2; [(x, y)]).
Proof.
  revert a. induction l1 as [|x l1 IH]; intros a; [done|].
  rewrite bind_cons, foldl_app. simpl. rewrite IH. f_equal.
  clear. revert a. induction l2 as [|y l2 IH]; intros a; [done|].
  simpl. by rewrite IH.
Qed.

Lemma length_filter_fmap {A B : Type} (f : A → B) (P : B → bool)
    (l : list A) :
  length (filter (λ y, P y) (f <$> l)) = length (filter (λ x, P (f x)) l).
Proof.
  induction l as [|x l IH]; [done|].
  rewrite fmap_cons, !filter_cons.
  destruct (P (f x)) eqn:E.
  - rewrite !decide_True by (by rewrite ?E). simpl. by rewrite IH.
  - rewrite !decide_False by (by rewrite ?E; intros ?). done.
Qed.

Lemma length_filter_ext {A : Type} (P Q : A → Prop)
    `{∀ x, Decision (P x)} `{∀ x, Decision (Q x)} (l : list A) :
  (∀ x, x ∈ l → P x ↔ Q x) → length (filter P l) = length (filter Q l).
Proof.
  induction l as [|x l IH]; intros Hl; [done|].
  rewrite !filter_cons.
  assert (Hx : P x ↔ Q x) by (apply Hl; left).
  assert (Hr : length (filter P l) = length (filter Q l)).
  { apply IH. intros y Hy. apply Hl. by right. }
  destruct (decide (P x)), (decide (Q x)); simpl; tauto || lia.
Qed.

Lemma around_offsets p :
  around p = (λ d, (p.1 + d.1, p.2 + d.2)) <$> offset_pairs.
Proof. reflexivity. Qed.

Lemma elem_of_around p q : q ∈ around p ↔ adjacent p q.
Proof.
  destruct p as [r c], q as [r' c']. unfold adjacent, around, offsets.
  simpl. rewrite !elem_of_cons, elem_of_nil. split.
  - intros H. repeat destruct H as [H|H]; try done; simplify_eq; lia.
  - intros [H1 H2].
    assert (Hr : r' = r + -1 ∨ r' = r + 0 ∨ r' = r + 1) by lia.
    assert (Hc : c' = c + -1 ∨ c' = c + 0 ∨ c' = c + 1) by lia.
    destruct Hr as [-> | [-> | ->]], Hc as [-> | [-> | ->]]; tauto.
Qed.

Lemma count_neighbor_bombs_eq s r c :
  count_neighbor_bombs s r c
  = Z.of_nat (length (filter (λ q, in_grid s q.1 q.2 && bomb (cell s q))
                             (around (r, c)))).
Proof.
  unfold count_neighbor_bombs.
  rewrite (foldl_nested
    (λ count dr dc,
       if (0 <=? r + dr) && (r + dr <? height s) && (0 <=? c + dc)
          && (c + dc <? width s) && bomb (cell_at s (r + dr) (c + dc))
       then count + 1 else count)).
  rewrite (foldl_count
    (λ d : Z * Z,
       (0 <=? r + d.1) && (r + d.1 <? height s) && (0 <=? c + d.2)
       && (c + d.2 <? width s) && bomb (cell_at s (r + d.1) (c + d.2)))).
  rewrite around_offsets, length_filter_fmap, Z.add_0_l. f_equal.
  apply length_filter_ext. intros d _. unfold in_grid, cell. simpl.
  rewrite !andb_True. tauto.
Qed.

Lemma count_neighbor_bombs_mines_around s p :
  bomb (cell s p) = false →
  count_neighbor_bombs s p.1 p.2 = mines_around s p.
Proof.
  intros Hp. rewrite count_neighbor_bombs_eq. unfold mines_around, neighbors8.
  f_equal. destruct p as [r c]. simpl.
  rewrite list_filter_filter. apply length_filter_ext.
  intros q _. rewrite andb_True. split.
  - intros [H1 H2]. repeat split; try done.
    intros ->. rewrite Hp in H2. done.
  - tauto.
Qed.

(** ** Neighbour counts *)

Lemma foldl_invariant {A S : Type} (f : S → A → S) (I : list A → S → Prop)
    (l : list A) (s : S) :
  I [] s →
  (∀ done x s, I done s → x ∈ l → I (done ++ [x]) (f s x)) →
  I l (foldl f s l).
Proof.
  intros H0 Hstep.
  assert (H : ∀ done rest s,
             done ++ rest = l → I done s → I l (foldl f s rest)).
  { intros done rest. revert done.
    induction rest as [|x rest IH]; intros done s' Hl HI; simpl.
    - by rewrite app_nil_r in Hl; subst.
    - apply (IH (done ++ [x])).
      + by rewrite <- app_assoc.
      + apply Hstep; [done|]. rewrite <- Hl. set_solver. }
  by apply (H [] l).
Qed.

Lemma count_neighbor_bombs_ext s s' r c :
  config s' = config s →
  (∀ p, inside s p → bomb (cell s' p) = bomb (cell s p)) →
  count_neighbor_bombs s' r c = count_neighbor_bombs s r c.
Proof.
  intros Hc Hb. rewrite !count_neighbor_bombs_eq. f_equal.
  apply length_filter_ext. intros q _. unfold in_grid. rewrite Hc.
  fold (in_grid s q.1 q.2). rewrite !andb_True.
  split; intros [Hin Hq]; (split; [done|]).
  - rewrite <- Hb; [done|]. apply in_grid_inside. destruct q.
    by apply Is_true_true.
  - rewrite Hb; [done|]. apply in_grid_inside. destruct q.
    by apply Is_true_true.
Qed.

Lemma mines_around_ext s s' p :
  config s' = config s →
  (∀ q, inside s q → bomb (cell s' q) = bomb (cell s q)) →
  mines_around s' p = mines_around s p.
Proof.
  intros Hc Hb. unfold mines_around, neighbors8. f_equal.
  rewrite !list_filter_filter. apply length_filter_ext. intros q _.
  unfold in_grid. rewrite Hc. fold (in_grid s q.1 q.2).
  split; intros [Hq [Hin Hne]]; (split; [|done]).
  - rewrite <- Hb; [done|]. apply in_grid_inside. destruct q.
    by apply Is_true_true.
  - rewrite Hb; [done|]. apply in_grid_inside. destruct q.
    by apply Is_true_true.
Qed.

Lemma calc_inv_weaken s0 (D D' : Z * Z → Prop) s :
  (∀ p, inside s0 p → D' p → D p) → calc_inv s0 D s → calc_inv s0 D' s.
Proof. intros HD (H1 & H2 & H3 & H4). repeat split; auto. Qed.

Lemma calc_inv_config s0 D s : calc_inv s0 D s → config s = config s0.
Proof. intros (H1 & _). by rewrite H1. Qed.

Lemma count_cell_inv s0 D s r c :
  calc_inv s0 D s → inside s0 (r, c) →
  calc_inv s0 (λ p, D p ∨ p = (r, c)) (count_cell r c s).
Proof.
  intros HI Hrc. pose proof (calc_inv_config _ _ _ HI) as Hcfg.
  destruct HI as (H1 & H2 & H3 & H4).
  assert (Hrc' : inside s (r, c)) by (unfold inside; by rewrite Hcfg).
  unfold count_cell. change (cell_at s r c) with (cell s (r, c)).
  destruct (bomb (cell s (r, c))) eqn:Hb; simpl.
  - repeat split; try done. intros p Hp [HD| ->] Hp0; [by apply H4|].
    specialize (H3 _ Hrc). apply (f_equal bomb) in H3. simpl in H3.
    congruence.
  - set (s' := set_field _ s).
    assert (Hcell : ∀ p, inside s0 p →
      cell s' p = if bool_decide ((r, c) = p)
                  then set_neighbor_bombs (count_neighbor_bombs s r c)
                                          (cell s p)
                  else cell s p).
    { intros p Hp. apply cell_update2; try done.
      unfold inside. by rewrite Hcfg. }
    repeat split.
    + subst s'. simpl. generalize (update2
        (set_neighbor_bombs (count_neighbor_bombs s r c)) r c (field s)).
      intros X. rewrite H1. reflexivity.
    + by eapply grid_ok_update2.
    + intros p Hp. rewrite Hcell by done. case_bool_decide; auto.
      subst p. rewrite <- H3 by done. done.
    + intros p Hp HD Hp0. rewrite Hcell by done. case_bool_decide.
      * subst p. simpl. apply count_neighbor_bombs_ext; [done|].
        intros q Hq. specialize (H3 _ Hq). by apply (f_equal bomb) in H3.
      * destruct HD as [HD| ->]; [by apply H4 | done].
Qed.

Lemma count_row_inv s0 D s r :
  calc_inv s0 D s → 0 ≤ r < height s0 →
  calc_inv s0 (λ p, D p ∨ p.1 = r)
           (foldl (λ s col, count_cell r col s) s (seqZ 0 (width s))).
Proof.
  intros HI Hr. rewrite (calc_inv_config _ _ _ HI).
  apply (calc_inv_weaken _ (λ p, D p ∨ (p.1 = r ∧ p.2 ∈ seqZ 0 (width s0)))).
  { intros [r' c'] [_ Hc] [HD|Hp]; [by left|]. simpl in *. right.
    split; [done|]. apply elem_of_seqZ. lia. }
  apply (foldl_invariant _
           (λ done s, calc_inv s0 (λ p, D p ∨ (p.1 = r ∧ p.2 ∈ done)) s)).
  - eapply calc_inv_weaken; [|done]. intros p _ [HD|[_ Hp]]; [done|].
    by apply elem_of_nil in Hp.
  - intros done c s1 HI1 Hc. apply elem_of_seqZ in Hc.
    eapply calc_inv_weaken; [|apply count_cell_inv; [exact HI1|]].
    + intros [r' c'] _ [HD|[Hr' Hc']]; simpl in *; [by left; left|].
      apply elem_of_app in Hc' as [Hc'|Hc'].
      * left. right. done.
      * right. apply list_elem_of_singleton in Hc'. by subst.
    + unfold inside. simpl. lia.
Qed.

Lemma calculate_neighbor_bombs_inv s :
  grid_ok s = true →
  calc_inv s (λ _, True) (calculate_neighbor_bombs s).
Proof.
  intros Hg. unfold calculate_neighbor_bombs.
  apply (calc_inv_weaken _ (λ p, p.1 ∈ seqZ 0 (height s))).
  { intros p [Hr _] _. apply elem_of_seqZ. lia. }
  apply (foldl_invariant _ (λ done s', calc_inv s (λ p, p.1 ∈ done) s')).
  - split; [by destruct s|]. do 2 (split; [done|]).
    intros p _ Hp. by apply elem_of_nil in Hp.
  - intros done r s1 HI1 Hr. apply elem_of_seqZ in Hr.
    eapply calc_inv_weaken; [|apply count_row_inv; [exact HI1|lia]].
    intros p _ Hp. simpl in Hp.
    apply elem_of_app in Hp as [Hp|Hp]; [by left|].
    right. by apply list_elem_of_singleton in Hp.
Qed.

(** C5. After [calculate_neighbor_bombs] has run on a rectangular field,
    the [neighbor_bombs] stored in every cell that holds no mine equals
    the number of mines among its in-grid eight neighbours. *)
Theorem calculate_neighbor_bombs_correct (s : World) (p : Z * Z) :
  grid_ok s = true → inside s p →
  bomb (cell (calculate_neighbor_bombs s) p) = false →
  neighbor_bombs (cell (calculate_neighbor_bombs s) p)
  = mines_around (calculate_neighbor_bombs s) p.
Proof.
  intros Hg Hp Hb.
  pose proof (calculate_neighbor_bombs_inv s Hg) as HI.
  pose proof (calc_inv_config _ _ _ HI) as Hcfg.
  destruct HI as (H1 & H2 & H3 & H4).
  assert (Hbomb : ∀ q, inside s q →
            bomb (cell (calculate_neighbor_bombs s) q) = bomb (cell s q)).
  { intros q Hq. specialize (H3 _ Hq). by apply (f_equal bomb) in H3. }
  rewrite (mines_around_ext s) by done.
  rewrite <- count_neighbor_bombs_mines_around by (by rewrite <- Hbomb).
  apply H4; [done..|]. by rewrite <- Hbomb.
Qed.

(** ** The field as a table of cells *)

Lemma field_table s :
  grid_ok s = true →
  field s = (λ r, (λ c, cell s (r, c)) <$> seqZ 0 (width s))
              <$> seqZ 0 (height s).
Proof.
  intros Hg. pose proof Hg as [Hlen Hrows]%grid_ok_spec.
  rewrite Forall_lookup in Hrows.
  apply list_eq. intros i. rewrite list_lookup_fmap.
  destruct (decide (i < length (field s))%nat) as [Hi|Hi].
  - destruct (lookup_lt_is_Some_2 _ _ Hi) as [row Hrow]. rewrite Hrow.
    rewrite lookup_seqZ_lt by lia. simpl. f_equal.
    apply list_eq. intros j. rewrite list_lookup_fmap.
    pose proof (Hrows _ _ Hrow) as Hlr.
    destruct (decide (j < length row)%nat) as [Hj|Hj].
    + destruct (lookup_lt_is_Some_2 _ _ Hj) as [x Hx]. rewrite Hx.
      rewrite lookup_seqZ_lt by lia. simpl. f_equal.
      unfold cell, cell_at, lookup2. simpl.
      rewrite !Z.add_0_l, !Nat2Z.id, Hrow. simpl. by rewrite Hx.
    + rewrite lookup_ge_None_2 by lia.
      by rewrite lookup_seqZ_ge by lia.
  - rewrite lookup_ge_None_2 by lia.
    by rewrite lookup_seqZ_ge by lia.
Qed.

Lemma sum_rows_positions {A : Type} (P : A → bool) (F : Z → Z → A)
    (rows cols : list Z) :
  sum_list ((λ r, length (filter (λ x, P x) ((λ c, F r c) <$> cols)))
              <$> rows)
  = length (filter (λ p : Z * Z, P (F p.1 p.2))
                   (r ← rows; c ← cols; [(r, c)])).
Proof.
  induction rows as [|r rows IH]; [done|].
  rewrite fmap_cons, bind_cons, filter_app, length_app. simpl.
  rewrite IH. f_equal. clear.
  induction cols as [|c cols IH]; [done|].
  rewrite fmap_cons, bind_cons, filter_app, length_app, !filter_cons.
  rewrite filter_nil. simpl. rewrite <- IH.
  destruct (P (F r c)) eqn:E.
  - by rewrite !decide_True by (by rewrite ?E).
  - by rewrite !decide_False by (by rewrite ?E; intros ?).
Qed.

Lemma mine_total_positions s :
  grid_ok s = true →
  mine_total s = length (filter (λ p, bomb (cell s p)) (positions s)).
Proof.
  intros Hg. unfold mine_total. rewrite (field_table s Hg) at 1.
  rewrite <- list_fmap_compose. unfold compose.
  rewrite (sum_rows_positions bomb (λ r c, cell s (r, c))).
  unfold positions. apply length_filter_ext. by intros [r c] _.
Qed.

(** ** First-click placement *)

Lemma lin_inj s p q : inside s p → inside s q → lin s p = lin s q → p = q.
Proof.
  destruct p as [r c], q as [r' c']. unfold inside, lin. simpl.
  intros [Hr Hc] [Hr' Hc'] H.
  assert (r = r') by nia. subst. f_equal. lia.
Qed.

Lemma lin_range s p : inside s p → 0 ≤ lin s p < height s * width s.
Proof. destruct p as [r c]. unfold inside, lin. simpl. nia. Qed.

Lemma lin_div_mod s p :
  inside s p → (lin s p `div` width s, lin s p `mod` width s) = p.
Proof.
  destruct p as [r c]. unfold inside, lin. simpl. intros [Hr Hc].
  rewrite <- (Z.div_unique (r * width s + c) (width s) r c) by lia.
  rewrite <- (Z.mod_unique (r * width s + c) (width s) r c) by lia.
  done.
Qed.

Lemma div_mod_inside s x :
  0 < width s → 0 ≤ x < height s * width s →
  inside s (x `div` width s, x `mod` width s)
  ∧ lin s (x `div` width s, x `mod` width s) = x.
Proof.
  intros Hw Hx.
  pose proof (Z.mod_pos_bound x (width s)) as Hm.
  pose proof (Z.div_mod x (width s)) as Hd.
  unfold inside, lin. simpl. split; [|lia].
  split; [|lia]. split; [apply Z.div_pos; lia|].
  apply Z.div_lt_upper_bound; lia.
Qed.

Lemma safe_zone_loop s l row col :
  foldl (λ s (d : Z * Z),
           if in_grid s (row + d.2) (col + d.1)
           then set_def_zone
                  (def_zone s ++ [(row + d.2) * width s + (col + d.1)]) s
           else s) s l
  = set_def_zone
      (def_zone s
       ++ ((λ d : Z * Z, lin s (row + d.2, col + d.1))
             <$> filter (λ d : Z * Z, in_grid s (row + d.2) (col + d.1)) l))
      s.
Proof.
  revert s. induction l as [|d l IH]; intros s.
  - simpl. rewrite app_nil_r. by destruct s.
  - cbn [foldl]. rewrite filter_cons.
    destruct (in_grid s (row + d.2) (col + d.1)) eqn:E.
    + rewrite decide_True by done. rewrite IH.
      unfold in_grid, lin. cbn. by rewrite <- app_assoc.
    + rewrite decide_False by (by intros ?). by rewrite IH.
Qed.

Lemma safe_zone_eq s row col :
  safe_zone row col s
  = set_def_zone
      (def_zone s
       ++ ((λ d : Z * Z, lin s (row + d.2, col + d.1))
             <$> filter (λ d : Z * Z, in_grid s (row + d.2) (col + d.1))
                        offset_pairs))
      s.
Proof.
  unfold safe_zone.
  rewrite (foldl_nested
    (λ s dc dr,
       if in_grid s (row + dr) (col + dc)
       then set_def_zone (def_zone s ++ [(row + dr) * width s + (col + dc)]) s
       else s)).
  apply safe_zone_loop.
Qed.

Lemma safe_zone_config s row col : config (safe_zone row col s) = config s.
Proof. by rewrite safe_zone_eq. Qed.

Lemma safe_zone_field s row col : field (safe_zone row col s) = field s.
Proof. by rewrite safe_zone_eq. Qed.

Lemma def_zone_safe_zone s row col :
  def_zone (safe_zone row col s)
  = def_zone s
    ++ ((λ d : Z * Z, lin s (row + d.2, col + d.1))
          <$> filter (λ d : Z * Z, in_grid s (row + d.2) (col + d.1))
                     offset_pairs).
Proof. by rewrite safe_zone_eq. Qed.

Lemma def_zone_length s row col :
  def_zone s = [] → (length (def_zone (safe_zone row col s)) ≤ 9)%nat.
Proof.
  intros H0. rewrite def_zone_safe_zone, H0. simpl.
  rewrite length_fmap. etrans; [apply length_filter|]. done.
Qed.

Lemma def_zone_covers s row col q :
  q ∈ around (row, col) → inside s q →
  lin s q ∈ def_zone (safe_zone row col s).
Proof.
  intros Hq Hin. rewrite def_zone_safe_zone. apply elem_of_app. right.
  apply elem_of_around in Hq. destruct q as [r c].
  unfold adjacent in Hq. simpl in Hq.
  apply list_elem_of_fmap. exists (c - col, r - row). simpl. split.
  - f_equal. f_equal; lia.
  - apply list_elem_of_filter. simpl. split.
    + apply Is_true_true, in_grid_inside.
      by replace (row + (r - row)) with r by lia;
         replace (col + (c - col)) with c by lia.
    + assert (Hr : r - row = -1 ∨ r - row = 0 ∨ r - row = 1) by lia.
      assert (Hc : c - col = -1 ∨ c - col = 0 ∨ c - col = 1) by lia.
      unfold offset_pairs, offsets. simpl.
      rewrite !elem_of_cons.
      destruct Hr as [-> | [-> | ->]], Hc as [-> | [-> | ->]]; tauto.
Qed.

(** The loop of [place_bombs] that sets the [bomb] fields. *)
Lemma set_bombs_loop l s :
  grid_ok s = true → (∀ q, q ∈ l → inside s q) →
  let s' := foldl (λ s (rc : Z * Z),
                     set_field (update2 (set_bomb true) rc.1 rc.2 (field s)) s)
                  s l in
  s' = set_field (field s') s ∧ grid_ok s' = true
  ∧ ∀ p, inside s p →
         cell s' p = if bool_decide (p ∈ l) then set_bomb true (cell s p)
                     else cell s p.
Proof.
  revert s. induction l as [|x l IH]; intros s Hg Hl; cbn [foldl].
  - split; [by destruct s|]. split; [done|]. intros p _.
    by rewrite bool_decide_eq_false_2 by apply not_elem_of_nil.
  - set (s1 := set_field (update2 (set_bomb true) x.1 x.2 (field s)) s).
    assert (Hx : inside s x) by (apply Hl; left).
    assert (Hg1 : grid_ok s1 = true) by (by eapply grid_ok_update2).
    destruct (IH s1 Hg1) as (H1 & H2 & H3).
    { intros q Hq. apply (Hl q). by right. }
    split; [rewrite H1 at 1; done|]. split; [done|].
    intros p Hp. rewrite H3 by done.
    rewrite (cell_update2 s s1 (set_bomb true) x.1 x.2 p) by
      (by destruct x).
    destruct x as [xr xc]. simpl.
    repeat case_bool_decide; try done; subst; set_solver.
Qed.

Lemma danger_cords_length (all_ dz : list Z) :
  NoDup all_ →
  (length all_ - length dz ≤ length (set_difference_list all_ dz))%nat.
Proof.
  intros Hnd. unfold set_difference_list.
  change (length (elements ?X)) with (size X).
  rewrite size_difference_alt, size_list_to_set by done.
  assert (size ((list_to_set all_ : gset Z) ∩ list_to_set dz) ≤ length dz)%nat;
    [|lia].
  etrans; [apply (subseteq_size _ (list_to_set dz)); set_solver|].
  change (size ?X) with (length (elements X)).
  apply submseteq_length, NoDup_submseteq; [apply NoDup_elements|].
  intros x Hx. apply elem_of_elements in Hx. set_solver.
Qed.

Lemma elem_of_set_difference_list x (a b : list Z) :
  x ∈ set_difference_list a b ↔ x ∈ a ∧ x ∉ b.
Proof. unfold set_difference_list. rewrite elem_of_elements. set_solver. Qed.

Lemma NoDup_set_difference_list (a b : list Z) :
  NoDup (set_difference_list a b).
Proof. apply NoDup_elements. Qed.

Lemma sample_of_spec population k l :
  sample_of population k l = true ↔
  NoDup l ∧ Z.of_nat (length l) = k ∧ ∀ x, x ∈ l → x ∈ population.
Proof.
  unfold sample_of.
  rewrite !andb_true_iff, bool_decide_eq_true, Z.eqb_eq, forallb_elem_of.
  setoid_rewrite bool_decide_eq_true. tauto.
Qed.

Lemma place_bombs_ok bomb_coords s :
  0 ≤ cfg_bombs (config s) →
  cfg_bombs (config s)
  ≤ Z.of_nat (length (set_difference_list (seqZ 0 (height s * width s))
                                          (def_zone s))) →
  place_bombs bomb_coords s
  = Ok (foldl (λ s (rc : Z * Z),
                 set_field (update2 (set_bomb true) rc.1 rc.2 (field s)) s)
              (set_all_cords
                 (set_difference_list (seqZ 0 (height s * width s))
                                      bomb_coords)
                 (set_danger_cords
                    (set_difference_list (seqZ 0 (height s * width s))
                                         (def_zone s)) s))
              ((λ x, (x `div` width s, x `mod` width s)) <$> bomb_coords)).
Proof.
  intros H0 Hle. unfold place_bombs.
  cbn [config all_cords def_zone danger_cords
       set_all_cords set_danger_cords].
  assert (Hif : (cfg_bombs (config s) <? 0)
                || (Z.of_nat (length (set_difference_list
                                        (seqZ 0 (height s * width s))
                                        (def_zone s)))
                    <? cfg_bombs (config s)) = false).
  { apply orb_false_iff. rewrite !Z.ltb_ge. lia. }
  by rewrite Hif.
Qed.

(** The population the mines are drawn from is large enough. *)
Lemma population_large s row col :
  fresh_game s = true → inside s (row, col) →
  5 * cfg_bombs (config s) < 4 * (width s * height s) - 45 →
  cfg_bombs (config s)
  ≤ Z.of_nat (length (set_difference_list
                        (seqZ 0 (height s * width s))
                        (def_zone (safe_zone row col s)))).
Proof.
  unfold fresh_game. rewrite !andb_true_iff, bool_decide_eq_true.
  intros [[[Hg Hfc] Hdz] Hnb] [Hr Hc] Hm. simpl in Hr, Hc.
  pose proof (danger_cords_length (seqZ 0 (height s * width s))
                (def_zone (safe_zone row col s)) (NoDup_seqZ _ _)) as Hlen.
  pose proof (def_zone_length s row col Hdz) as H9.
  rewrite length_seqZ in Hlen. nia.
Qed.

(** What [place_bombs] does to the cells: those named by the draw get a
    mine, nothing else changes. *)
Lemma place_bombs_cells bomb_coords s :
  grid_ok s = true → 0 < width s →
  sample_of (set_difference_list (seqZ 0 (height s * width s)) (def_zone s))
            (cfg_bombs (config s)) bomb_coords = true →
  ∃ s', place_bombs bomb_coords s = Ok s'
    ∧ s' = set_field (field s')
             (set_all_cords
                (set_difference_list (seqZ 0 (height s * width s))
                                     bomb_coords)
                (set_danger_cords
                   (set_difference_list (seqZ 0 (height s * width s))
                                        (def_zone s)) s))
    ∧ grid_ok s' = true
    ∧ (∀ p, inside s p →
            cell s' p = if bool_decide (lin s p ∈ bomb_coords)
                        then set_bomb true (cell s p) else cell s p).
Proof.
  intros Hg Hw (Hnd & Hlen & Hsub)%sample_of_spec.
  set (pop := set_difference_list _ _) in *.
  assert (Hrange : ∀ x, x ∈ bomb_coords → 0 ≤ x < height s * width s).
  { intros x Hx. apply Hsub in Hx.
    apply elem_of_set_difference_list in Hx as [Hx _].
    apply elem_of_seqZ in Hx. lia. }
  assert (Hle : cfg_bombs (config s) ≤ Z.of_nat (length pop)).
  { rewrite <- Hlen. apply inj_le, submseteq_length.
    by apply NoDup_submseteq. }
  rewrite place_bombs_ok by (done || lia).
  set (s2 := set_all_cords _ _).
  set (cords := (λ x, (x `div` width s, x `mod` width s)) <$> bomb_coords).
  assert (Hcords : ∀ q, q ∈ cords ↔ inside s q ∧ lin s q ∈ bomb_coords).
  { intros q. unfold cords. rewrite list_elem_of_fmap. split.
    - intros (x & -> & Hx).
      destruct (div_mod_inside s x Hw (Hrange _ Hx)) as [Hin Hlin].
      by rewrite Hlin.
    - intros [Hin Hq]. exists (lin s q). by rewrite lin_div_mod. }
  destruct (set_bombs_loop cords s2) as (H1 & H2 & H3); [done| |].
  { intros q Hq. by apply Hcords in Hq as [Hq _]. }
  set (s' := foldl _ s2 cords) in *.
  exists s'. split; [done|]. split; [done|]. split; [done|].
  intros p Hp. rewrite (H3 p Hp).
  repeat case_bool_decide; try done.
  - exfalso. by apply Hcords in H as [_ H].
  - exfalso. apply H. by apply Hcords.
Qed.

(** On a field that had no mines, the mines are then exactly the cells
    named by the draw. *)
Lemma place_bombs_field bomb_coords s :
  grid_ok s = true → 0 < width s →
  sample_of (set_difference_list (seqZ 0 (height s * width s)) (def_zone s))
            (cfg_bombs (config s)) bomb_coords = true →
  (∀ p, inside s p → bomb (cell s p) = false) →
  ∃ s', place_bombs bomb_coords s = Ok s'
    ∧ config s' = config s ∧ grid_ok s' = true
    ∧ first_click s' = first_click s ∧ def_zone s' = def_zone s
    ∧ popups s' = popups s ∧ running s' = running s
    ∧ all_cords s'
      = set_difference_list (seqZ 0 (height s * width s)) bomb_coords
    ∧ (∀ p, inside s p →
            cell s' p = if bool_decide (lin s p ∈ bomb_coords)
                        then set_bomb true (cell s p) else cell s p)
    ∧ Z.of_nat (mine_total s') = cfg_bombs (config s).
Proof.
  intros Hg Hw Hsample Hnb.
  destruct (place_bombs_cells bomb_coords s Hg Hw Hsample)
    as (s' & Hok & H1 & H2 & Hcell).
  apply sample_of_spec in Hsample as (Hnd & Hlen & Hsub).
  assert (Hrange : ∀ x, x ∈ bomb_coords → 0 ≤ x < height s * width s).
  { intros x Hx. apply Hsub in Hx.
    apply elem_of_set_difference_list in Hx as [Hx _].
    apply elem_of_seqZ in Hx. lia. }
  assert (Hcfg : config s' = config s) by (by rewrite H1).
  exists s'. split; [done|].
  do 8 (split; [first [done | by rewrite H1]|]).
  rewrite mine_total_positions by done.
  rewrite <- Hlen. f_equal.
  rewrite <- (length_fmap (λ x, (x `div` width s, x `mod` width s))).
  apply Permutation_length, NoDup_Permutation.
  - apply NoDup_filter, NoDup_positions.
  - apply NoDup_fmap_2_strong; [|done].
    intros x y Hx Hy Heq.
    destruct (div_mod_inside s x Hw (Hrange _ Hx)) as [_ <-].
    destruct (div_mod_inside s y Hw (Hrange _ Hy)) as [_ <-].
    by rewrite Heq.
  - intros p. rewrite list_elem_of_filter.
    unfold positions. rewrite Hcfg. fold (positions s).
    rewrite elem_of_positions, list_elem_of_fmap. split.
    + intros [Hb Hp]. exists (lin s p). rewrite lin_div_mod by done.
      split; [done|].
      rewrite Hcell in Hb by done. case_bool_decide; [done|].
      by rewrite Hnb in Hb.
    + intros (x & -> & Hx).
      destruct (div_mod_inside s x Hw (Hrange _ Hx)) as [Hin Hlin].
      split; [|done].
      rewrite Hcell, Hlin by done. by rewrite bool_decide_eq_true_2.
Qed.

(** C1. For a fresh grid, a first click inside it and a mine count [M]
    with [0 <= M < W*H*0.8 - 9] (written [5*M < 4*W*H - 45]), the draw of
    [place_bombs] after [safe_zone] is possible, and whatever it returns,
    [place_bombs] leaves no mine on the clicked cell or on any of its
    in-grid neighbours, and exactly [M] mines on the field. *)
Theorem first_click_placement (s : World) (row col : Z) :
  fresh_game s = true → inside s (row, col) →
  0 ≤ cfg_bombs (config s) →
  5 * cfg_bombs (config s) < 4 * (width s * height s) - 45 →
  cfg_bombs (config s)
  ≤ Z.of_nat (length (set_difference_list
                        (seqZ 0 (height s * width s))
                        (def_zone (safe_zone row col s))))
  ∧ ∀ bomb_coords,
      sample_of (set_difference_list
                   (seqZ 0 (height s * width s))
                   (def_zone (safe_zone row col s)))
                (cfg_bombs (config s)) bomb_coords = true →
      ∃ s', place_bombs bomb_coords (safe_zone row col s) = Ok s'
        ∧ (∀ q, q ∈ around (row, col) → inside s q →
                bomb (cell s' q) = false)
        ∧ Z.of_nat (mine_total s') = cfg_bombs (config s).
Proof.
  intros Hfresh Hrc H0 Hm. split; [by apply population_large|].
  intros bomb_coords Hsample.
  pose proof Hfresh as Hf. unfold fresh_game in Hf.
  rewrite !andb_true_iff, bool_decide_eq_true, forallb_elem_of in Hf.
  destruct Hf as [[[Hg Hfc] Hdz] Hnb].
  set (s1 := safe_zone row col s) in *.
  assert (Hc1 : config s1 = config s) by apply safe_zone_config.
  assert (Hf1 : field s1 = field s) by apply safe_zone_field.
  assert (Hg1 : grid_ok s1 = true).
  { eapply grid_ok_same; [done| |done]. by rewrite Hc1. }
  destruct (place_bombs_field bomb_coords s1) as (s' & Hok & Hrest).
  - done.
  - rewrite Hc1. destruct Hrc. simpl in *. lia.
  - by rewrite Hc1.
  - intros p Hp. unfold cell, cell_at. rewrite Hf1.
    assert (Hp' : p ∈ positions s).
    { apply elem_of_positions. unfold inside in *. by rewrite <- Hc1. }
    apply Hnb, andb_true_iff in Hp' as [Hp' _].
    by apply negb_true_iff in Hp'.
  - destruct Hrest as (Hc' & _ & _ & _ & _ & _ & _ & Hcell & Htot).
    exists s'. split; [done|]. split; [|by rewrite Htot, Hc1].
    intros q Hq Hin.
    assert (Hin1 : inside s1 q) by (unfold inside; by rewrite Hc1).
    rewrite Hcell by done.
    assert (Hcq : cell s1 q = cell s q)
      by (unfold cell, cell_at; by rewrite Hf1).
    assert (Hbq : bomb (cell s q) = false).
    { apply elem_of_positions, Hnb, andb_true_iff in Hin as [Hin _].
      by apply negb_true_iff in Hin. }
    rewrite bool_decide_eq_false_2; [by rewrite Hcq|].
    intros Hl. apply sample_of_spec in Hsample as (_ & _ & Hsub).
    apply Hsub, elem_of_set_difference_list in Hl as [_ Hl].
    apply Hl. unfold lin. rewrite Hc1. by apply def_zone_covers.
Qed.

(** ** Outcomes *)

Lemma outcome_mono {S : Type} (P P' E E' : S → Prop) (F F' : Prop) r :
  (∀ s, P s → P' s) → (∀ s, E s → E' s) → (F → F') →
  outcome P E F r → outcome P' E' F' r.
Proof. destruct r; simpl; auto. Qed.

Lemma outcome_and {S : Type} (P P' E E' : S → Prop) (F F' : Prop) r :
  outcome P E F r → outcome P' E' F' r →
  outcome (λ s, P s ∧ P' s) (λ s, E s ∧ E' s) (F ∧ F') r.
Proof. destruct r; simpl; auto. Qed.

Lemma outcome_bind {S : Type} (Q P E : S → Prop) (F : Prop) m k :
  outcome Q E F m → (∀ s, Q s → outcome P E F (k s)) →
  outcome P E F (bind m k).
Proof. destruct m; simpl; auto. Qed.

Lemma outcome_for_each {A S : Type} (I E : S → Prop) (F : Prop)
    (l : list A) (body : A → S → result S) (s : S) :
  I s → (∀ x s, x ∈ l → I s → outcome I E F (body x s)) →
  outcome I E F (for_each l body s).
Proof.
  revert s. induction l as [|x l IH]; intros s HI Hbody; [done|].
  simpl. eapply outcome_bind.
  - apply Hbody; [left|done].
  - intros s' HI'. apply IH; [done|]. intros y s'' Hy.
    apply Hbody. by right.
Qed.

(** A loop whose invariant also records the items already visited. *)
Lemma outcome_for_each_visited {A S : Type} (I : list A → S → Prop)
    (E : S → Prop) (F : Prop) (l : list A) (body : A → S → result S)
    (s : S) :
  I [] s →
  (∀ done x s, x ∈ l → I done s →
               outcome (I (done ++ [x])) E F (body x s)) →
  outcome (I l) E F (for_each l body s).
Proof.
  intros H0 Hbody.
  assert (H : ∀ rest done s,
             done ++ rest = l → I done s →
             outcome (I l) E F (for_each rest body s)).
  { induction rest as [|x rest IH]; intros done s' Hl HI; simpl.
    - by rewrite app_nil_r in Hl; subst.
    - eapply outcome_bind.
      + apply (Hbody done); [|done]. rewrite <- Hl. set_solver.
      + intros s'' HI'. apply (IH (done ++ [x])); [|done].
        by rewrite <- app_assoc. }
  by apply (H l []).
Qed.

(** ** The grid between two states *)

Lemma inside_same s s' p :
  cfg_diff (config s') = cfg_diff (config s) → inside s' p ↔ inside s p.
Proof. unfold inside, cfg_width, cfg_height. by intros ->. Qed.

Lemma in_grid_same s s' r c :
  cfg_diff (config s') = cfg_diff (config s) →
  in_grid s' r c = in_grid s r c.
Proof. unfold in_grid, cfg_width, cfg_height. by intros ->. Qed.

Lemma positions_same s s' :
  cfg_diff (config s') = cfg_diff (config s) → positions s' = positions s.
Proof. unfold positions, cfg_width, cfg_height. by intros ->. Qed.

Lemma evolves_refl s : grid_ok s = true → evolves s s.
Proof. intros Hg. split; auto. intros p _ H1 H2. congruence. Qed.

Lemma evolves_trans s1 s2 s3 : evolves s1 s2 → evolves s2 s3 → evolves s1 s3.
Proof.
  intros H12 H23.
  assert (Hin : ∀ p, inside s1 p → inside s2 p).
  { intros p Hp. by apply (inside_same s1 s2 p (ev_diff _ _ H12)). }
  split.
  - by rewrite (ev_diff _ _ H23), (ev_diff _ _ H12).
  - apply (ev_grid _ _ H23).
  - intros p Hp. by rewrite (ev_bomb _ _ H23), (ev_bomb _ _ H12) by auto.
  - intros p Hp.
    by rewrite (ev_flagged _ _ H23), (ev_flagged _ _ H12) by auto.
  - intros p Hp. by rewrite (ev_count _ _ H23), (ev_count _ _ H12) by auto.
  - intros p Hp Hr. apply (ev_mono _ _ H23); auto.
    apply (ev_mono _ _ H12); auto.
  - intros p Hp Hr3 Hr1.
    destruct (revealed (cell s2 p)) eqn:Hr2.
    + by apply (ev_new _ _ H12).
    + rewrite <- (ev_bomb _ _ H12), <- (ev_flagged _ _ H12) by done.
      apply (ev_new _ _ H23); auto.
Qed.

(** States that differ in neither the settings of the current difficulty
    nor the field. *)
Lemma evolves_same s s' :
  grid_ok s = true → cfg_diff (config s') = cfg_diff (config s) →
  field s' = field s → evolves s s'.
Proof.
  intros Hg Hc Hf.
  assert (Hcell : ∀ p, cell s' p = cell s p)
    by (intros p; unfold cell, cell_at; by rewrite Hf).
  split; try (intros p _; by rewrite Hcell).
  - done.
  - by eapply grid_ok_same.
  - intros p _. rewrite Hcell. congruence.
Qed.

Lemma length_filter_le_impl {A : Type} (P Q : A → Prop)
    `{∀ x, Decision (P x)} `{∀ x, Decision (Q x)} (l : list A) :
  (∀ x, x ∈ l → P x → Q x) →
  (length (filter P l) ≤ length (filter Q l))%nat.
Proof.
  induction l as [|x l IH]; intros Hl; [done|].
  rewrite !filter_cons.
  assert (Hx : P x → Q x) by (apply Hl; left).
  assert (Hr : (length (filter P l) ≤ length (filter Q l))%nat).
  { apply IH. intros y Hy. apply Hl. by right. }
  destruct (decide (P x)), (decide (Q x)); simpl; tauto || lia.
Qed.

Lemma length_filter_lt_impl {A : Type} (P Q : A → Prop)
    `{∀ x, Decision (P x)} `{∀ x, Decision (Q x)} (l : list A) (x0 : A) :
  (∀ x, x ∈ l → P x → Q x) → x0 ∈ l → Q x0 → ¬ P x0 →
  (length (filter P l) < length (filter Q l))%nat.
Proof.
  induction l as [|x l IH]; intros Hl Hx0 HQ HP.
  - by apply elem_of_nil in Hx0.
  - rewrite !filter_cons.
    assert (Hx : P x → Q x) by (apply Hl; left).
    assert (Hr : (length (filter P l) ≤ length (filter Q l))%nat).
    { apply length_filter_le_impl. intros y Hy. apply Hl. by right. }
    apply elem_of_cons in Hx0 as [<-|Hx0].
    + destruct (decide (P x0)), (decide (Q x0)); try tauto. simpl. lia.
    + assert (length (filter P l) < length (filter Q l))%nat.
      { apply IH; try done. intros y Hy. apply Hl. by right. }
      destruct (decide (P x)), (decide (Q x)); simpl; tauto || lia.
Qed.

Lemma hidden_count_mono s s' :
  evolves s s' → (hidden_count s' ≤ hidden_count s)%nat.
Proof.
  intros Hev. unfold hidden_count.
  rewrite (positions_same s s') by apply Hev.
  apply length_filter_le_impl. intros p Hp%elem_of_positions.
  rewrite !negb_True. intros Hn Hr. apply Hn.
  apply Is_true_true. apply (ev_mono _ _ Hev); [done|].
  by apply Is_true_true.
Qed.

Lemma hidden_count_lt s s' p :
  evolves s s' → inside s p →
  revealed (cell s p) = false → revealed (cell s' p) = true →
  (hidden_count s' < hidden_count s)%nat.
Proof.
  intros Hev Hp Hh Hr. unfold hidden_count.
  rewrite (positions_same s s') by apply Hev.
  apply (length_filter_lt_impl _ _ _ p).
  - intros q Hq%elem_of_positions.
    rewrite !negb_True. intros Hn Hr'. apply Hn.
    apply Is_true_true. apply (ev_mono _ _ Hev); [done|].
    by apply Is_true_true.
  - by apply elem_of_positions.
  - by rewrite Hh.
  - rewrite Hr. by intros ?.
Qed.

Lemma hidden_count_pos s p :
  inside s p → revealed (cell s p) = false → (0 < hidden_count s)%nat.
Proof.
  intros Hp Hh. unfold hidden_count.
  assert (Hin : p ∈ filter (λ p, negb (revealed (cell s p))) (positions s)).
  { apply list_elem_of_filter. rewrite Hh. split; [done|].
    by apply elem_of_positions. }
  destruct (filter _ _); [by apply elem_of_nil in Hin | simpl; lia].
Qed.

(** ** The steps of [reveal] *)

Lemma check_best_cases s :
  check_best s = Ok s ∨ (∃ e, check_best s = Raise e s)
  ∨ (let c' := set_best_time
                 (<[current_diff (config s) := time_elapsed s]>
                    (best_time (config s))) (config s) in
     check_best s = Ok (set_config_json c' (set_config c' s))).
Proof.
  unfold check_best. case_bool_decide; [|by left].
  destruct (best_time (config s) !! current_diff (config s)) as [best|];
    [|right; left; eauto].
  destruct (time_elapsed s <? best); [|by left]. right. right. done.
Qed.

Lemma check_best_frame s :
  outcome (λ s', field s' = field s ∧ all_cords s' = all_cords s
                 ∧ cfg_diff (config s') = cfg_diff (config s)
                 ∧ popups s' = popups s ∧ running s' = running s
                 ∧ first_click s' = first_click s
                 ∧ time_elapsed s' = time_elapsed s)
          (λ s', s' = s) False (check_best s).
Proof.
  destruct (check_best_cases s) as [-> | [[e ->] | ->]]; simpl; done.
Qed.

Lemma mark_revealed_cases r c s :
  ∃ s1, field s1 = update2 (set_revealed true) r c (field s)
    ∧ session s1 = session s
    ∧ ((list_remove (r * width s + c) (all_cords s) = None
        ∧ all_cords s1 = all_cords s
        ∧ ∃ e, mark_revealed r c s = Raise e s1)
       ∨ (∃ l, list_remove (r * width s + c) (all_cords s) = Some l
          ∧ all_cords s1 = l
          ∧ mark_revealed r c s
            = match l with
              | [] => bind (check_best (EndGamePopup true s1))
                           (λ s, Ok (stop_timer s))
              | _ :: _ => Ok s1
              end)).
Proof.
  unfold mark_revealed. cbv zeta.
  set (sa := set_field (update2 (set_revealed true) r c (field s)) s).
  change (width sa) with (width s).
  change (all_cords sa) with (all_cords s).
  destruct (list_remove (r * width s + c) (all_cords s)) as [l|].
  - set (sb := set_buttons _ (set_all_cords l sa)).
    set (sc := if 1 <=? neighbor_bombs (cell_at sb r c) then _ else sb).
    assert (Hsc : field sc = field sa ∧ session sc = session s
                  ∧ all_cords sc = l).
    { subst sc. by destruct (1 <=? neighbor_bombs (cell_at sb r c)). }
    destruct Hsc as (Hf & Hs & Ha).
    exists sc. split; [done|]. split; [done|]. right. exists l.
    split; [done|]. split; [done|]. by rewrite Ha.
  - exists sa. split; [done|]. split; [done|]. left. eauto.
Qed.

(** Marking a hidden cell without mine or flag is a step of [evolves]. *)
Lemma evolves_mark s s' r c :
  grid_ok s = true → inside s (r, c) →
  revealed (cell s (r, c)) = false → bomb (cell s (r, c)) = false →
  flagged (cell s (r, c)) = false →
  field s' = update2 (set_revealed true) r c (field s) →
  cfg_diff (config s') = cfg_diff (config s) →
  evolves s s' ∧ revealed (cell s' (r, c)) = true.
Proof.
  intros Hg Hrc Hh Hb Hf Hfield Hcfg.
  assert (Hcell : ∀ p, inside s p →
            cell s' p = if bool_decide ((r, c) = p)
                        then set_revealed true (cell s p) else cell s p).
  { intros p Hp. by apply cell_update2. }
  split.
  - split; try (intros p Hp; rewrite (Hcell p Hp); by case_bool_decide).
    + done.
    + by eapply grid_ok_update2.
    + intros p Hp. rewrite (Hcell p Hp). case_bool_decide; [|congruence].
      subst p. intros _ _. done.
  - rewrite Hcell by done. by rewrite bool_decide_eq_true_2.
Qed.

Lemma mark_revealed_evolves r c s :
  grid_ok s = true → inside s (r, c) →
  revealed (cell s (r, c)) = false → bomb (cell s (r, c)) = false →
  flagged (cell s (r, c)) = false →
  outcome (λ s', evolves s s' ∧ revealed (cell s' (r, c)) = true
                 ∧ S (length (all_cords s')) = length (all_cords s))
          (λ s', evolves s s' ∧ revealed (cell s' (r, c)) = true) False
          (mark_revealed r c s).
Proof.
  intros Hg Hrc Hh Hb Hf.
  destruct (mark_revealed_cases r c s) as (s1 & Hf1 & Hs1 & Hcase).
  assert (Hc1 : config s1 = config s) by (by injection Hs1).
  assert (Hev1 : evolves s s1 ∧ revealed (cell s1 (r, c)) = true).
  { apply evolves_mark; try done. by rewrite Hc1. }
  destruct Hcase as [(_ & _ & e & ->) | (l & Hrm & Hl & ->)]; [done|].
  assert (Hlen : S (length l) = length (all_cords s)).
  { clear -Hrm. revert l Hrm.
    induction (all_cords s) as [|y k IH]; intros l; simpl; [done|].
    case_bool_decide; [by intros [= ->]|].
    destruct (list_remove _ k) as [k'|]; simpl; [|done].
    intros [= <-]. simpl. f_equal. by apply IH. }
  destruct Hev1 as [Hev1 Hr1].
  destruct l as [|x l]; [|simpl; by rewrite Hl].
  assert (Hsame : ∀ s2, field s2 = field s1 →
            cfg_diff (config s2) = cfg_diff (config s1) →
            evolves s s2 ∧ revealed (cell s2 (r, c)) = true).
  { intros s2 Hf2 Hc2. split.
    - eapply evolves_trans; [done|].
      apply evolves_same; [apply Hev1|done..].
    - unfold cell, cell_at. by rewrite Hf2. }
  destruct (check_best_cases (EndGamePopup true s1)) as [-> | [[e ->] | ->]];
    simpl; (split_and?; [apply Hsame; done..|]); try apply Hsame; try done;
    by rewrite Hl.
Qed.

Lemma outcome_loops {S : Type} (I E : S → Prop) (F : Prop)
    (body : Z → Z → S → result S) (s : S) :
  I s → (∀ a b u, I u → outcome I E F (body a b u)) →
  outcome I E F (for_each offsets (λ a, for_each offsets (body a)) s).
Proof.
  intros HI Hbody. apply outcome_for_each; [done|].
  intros a u _ Hu. apply outcome_for_each; [done|].
  intros b u' _ Hu'. by apply Hbody.
Qed.

Lemma reveal_S fuel row col s :
  reveal (S fuel) row col s
  = if negb (bomb (cell s (row, col))) && negb (revealed (cell s (row, col)))
    then
      if negb (flagged (cell s (row, col))) then
        bind (mark_revealed row col s) (λ s,
          if neighbor_bombs (cell s (row, col)) =? 0
          then spread_with (reveal fuel) row col s
          else Ok s)
      else Ok s
    else if revealed (cell s (row, col)) then
      try_chord_with (reveal fuel) row col s
    else if bomb (cell s (row, col)) && negb (flagged (cell s (row, col)))
    then Ok (explode row col s)
    else Ok s.
Proof. reflexivity. Qed.

(** The recursive loop keeps an invariant that each call it makes on a
    hidden cell of the grid keeps. *)
Lemma spread_with_outcome (I E : World → Prop) (F : Prop) reveal_ row col s :
  I s →
  (∀ r c u, I u → in_grid u r c = true → revealed (cell u (r, c)) = false →
            adjacent (row, col) (r, c) →
            outcome I E F (reveal_ r c u)) →
  outcome I E F (spread_with reveal_ row col s).
Proof.
  intros HI Hcall. unfold spread_with.
  apply outcome_for_each; [done|]. intros dc u Hdc Hu.
  apply outcome_for_each; [done|]. intros dr u' Hdr Hu'.
  change (cell_at u' (row + dr) (col + dc))
    with (cell u' (row + dr, col + dc)).
  destruct (in_grid u' (row + dr) (col + dc)) eqn:Hin; [|done].
  destruct (revealed (cell u' (row + dr, col + dc))) eqn:Hr; [done|].
  simpl. apply Hcall; try done.
  unfold offsets in *. rewrite !elem_of_cons, elem_of_nil in Hdc, Hdr.
  unfold adjacent. simpl. lia.
Qed.

(** The same for the loop of [try_chord], which calls [reveal] on the
    neighbours that are neither revealed nor flagged. *)
Lemma try_chord_with_outcome (I E : World → Prop) (F : Prop) reveal_
    row col s :
  I s →
  (∀ r c u, I u → in_grid u r c = true → revealed (cell u (r, c)) = false →
            flagged (cell u (r, c)) = false →
            adjacent (row, col) (r, c) →
            outcome I E F (reveal_ r c u)) →
  outcome I E F (try_chord_with reveal_ row col s).
Proof.
  intros HI Hcall. unfold try_chord_with.
  destruct (negb _); [done|]. destruct (_ =? _); [|done].
  apply outcome_for_each; [done|]. intros dr u Hdr Hu.
  apply outcome_for_each; [done|]. intros dc u' Hdc Hu'.
  change (cell_at u' (row + dr) (col + dc))
    with (cell u' (row + dr, col + dc)).
  destruct ((0 <=? row + dr) && (row + dr <? height u')
            && (0 <=? col + dc) && (col + dc <? width u')) eqn:Hin; [|done].
  destruct (revealed (cell u' (row + dr, col + dc))) eqn:Hr; [done|].
  destruct (flagged (cell u' (row + dr, col + dc))) eqn:Hf; [done|].
  simpl. apply Hcall; try done.
  - unfold in_grid. rewrite !andb_true_iff in *. tauto.
  - unfold offsets in *. rewrite !elem_of_cons, elem_of_nil in Hdc, Hdr.
    unfold adjacent. simpl. lia.
Qed.

Lemma evolves_explode s row col :
  grid_ok s = true → evolves s (explode row col s).
Proof. intros Hg. by apply evolves_same. Qed.

(** Whatever [reveal] does, and however it ends, the grid has only
    evolved. *)
Lemma reveal_evolves fuel :
  ∀ row col s, grid_ok s = true → inside s (row, col) →
  outcome (evolves s) (evolves s) True (reveal fuel row col s).
Proof.
  induction fuel as [|fuel IH]; intros row col s Hg Hrc; [done|].
  assert (Hcall : ∀ r c u, evolves s u → in_grid u r c = true →
            outcome (evolves s) (evolves s) True (reveal fuel r c u)).
  { intros r c u Hu Hin. eapply outcome_mono; [| | |apply IH]; try done.
    - intros u'. by apply evolves_trans.
    - intros u'. by apply evolves_trans.
    - apply Hu.
    - by apply in_grid_inside. }
  rewrite reveal_S.
  destruct (bomb (cell s (row, col))) eqn:Hb,
           (revealed (cell s (row, col))) eqn:Hr,
           (flagged (cell s (row, col))) eqn:Hf; simpl;
    try (by apply evolves_refl); try (by apply evolves_explode);
    try (apply try_chord_with_outcome; [by apply evolves_refl|]; by auto).
  eapply outcome_bind.
  - eapply outcome_mono; [| | |by apply mark_revealed_evolves];
      simpl; [intros s1 H; exact (proj1 H)|intros s1 H; exact (proj1 H)|done].
  - intros s1 Hs1. simpl. destruct (_ =? 0); [|done].
    apply spread_with_outcome; [done|]. auto.
Qed.

(** ** Termination of the flood fill *)

Lemma length_filter_remove_one {A : Type} (P Q : A → Prop)
    `{∀ x, Decision (P x)} `{∀ x, Decision (Q x)} (l : list A) (x0 : A) :
  NoDup l → x0 ∈ l → Q x0 → ¬ P x0 →
  (∀ x, x ∈ l → x ≠ x0 → P x ↔ Q x) →
  length (filter Q l) = S (length (filter P l)).
Proof.
  induction l as [|x l IH]; intros Hnd Hx0 HQ HP Hl.
  - by apply elem_of_nil in Hx0.
  - apply NoDup_cons in Hnd as [Hx Hnd]. rewrite !filter_cons.
    apply elem_of_cons in Hx0 as [<-|Hx0].
    + destruct (decide (Q x0)), (decide (P x0)); try tauto.
      simpl. f_equal.
      apply length_filter_ext. intros y Hy. symmetry. apply Hl; [by right|].
      by intros ->.
    + assert (Hne : x ≠ x0) by (by intros ->).
      assert (Hx' : P x ↔ Q x) by (apply Hl; [left|done]).
      assert (length (filter Q l) = S (length (filter P l))).
      { apply IH; try done. intros y Hy. apply Hl. by right. }
      destruct (decide (P x)), (decide (Q x)); simpl; tauto || lia.
Qed.

Lemma hidden_count_same s s' :
  cfg_diff (config s') = cfg_diff (config s) → field s' = field s →
  hidden_count s' = hidden_count s.
Proof.
  intros Hc Hf. unfold hidden_count. rewrite (positions_same s s') by done.
  unfold cell, cell_at. by rewrite Hf.
Qed.

(** Marking one hidden cell takes exactly one off the hidden cells. *)
Lemma hidden_count_mark s s' r c :
  grid_ok s = true → inside s (r, c) → revealed (cell s (r, c)) = false →
  field s' = update2 (set_revealed true) r c (field s) →
  cfg_diff (config s') = cfg_diff (config s) →
  hidden_count s = S (hidden_count s').
Proof.
  intros Hg Hrc Hh Hfield Hcfg. unfold hidden_count.
  rewrite (positions_same s s') by done.
  assert (Hcell : ∀ p, inside s p →
            cell s' p = if bool_decide ((r, c) = p)
                        then set_revealed true (cell s p) else cell s p).
  { intros p Hp. by apply cell_update2. }
  apply (length_filter_remove_one _ _ _ (r, c)).
  - apply NoDup_positions.
  - by apply elem_of_positions.
  - by rewrite Hh.
  - rewrite Hcell by done. rewrite bool_decide_eq_true_2 by done.
    simpl. by intros ?.
  - intros p Hp%elem_of_positions Hne. rewrite Hcell by done.
    by rewrite bool_decide_eq_false_2.
Qed.

Lemma mark_revealed_count r c s :
  grid_ok s = true → inside s (r, c) →
  revealed (cell s (r, c)) = false →
  outcome (λ s', hidden_count s = S (hidden_count s'))
          (λ s', hidden_count s = S (hidden_count s')) False
          (mark_revealed r c s).
Proof.
  intros Hg Hrc Hh.
  destruct (mark_revealed_cases r c s) as (s1 & Hf1 & Hs1 & Hcase).
  assert (Hc1 : config s1 = config s) by (by injection Hs1).
  assert (H1 : hidden_count s = S (hidden_count s1)).
  { eapply hidden_count_mark; try done. by rewrite Hc1. }
  destruct Hcase as [(_ & _ & e & ->) | (l & Hrm & Hl & ->)]; [done|].
  destruct l as [|x l]; [|done].
  destruct (check_best_cases (EndGamePopup true s1)) as [-> | [[e ->] | ->]];
    simpl; rewrite H1; f_equal; symmetry; by apply hidden_count_same.
Qed.

Lemma reveal_hidden_terminates fuel :
  ∀ row col s,
    grid_ok s = true → inside s (row, col) →
    revealed (cell s (row, col)) = false →
    (hidden_count s ≤ fuel)%nat →
    outcome (λ s', evolves s s' ∧ marks_balance s s') (evolves s) False
            (reveal fuel row col s).
Proof.
  induction fuel as [|fuel IH]; intros row col s Hg Hrc Hh Hfuel.
  { pose proof (hidden_count_pos s _ Hrc Hh). lia. }
  rewrite reveal_S, Hh.
  destruct (bomb (cell s (row, col))) eqn:Hb,
           (flagged (cell s (row, col))) eqn:Hf; simpl;
    try (split; [by apply evolves_refl | done]).
  { split; [by apply evolves_explode|]. unfold marks_balance. simpl.
    by rewrite (hidden_count_same s (explode row col s)). }
  eapply outcome_bind.
  { eapply outcome_mono;
      [| | |exact (outcome_and _ _ _ _ _ _ _
                     (mark_revealed_evolves row col s Hg Hrc Hh Hb Hf)
                     (mark_revealed_count row col s Hg Hrc Hh))];
      simpl; [intros s1 H; exact H|tauto|tauto]. }
  intros s1 [(Hev1 & Hr1 & Hlen1) Hhc1]. simpl.
  assert (Hend : ∀ u, evolves s1 u ∧ marks_balance s1 u →
            evolves s u ∧ marks_balance s u).
  { intros u [Hu Hbal]. split; [by eapply evolves_trans|].
    unfold marks_balance in *. lia. }
  apply (outcome_mono (λ u, evolves s1 u ∧ marks_balance s1 u) _
                      (evolves s1) _ False _ _ Hend);
    [intros u Hu; by eapply evolves_trans|done|].
  destruct (_ =? 0).
  2:{ simpl. split; [apply evolves_refl, Hev1 | done]. }
  apply spread_with_outcome.
  { split; [apply evolves_refl, Hev1 | done]. }
  intros r c u [Hu Hbal] Hin Hhid _.
  assert (Hle : (hidden_count u ≤ fuel)%nat).
  { pose proof (hidden_count_mono _ _ Hu). lia. }
  eapply outcome_mono; [| | |apply (IH r c u)]; try done.
  - intros u' [Hu' Hbal']. split; [by eapply evolves_trans|].
    unfold marks_balance in *. lia.
  - intros u' Hu'. by eapply evolves_trans.
  - apply Hu.
  - by apply in_grid_inside.
Qed.

(** C8. On every rectangular grid and from every cell of it, [reveal]
    terminates: with fuel above the number of hidden cells it never runs
    out.  Recursive calls are made on hidden cells only and each marking
    takes one off the number of hidden cells, so a run that returns has
    removed from [all_cords] exactly as many entries as cells have become
    revealed: no cell is marked twice. *)
Theorem reveal_terminates (s : World) (row col : Z) (fuel : nat) :
  grid_ok s = true → inside s (row, col) →
  (hidden_count s + 1 ≤ fuel)%nat →
  reveal fuel row col s ≠ OutOfFuel
  ∧ ∀ s', reveal fuel row col s = Ok s' →
          (hidden_count s' ≤ hidden_count s)%nat ∧ marks_balance s s'.
Proof.
  intros Hg Hrc Hfuel.
  assert (H : outcome (λ s', evolves s s' ∧ marks_balance s s') (evolves s)
                      False (reveal fuel row col s)).
  { destruct (revealed (cell s (row, col))) eqn:Hr.
    - destruct fuel as [|fuel]; [lia|].
      rewrite reveal_S, Hr, andb_false_r.
      apply try_chord_with_outcome.
      { split; [by apply evolves_refl | done]. }
      intros r c u [Hu Hbal] Hin Hhid _ _.
      assert (Hle : (hidden_count u ≤ fuel)%nat).
      { pose proof (hidden_count_mono _ _ Hu). lia. }
      eapply outcome_mono;
        [| | |apply (reveal_hidden_terminates fuel r c u)]; try done.
      + intros u' [Hu' Hbal']. split; [by eapply evolves_trans|].
        unfold marks_balance in *. lia.
      + intros u' Hu'. by eapply evolves_trans.
      + apply Hu.
      + by apply in_grid_inside.
    - apply reveal_hidden_terminates; try done. lia. }
  destruct (reveal fuel row col s) as [s'| |]; simpl in H; [|done..].
  split; [done|]. intros ? [= <-]. destruct H as [Hev Hbal].
  split; [by apply hidden_count_mono | done].
Qed.

(** ** The first click *)

(** The state in which the automatic reveals of the first click start:
    mines placed, counts computed, timer started. *)
Lemma first_click_setup fuel bomb_coords row col s :
  first_click s = true → grid_ok s = true → inside s (row, col) →
  sample_of (set_difference_list (seqZ 0 (height s * width s))
                                 (def_zone (safe_zone row col s)))
            (cfg_bombs (config s)) bomb_coords = true →
  ∃ s4,
    on_click fuel bomb_coords row col s
    = for_each offsets (λ dc,
        for_each offsets (λ dr s,
          if in_grid s (row + dr) (col + dc)
          then reveal fuel (row + dr) (col + dc) s
          else Ok s)) s4
    ∧ config s4 = config s ∧ config_json s4 = config_json s
    ∧ grid_ok s4 = true ∧ first_click s4 = false
    ∧ popups s4 = popups s
    ∧ all_cords s4
      = set_difference_list (seqZ 0 (height s * width s)) bomb_coords
    ∧ (∀ p, inside s p →
         revealed (cell s4 p) = revealed (cell s p)
         ∧ flagged (cell s4 p) = flagged (cell s p)
         ∧ bomb (cell s4 p)
           = bomb (cell s p) || bool_decide (lin s p ∈ bomb_coords)
         ∧ (bomb (cell s4 p) = false →
            neighbor_bombs (cell s4 p) = mines_around s4 p)).
Proof.
  intros Hfc Hg Hrc Hsample. unfold on_click. rewrite Hfc.
  set (s2 := set_first_click false (safe_zone row col s)).
  assert (Hc2 : config s2 = config s) by apply safe_zone_config.
  assert (Hf2 : field s2 = field s) by apply safe_zone_field.
  assert (Hg2 : grid_ok s2 = true).
  { eapply grid_ok_same; [exact Hg| |done]. by rewrite Hc2. }
  destruct (place_bombs_cells bomb_coords s2) as (s3 & -> & H3 & Hg3 & Hcell3).
  - done.
  - rewrite Hc2. destruct Hrc. simpl in *. lia.
  - by rewrite Hc2.
  - cbn [bind].
    pose proof (calculate_neighbor_bombs_inv s3 Hg3) as HI.
    pose proof (calc_inv_config _ _ _ HI) as Hcfg.
    destruct HI as (H1 & Hg4 & Hsame & Hcount).
    set (s3c := calculate_neighbor_bombs s3) in *.
    assert (Hc3 : config s3 = config s) by (by rewrite H3).
    assert (Hin3 : ∀ p, inside s p → inside s3 p)
      by (intros p; unfold inside; by rewrite Hc3).
    assert (Hin2 : ∀ p, inside s p → inside s2 p)
      by (intros p; unfold inside; by rewrite Hc2).
    assert (Hcell2 : ∀ p, cell s2 p = cell s p)
      by (intros p; unfold cell, cell_at; by rewrite Hf2).
    exists (start_timer s3c).
    assert (Hst : ∀ p, cell (start_timer s3c) p = cell s3c p).
    { intros p. unfold start_timer. by destruct (running s3c). }
    assert (Hstc : config (start_timer s3c) = config s3c).
    { unfold start_timer. by destruct (running s3c). }
    assert (Hproj : config_json s3c = config_json s
                    ∧ first_click s3c = false ∧ popups s3c = popups s
                    ∧ all_cords s3c
                      = set_difference_list (seqZ 0 (height s * width s))
                                            bomb_coords).
    { assert (Hj2 : config_json s2 = config_json s ∧ popups s2 = popups s)
        by (unfold s2; by rewrite safe_zone_eq).
      destruct Hj2 as [Hj2 Hpp2].
      assert (Hj3 : config_json s3 = config_json s2
                    ∧ first_click s3 = false ∧ popups s3 = popups s2
                    ∧ all_cords s3
                      = set_difference_list
                          (seqZ 0 (height s2 * width s2)) bomb_coords)
        by (rewrite H3; repeat split; reflexivity).
      destruct Hj3 as (Hj3 & Hfc3 & Hpp3 & Hac3).
      assert (Hj4 : config_json s3c = config_json s3
                    ∧ first_click s3c = first_click s3
                    ∧ popups s3c = popups s3
                    ∧ all_cords s3c = all_cords s3)
        by (rewrite H1; repeat split; reflexivity).
      destruct Hj4 as (Hj4 & Hfc4 & Hpp4 & Hac4).
      rewrite Hj4, Hfc4, Hpp4, Hac4, Hj3, Hfc3, Hpp3, Hac3, Hj2, Hpp2, Hc2.
      done. }
    destruct Hproj as (Hp1 & Hp2 & Hp3 & Hp4).
    split; [done|].
    split; [by rewrite Hstc, Hcfg|].
    split; [unfold start_timer; by destruct (running s3c)|].
    split.
    { eapply grid_ok_same; [exact Hg4|by rewrite Hstc|].
      unfold start_timer. by destruct (running s3c). }
    split; [unfold start_timer; by destruct (running s3c)|].
    split; [unfold start_timer; by destruct (running s3c)|].
    split; [unfold start_timer; by destruct (running s3c)|].
    intros p Hp. rewrite !Hst.
    pose proof (Hsame p (Hin3 p Hp)) as Hs.
    assert (Hb : bomb (cell s3c p) = bomb (cell s3 p))
      by (by apply (f_equal bomb) in Hs).
    assert (Hr : revealed (cell s3c p) = revealed (cell s3 p))
      by (by apply (f_equal revealed) in Hs).
    assert (Hf : flagged (cell s3c p) = flagged (cell s3 p))
      by (by apply (f_equal flagged) in Hs).
    rewrite Hb, Hr, Hf, (Hcell3 p (Hin2 p Hp)), Hcell2.
    unfold lin. rewrite Hc2. fold (lin s p).
    split; [by case_bool_decide|]. split; [by case_bool_decide|].
    split; [case_bool_decide; simpl; by rewrite ?orb_true_r, ?orb_false_r|].
    intros Hnb.
    assert (Hb3 : bomb (cell s3 p) = false).
    { rewrite (Hcell3 p (Hin2 p Hp)), Hcell2. unfold lin. rewrite Hc2.
      exact Hnb. }
    rewrite (mines_around_ext s3c (start_timer s3c) p Hstc)
      by (intros q _; by rewrite Hst).
    rewrite (mines_around_ext s3 s3c p Hcfg).
    2:{ intros q Hq. specialize (Hsame q Hq).
        by apply (f_equal bomb) in Hsame. }
    rewrite <- count_neighbor_bombs_mines_around by done.
    apply Hcount; [by apply Hin3|done|done].
Qed.

(** ** No cell is revealed and flagged *)

Lemma no_revealed_flag_spec s :
  no_revealed_flag s = true ↔
  ∀ p, inside s p → revealed (cell s p) = true → flagged (cell s p) = false.
Proof.
  unfold no_revealed_flag. rewrite forallb_elem_of.
  setoid_rewrite elem_of_positions.
  split; intros H p Hp; specialize (H p Hp);
    destruct (revealed (cell s p)), (flagged (cell s p)); naive_solver.
Qed.

Lemma no_revealed_flag_evolves s s' :
  evolves s s' → no_revealed_flag s = true → no_revealed_flag s' = true.
Proof.
  rewrite !no_revealed_flag_spec. intros Hev H p Hp Hr.
  apply (inside_same s s' p (ev_diff _ _ Hev)) in Hp.
  rewrite (ev_flagged _ _ Hev) by done.
  destruct (revealed (cell s p)) eqn:Hr0; [by apply H|].
  by apply (ev_new _ _ Hev).
Qed.

Lemma set_flag_field row col s :
  config (set_flag row col s) = config s
  ∧ field (set_flag row col s)
    = if revealed (cell s (row, col)) then field s
      else update2 (λ c, set_flagged (negb (flagged c)) c) row col (field s).
Proof.
  unfold set_flag. change (cell_at s row col) with (cell s (row, col)).
  destruct (revealed (cell s (row, col))); simpl; [done|].
  by destruct (flagged _).
Qed.

Lemma set_flag_cell row col s p :
  grid_ok s = true → inside s (row, col) → inside s p →
  cell (set_flag row col s) p
  = if bool_decide ((row, col) = p) && negb (revealed (cell s p))
    then set_flagged (negb (flagged (cell s p))) (cell s p)
    else cell s p.
Proof.
  intros Hg Hrc Hp. destruct (set_flag_field row col s) as [Hc Hf].
  destruct (revealed (cell s (row, col))) eqn:Hr.
  - unfold cell at 1, cell_at. rewrite Hf.
    case_bool_decide; [subst p; by rewrite Hr|done].
  - rewrite (cell_update2 s _ _ row col p Hg Hrc Hp Hf).
    case_bool_decide; [subst p; by rewrite Hr|done].
Qed.

Lemma grid_ok_set_flag row col s :
  grid_ok s = true → grid_ok (set_flag row col s) = true.
Proof.
  intros Hg. destruct (set_flag_field row col s) as [Hc Hf].
  destruct (revealed (cell s (row, col))).
  - eapply grid_ok_same; [done|by rewrite Hc|done].
  - eapply grid_ok_update2; [done|by rewrite Hc|done].
Qed.

Lemma try_chord_evolves fuel row col s :
  grid_ok s = true →
  outcome (evolves s) (evolves s) True (try_chord fuel row col s).
Proof.
  intros Hg. apply try_chord_with_outcome; [by apply evolves_refl|].
  intros r c u Hu Hin _ _ _.
  eapply outcome_mono; [| | |apply reveal_evolves]; try done.
  - intros u'. by apply evolves_trans.
  - intros u'. by apply evolves_trans.
  - apply Hu.
  - by apply in_grid_inside.
Qed.

(** C10. No cell is at once revealed and flagged: in a rectangular grid
    where that holds, it still holds after [reveal], after [try_chord],
    after [set_flag], and after [on_click] (which on the first click
    places the mines and reveals the safe zone), however the call
    ends. *)
Theorem revealed_not_flagged_preserved (s : World) (row col : Z) :
  grid_ok s = true → inside s (row, col) → no_revealed_flag s = true →
  (∀ fuel, outcome (λ s', no_revealed_flag s' = true)
                   (λ s', no_revealed_flag s' = true) True
                   (reveal fuel row col s))
  ∧ (∀ fuel, outcome (λ s', no_revealed_flag s' = true)
                     (λ s', no_revealed_flag s' = true) True
                     (try_chord fuel row col s))
  ∧ no_revealed_flag (set_flag row col s) = true
  ∧ (∀ fuel bomb_coords,
       (first_click s = true →
        sample_of (set_difference_list (seqZ 0 (height s * width s))
                                       (def_zone (safe_zone row col s)))
                  (cfg_bombs (config s)) bomb_coords = true) →
       outcome (λ s', no_revealed_flag s' = true)
               (λ s', no_revealed_flag s' = true) True
               (on_click fuel bomb_coords row col s)).
Proof.
  intros Hg Hrc Hinv.
  assert (Hkeep : ∀ s', evolves s s' → no_revealed_flag s' = true)
    by (intros s' Hev; by eapply no_revealed_flag_evolves).
  split; [|split; [|split]].
  - intros fuel. eapply outcome_mono; [| | |by apply reveal_evolves]; done.
  - intros fuel. eapply outcome_mono; [| | |by apply try_chord_evolves]; done.
  - apply no_revealed_flag_spec. intros p Hp.
    assert (Hp' : inside s p).
    { revert Hp. apply inside_same.
      by rewrite (proj1 (set_flag_field row col s)). }
    rewrite set_flag_cell by done.
    destruct (bool_decide _ && negb _) eqn:E; simpl.
    + apply andb_true_iff in E as [_ E]. apply negb_true_iff in E. congruence.
    + by apply no_revealed_flag_spec.
  - intros fuel bomb_coords Hsample.
    destruct (first_click s) eqn:Hfc.
    2:{ unfold on_click. rewrite Hfc.
        eapply outcome_mono; [| | |by apply reveal_evolves]; done. }
    destruct (first_click_setup fuel bomb_coords row col s Hfc Hg Hrc
                (Hsample eq_refl))
      as (s4 & -> & Hc4 & _ & Hg4 & _ & _ & _ & Hcell4).
    assert (Hinv4 : no_revealed_flag s4 = true).
    { apply no_revealed_flag_spec. intros p Hp.
      assert (Hp' : inside s p) by (revert Hp; apply inside_same; by rewrite Hc4).
      destruct (Hcell4 p Hp') as (-> & -> & _).
      by apply no_revealed_flag_spec. }
    apply (outcome_mono (evolves s4) _ (evolves s4) _ True);
      [intros u Hu; by eapply no_revealed_flag_evolves..|done|].
    apply outcome_loops; [by apply evolves_refl|].
    intros dc dr u Hu.
    destruct (in_grid u (row + dr) (col + dc)) eqn:Hin; [|done].
    eapply outcome_mono; [| | |apply reveal_evolves]; try done.
    + intros u'. by apply evolves_trans.
    + intros u'. by apply evolves_trans.
    + apply Hu.
    + by apply in_grid_inside.
Qed.

(** ** Flags *)

Lemma set_flag_eq row col s :
  grid_ok s = true → inside s (row, col) →
  revealed (cell s (row, col)) = false →
  set_flag row col s
  = let f := flagged (cell s (row, col)) in
    let m := if f then mines s + 1 else mines s - 1 in
    set_mines_label (mines_text m)
      (set_mines m
         (set_buttons
            (update2 (set_fg_color (if f then button_color else flag_color))
                     row col (buttons s))
            (set_field
               (update2 (λ c, set_flagged (negb (flagged c)) c) row col
                        (field s)) s))).
Proof.
  intros Hg Hrc Hr. unfold set_flag.
  change (cell_at s row col) with (cell s (row, col)). rewrite Hr.
  cbn [negb].
  set (s1 := set_field _ s).
  change (cell_at s1 row col) with (cell s1 (row, col)).
  rewrite (cell_update2 s s1 _ row col (row, col) Hg Hrc Hrc eq_refl).
  rewrite bool_decide_eq_true_2 by done. simpl.
  by destruct (flagged (cell s (row, col))).
Qed.

(** C9 (as amended). Flagging a hidden, unflagged cell and unflagging it
    again restores the field and the remaining-mines counter, and leaves
    the cell's button in the hidden colour; so the rendering is restored
    too whenever the button had that colour before. *)
Theorem set_flag_round_trip (s : World) (row col : Z) :
  grid_ok s = true → inside s (row, col) →
  revealed (cell s (row, col)) = false →
  flagged (cell s (row, col)) = false →
  flagged (cell (set_flag row col s) (row, col)) = true
  ∧ field (set_flag row col (set_flag row col s)) = field s
  ∧ mines (set_flag row col (set_flag row col s)) = mines s
  ∧ buttons (set_flag row col (set_flag row col s))
    = update2 (set_fg_color button_color) row col (buttons s)
  ∧ (fg_color (button_at s row col) = button_color →
     buttons (set_flag row col (set_flag row col s)) = buttons s).
Proof.
  intros Hg Hrc Hr Hf.
  assert (Hg1 : grid_ok (set_flag row col s) = true)
    by (by apply grid_ok_set_flag).
  assert (Hc1 : config (set_flag row col s) = config s)
    by apply set_flag_field.
  assert (Hrc1 : inside (set_flag row col s) (row, col))
    by (unfold inside; by rewrite Hc1).
  assert (Hcell1 : cell (set_flag row col s) (row, col)
                   = set_flagged true (cell s (row, col))).
  { rewrite set_flag_cell by done.
    by rewrite bool_decide_eq_true_2, Hr, Hf by done. }
  assert (Hr1 : revealed (cell (set_flag row col s) (row, col)) = false)
    by (by rewrite Hcell1).
  assert (Hf1 : flagged (cell (set_flag row col s) (row, col)) = true)
    by (by rewrite Hcell1).
  split; [done|].
  rewrite (set_flag_eq row col (set_flag row col s)) by done.
  rewrite Hf1. cbn zeta.
  rewrite (set_flag_eq row col s Hg Hrc Hr), Hf. cbn.
  assert (Hb : update2 (set_fg_color button_color) row col
                 (update2 (set_fg_color flag_color) row col (buttons s))
               = update2 (set_fg_color button_color) row col (buttons s)).
  { rewrite update2_compose. done. }
  split; [|split; [lia|split; [done|]]].
  - rewrite update2_compose. apply update2_fix. intros x Hx.
    destruct x as [b r fl n]. unfold compose, set_flagged. simpl.
    by rewrite negb_involutive.
  - intros Hfg. rewrite Hb. apply update2_fix. intros x Hx.
    assert (Hxb : x = button_at s row col)
      by (unfold button_at; by rewrite Hx).
    subst x. destruct (button_at s row col). simpl in *. by subst.
Qed.

(** ** Settings *)

Lemma apply_settings_rejected f s msg :
  selected_diff f = "custom"%string → validate_custom f = inl msg →
  apply_settings f s
  = show_error_dialog msg
      (set_config
         (set_current_theme (selected_theme f)
            (set_current_diff "custom" (config s))) s).
Proof.
  intros Hd Hv. unfold apply_settings. rewrite Hd, Hv. done.
Qed.

(** C6 (as amended). When the custom fields fail validation,
    [apply_settings] writes nothing to [config.json] and touches neither
    the game, the difficulty table nor the best times; it shows the error
    message, and the in-memory current difficulty and theme are already
    the ones selected in the form.  Leaving the screen reloads the file
    and restores them. *)
Theorem apply_settings_invalid (f : ConfigForm) (s : World) (msg : string) :
  selected_diff f = "custom"%string → validate_custom f = inl msg →
  let s' := apply_settings f s in
  config_json s' = config_json s
  ∧ difficulties (config s') = difficulties (config s)
  ∧ best_time (config s') = best_time (config s)
  ∧ current_diff (config s') = "custom"%string
  ∧ current_theme (config s') = selected_theme f
  ∧ error_dialogs s' = error_dialogs s ++ [msg]
  ∧ (first_click s', running s', time_elapsed s', def_zone s', field s',
     buttons s', all_cords s', danger_cords s', mines s', mines_label s',
     popups s')
    = (first_click s, running s, time_elapsed s, def_zone s, field s,
       buttons s, all_cords s, danger_cords s, mines s, mines_label s,
       popups s)
  ∧ config (ok_settings f s) = config_json s.
Proof.
  intros Hd Hv. cbn zeta. unfold ok_settings, exit_config.
  rewrite (apply_settings_rejected f s msg Hd Hv).
  repeat split.
Qed.

(** ** Games after mine placement *)

Lemma counts_ok_spec s :
  counts_ok s = true ↔
  ∀ p, inside s p → bomb (cell s p) = false →
       neighbor_bombs (cell s p) = mines_around s p.
Proof.
  unfold counts_ok. rewrite forallb_elem_of.
  setoid_rewrite elem_of_positions.
  split; intros H p Hp; specialize (H p Hp).
  - intros Hb. rewrite Hb in H. simpl in H. by apply bool_decide_eq_true in H.
  - destruct (bomb (cell s p)); [done|]. simpl.
    apply bool_decide_eq_true. by apply H.
Qed.

Lemma elem_of_safe_hidden s x :
  x ∈ safe_hidden s ↔
  ∃ p, inside s p ∧ x = lin s p ∧ bomb (cell s p) = false
       ∧ revealed (cell s p) = false.
Proof.
  unfold safe_hidden. rewrite list_elem_of_fmap.
  split; intros (p & H1 & H2); exists p.
  - apply list_elem_of_filter in H2 as [H2 H3].
    apply elem_of_positions in H3.
    apply andb_True in H2 as [Hb Hr].
    apply negb_True, Is_true_false in Hb, Hr. done.
  - destruct H2 as (-> & Hb & Hr). split; [done|].
    apply list_elem_of_filter. rewrite Hb, Hr.
    split; [done | by apply elem_of_positions].
Qed.

Lemma cords_ok_spec s :
  cords_ok s = true ↔
  NoDup (all_cords s)
  ∧ ∀ x, x ∈ all_cords s ↔
         ∃ p, inside s p ∧ x = lin s p ∧ bomb (cell s p) = false
              ∧ revealed (cell s p) = false.
Proof.
  unfold cords_ok.
  rewrite !andb_true_iff, bool_decide_eq_true, !forallb_elem_of.
  setoid_rewrite bool_decide_eq_true.
  setoid_rewrite <- elem_of_safe_hidden. naive_solver.
Qed.

Lemma no_revealed_bomb_spec s :
  no_revealed_bomb s = true ↔
  ∀ p, inside s p → revealed (cell s p) = true → bomb (cell s p) = false.
Proof.
  unfold no_revealed_bomb. rewrite forallb_elem_of.
  setoid_rewrite elem_of_positions.
  split; intros H p Hp; specialize (H p Hp);
    destruct (revealed (cell s p)), (bomb (cell s p)); naive_solver.
Qed.

Lemma all_safe_revealed_spec s :
  all_safe_revealed s = true ↔
  ∀ p, inside s p → bomb (cell s p) = false → revealed (cell s p) = true.
Proof.
  unfold all_safe_revealed. rewrite forallb_elem_of.
  setoid_rewrite elem_of_positions.
  split; intros H p Hp; specialize (H p Hp);
    destruct (revealed (cell s p)), (bomb (cell s p)); naive_solver.
Qed.

Lemma placed_spec s :
  placed s = true ↔
  grid_ok s = true ∧ first_click s = false ∧ counts_ok s = true
  ∧ cords_ok s = true ∧ no_revealed_bomb s = true ∧ best_time_ok s = true.
Proof.
  unfold placed. rewrite !andb_true_iff, negb_true_iff. tauto.
Qed.

Lemma all_safe_revealed_mono s s' :
  evolves s s' → all_safe_revealed s = true → all_safe_revealed s' = true.
Proof.
  rewrite !all_safe_revealed_spec. intros Hev H p Hp Hb.
  apply (inside_same s s' p (ev_diff _ _ Hev)) in Hp.
  apply (ev_mono _ _ Hev); [done|]. apply H; [done|].
  by rewrite <- (ev_bomb _ _ Hev).
Qed.

(** A safe cell with count zero has no mine around it. *)
Lemma zero_count_no_mine s p q :
  counts_ok s = true → inside s p → bomb (cell s p) = false →
  neighbor_bombs (cell s p) = 0 → adjacent p q → inside s q →
  bomb (cell s q) = false.
Proof.
  intros Hc Hp Hb H0 Hadj Hq.
  destruct (decide (q = p)) as [->|Hne]; [done|].
  rewrite counts_ok_spec in Hc. rewrite (Hc p Hp Hb) in H0.
  unfold mines_around in H0.
  destruct (bomb (cell s q)) eqn:Hbq; [|done]. exfalso.
  assert (Hin : q ∈ filter (λ q, bomb (cell s q)) (neighbors8 s p)).
  { apply list_elem_of_filter. rewrite Hbq. split; [done|].
    unfold neighbors8. apply list_elem_of_filter. split.
    - split; [|done]. apply Is_true_true. destruct q.
      by apply in_grid_inside.
    - by apply elem_of_around. }
  destruct (filter _ _); [by apply elem_of_nil in Hin | simpl in H0; lia].
Qed.

Lemma cell_same s s' p : field s' = field s → cell s' p = cell s p.
Proof. intros Hf. unfold cell, cell_at. by rewrite Hf. Qed.

Lemma mines_around_same s s' p :
  cfg_diff (config s') = cfg_diff (config s) → field s' = field s →
  mines_around s' p = mines_around s p.
Proof.
  intros Hc Hf. unfold mines_around, neighbors8. f_equal.
  rewrite !list_filter_filter. apply length_filter_ext. intros q _.
  by rewrite (in_grid_same s s') , (cell_same s s').
Qed.

Lemma all_safe_revealed_same s s' :
  cfg_diff (config s') = cfg_diff (config s) → field s' = field s →
  all_safe_revealed s' = all_safe_revealed s.
Proof.
  intros Hc Hf. apply eq_true_iff_eq. rewrite !all_safe_revealed_spec.
  split; intros H p Hp.
  - rewrite <- !(cell_same s s' p Hf). apply H. by apply (inside_same s s').
  - rewrite !(cell_same s s' p Hf). apply H. by apply (inside_same s s') in Hp.
Qed.

(** [placed] looks at the grid, [all_cords], the first-click mark and the
    best-time table only. *)
Lemma placed_same s s' :
  placed s = true →
  cfg_diff (config s') = cfg_diff (config s) → field s' = field s →
  all_cords s' = all_cords s → first_click s' = first_click s →
  best_time_ok s' = true → placed s' = true.
Proof.
  rewrite !placed_spec. intros (Hg & Hfc & Hcnt & Hcd & Hrb & _) Hc Hf Ha Hf1 Hbt.
  assert (Hin : ∀ p, inside s' p ↔ inside s p)
    by (intros p; by apply inside_same).
  split; [by eapply grid_ok_same|]. split; [congruence|].
  split; [|split; [|split; [|done]]].
  - apply counts_ok_spec. intros p Hp.
    rewrite (cell_same s s' p Hf), (mines_around_same s s' p Hc Hf).
    apply counts_ok_spec; [done|]. by apply Hin.
  - apply cords_ok_spec. apply cords_ok_spec in Hcd as [Hnd Hcd].
    rewrite Ha. split; [done|]. intros x. rewrite Hcd.
    unfold lin, cfg_width. rewrite Hc.
    split; intros (p & Hp & Hrest); exists p;
      [rewrite (cell_same s s' p Hf)|rewrite <- (cell_same s s' p Hf)];
      (split; [by apply Hin|done]).
  - apply no_revealed_bomb_spec. intros p Hp.
    rewrite (cell_same s s' p Hf).
    apply no_revealed_bomb_spec; [done|]. by apply Hin.
Qed.

Lemma play_refl s : grid_ok s = true → play s s.
Proof.
  intros Hg. split; try done.
  - by apply evolves_refl.
  - rewrite andb_negb_r. lia.
  - by rewrite bool_decide_eq_true_2.
  - by rewrite bool_decide_eq_true_2.
Qed.

Lemma play_trans s1 s2 s3 : play s1 s2 → play s2 s3 → play s1 s3.
Proof.
  intros H12 H23.
  pose proof (pl_evolves _ _ H12) as He12.
  pose proof (pl_evolves _ _ H23) as He23.
  pose proof (all_safe_revealed_mono _ _ He12) as Hm12.
  pose proof (all_safe_revealed_mono _ _ He23) as Hm23.
  pose proof (pl_wins _ _ H12) as Hw12.
  pose proof (pl_wins _ _ H23) as Hw23.
  pose proof (pl_losses _ _ H12) as Hl12.
  pose proof (pl_losses _ _ H23) as Hl23.
  pose proof (pl_config _ _ H12) as Hc12.
  pose proof (pl_config _ _ H23) as Hc23.
  pose proof (pl_running _ _ H12) as Hr12.
  pose proof (pl_running _ _ H23) as Hr23.
  pose proof (pl_time _ _ H12) as Ht12.
  split.
  - by eapply evolves_trans.
  - by rewrite (pl_time _ _ H23).
  - by rewrite (pl_first _ _ H23), (pl_first _ _ H12).
  - destruct (all_safe_revealed s1), (all_safe_revealed s2),
      (all_safe_revealed s3); simpl in *; try lia;
      try (by specialize (Hm12 eq_refl)); by specialize (Hm23 eq_refl).
  - lia.
  - destruct (all_safe_revealed s1), (all_safe_revealed s2),
      (all_safe_revealed s3); simpl in *;
      try (by specialize (Hm12 eq_refl)); try (by specialize (Hm23 eq_refl));
      repeat case_bool_decide; try lia; try congruence.
  - destruct (all_safe_revealed s1), (all_safe_revealed s2),
      (all_safe_revealed s3); simpl in *;
      try (by specialize (Hm12 eq_refl)); try (by specialize (Hm23 eq_refl));
      repeat case_bool_decide; try lia; try congruence.
Qed.

Lemma check_best_checked s :
  best_time_ok s = true →
  check_best s
  = Ok (set_config_json
          (best_checked (config s) (config_json s) (time_elapsed s)).2
          (set_config
             (best_checked (config s) (config_json s) (time_elapsed s)).1
             s)).
Proof.
  unfold best_time_ok, check_best, best_checked.
  rewrite orb_true_iff, !bool_decide_eq_true. intros Hbt.
  case_bool_decide as Hd; [|by destruct s].
  destruct Hbt as [Hbt|[best Hbt]]; [done|]. rewrite Hbt.
  destruct (time_elapsed s <? best); [done | by destruct s].
Qed.

Lemma best_checked_diff cfg json t :
  cfg_diff (best_checked cfg json t).1 = cfg_diff cfg
  ∧ current_diff (best_checked cfg json t).1 = current_diff cfg.
Proof.
  unfold best_checked. case_bool_decide; [|done].
  destruct (best_time cfg !! current_diff cfg) as [best|]; [|done].
  by destruct (t <? best).
Qed.

Lemma best_checked_keeps_record cfg json t :
  current_diff cfg = "custom"%string
  ∨ is_Some (best_time cfg !! current_diff cfg) →
  current_diff (best_checked cfg json t).1 = "custom"%string
  ∨ is_Some (best_time (best_checked cfg json t).1
             !! current_diff (best_checked cfg json t).1).
Proof.
  intros Hbt. unfold best_checked. case_bool_decide; [|done].
  destruct (best_time cfg !! current_diff cfg) as [best|] eqn:E;
    [|simpl; by rewrite E].
  destruct (t <? best); [|simpl; by rewrite E]. right. simpl.
  rewrite lookup_insert_eq. eauto.
Qed.

Lemma list_remove_elem x l :
  x ∈ l → NoDup l →
  ∃ l', list_remove x l = Some l' ∧ NoDup l'
        ∧ ∀ y, y ∈ l' ↔ y ∈ l ∧ y ≠ x.
Proof.
  induction l as [|z l IH]; intros Hx Hnd.
  - by apply elem_of_nil in Hx.
  - apply NoDup_cons in Hnd as [Hz Hnd]. simpl. case_bool_decide as Hxz.
    + subst z. exists l. split; [done|]. split; [done|].
      intros y. rewrite elem_of_cons. split; [|naive_solver].
      intros Hy. split; [by right|]. by intros ->.
    + apply elem_of_cons in Hx as [Hx|Hx]; [done|].
      destruct (IH Hx Hnd) as (l' & -> & Hnd' & Hl'). simpl.
      exists (z :: l'). split; [done|]. split.
      * apply NoDup_cons. split; [|done]. rewrite Hl'. tauto.
      * intros y. rewrite !elem_of_cons, Hl'. split; [|naive_solver].
        intros [->|[Hy Hne]]; [|tauto]. split; [by left|]. congruence.
Qed.

Lemma wins_app s b :
  length (filter (λ b : bool, b) (popups s ++ [b]))
  = (wins s + if b then 1 else 0)%nat.
Proof.
  unfold wins. rewrite filter_app, length_app. by destruct b.
Qed.

Lemma losses_app s b :
  length (filter (λ b : bool, negb b) (popups s ++ [b]))
  = (losses s + if b then 0 else 1)%nat.
Proof.
  unfold losses. rewrite filter_app, length_app. by destruct b.
Qed.

(** The state right after a hidden safe cell was marked and taken off
    [all_cords]. *)
Lemma placed_mark s sm r c :
  placed s = true → inside s (r, c) →
  revealed (cell s (r, c)) = false → bomb (cell s (r, c)) = false →
  flagged (cell s (r, c)) = false →
  field sm = update2 (set_revealed true) r c (field s) →
  session sm = session s →
  (∀ l, list_remove (r * width s + c) (all_cords s) = Some l →
        all_cords sm = l) →
  (∃ l, list_remove (r * width s + c) (all_cords s) = Some l)
  ∧ (is_Some (list_remove (r * width s + c) (all_cords s)) →
     placed sm = true
     ∧ (all_safe_revealed sm = true ↔ all_cords sm = [])
     ∧ all_safe_revealed s = false).
Proof.
  intros Hpl Hrc Hh Hb Hf Hfm Hsm Hall.
  pose proof Hpl as (Hg & Hfc & Hcnt & Hcd & Hrb & Hbt)%placed_spec.
  apply cords_ok_spec in Hcd as [Hnd Hcd].
  assert (Hcm : config sm = config s) by (by injection Hsm).
  assert (Hfcm : first_click sm = first_click s) by (by injection Hsm).
  destruct (evolves_mark s sm r c Hg Hrc Hh Hb Hf Hfm) as [Hev Hrm];
    [by rewrite Hcm|].
  assert (Hcell : ∀ p, inside s p →
            cell sm p = if bool_decide ((r, c) = p)
                        then set_revealed true (cell s p) else cell s p).
  { intros p Hp. by apply cell_update2. }
  assert (Hin : ∀ p, inside sm p ↔ inside s p)
    by (intros p; apply inside_same; by rewrite Hcm).
  assert (Hlin : lin s (r, c) ∈ all_cords s).
  { apply Hcd. by exists (r, c). }
  destruct (list_remove_elem _ _ Hlin Hnd) as (l & Hrm' & Hndl & Hl).
  change (lin s (r, c)) with (r * width s + c) in Hrm'.
  split; [eauto|]. intros _. specialize (Hall l Hrm').
  assert (Hcdm : ∀ x, x ∈ all_cords sm ↔
             ∃ p, inside sm p ∧ x = lin sm p ∧ bomb (cell sm p) = false
                  ∧ revealed (cell sm p) = false).
  { intros x. rewrite Hall, Hl, Hcd. unfold lin. rewrite Hcm.
    fold (lin s (r, c)). split.
    - intros [(p & Hp & -> & Hbp & Hrp) Hne]. exists p.
      rewrite Hin, (Hcell p Hp).
      rewrite bool_decide_eq_false_2 by (by intros <-). done.
    - intros (p & Hp%Hin & -> & Hbp & Hrp).
      rewrite (Hcell p Hp) in Hbp, Hrp.
      case_bool_decide as Hne; [done|]. split; [by exists p|].
      intros Heq. apply Hne. symmetry. by apply (lin_inj s). }
  split; [|split].
  - apply placed_spec. split; [apply Hev|]. split; [congruence|].
    split; [|split; [|split]].
    + apply counts_ok_spec. intros p Hp%Hin Hbp.
      rewrite (ev_count _ _ Hev) by done.
      rewrite (mines_around_ext s sm p Hcm) by (intros q; apply Hev).
      apply counts_ok_spec; [done..|]. by rewrite <- (ev_bomb _ _ Hev).
    + apply cords_ok_spec. split; [by rewrite Hall|done].
    + apply no_revealed_bomb_spec. intros p Hp%Hin.
      rewrite (Hcell p Hp). case_bool_decide; [by subst p|].
      by apply no_revealed_bomb_spec.
    + unfold best_time_ok. rewrite Hcm. exact Hbt.
  - rewrite all_safe_revealed_spec. split.
    + intros HA. apply elem_of_nil_inv. intros x Hx.
      apply Hcdm in Hx as (p & Hp & _ & Hbp & Hrp).
      rewrite (HA p Hp Hbp) in Hrp. done.
    + intros Hnil p Hp Hbp.
      destruct (revealed (cell sm p)) eqn:Hrp; [done|]. exfalso.
      assert (Hx : lin sm p ∈ all_cords sm) by (apply Hcdm; by exists p).
      rewrite Hnil in Hx. by apply elem_of_nil in Hx.
  - apply not_true_iff_false. rewrite all_safe_revealed_spec.
    intros HA. rewrite (HA _ Hrc Hb) in Hh. done.
Qed.

Lemma mark_revealed_placed r c s :
  placed s = true → inside s (r, c) →
  revealed (cell s (r, c)) = false → bomb (cell s (r, c)) = false →
  flagged (cell s (r, c)) = false →
  ∃ s1, mark_revealed r c s = Ok s1 ∧ placed s1 = true ∧ play s s1
    ∧ losses s1 = losses s ∧ revealed (cell s1 (r, c)) = true
    ∧ (∀ q, inside s q → q ≠ (r, c) →
            revealed (cell s1 q) = revealed (cell s q)).
Proof.
  intros Hpl Hrc Hh Hb Hf.
  pose proof Hpl as (Hg & Hfc & Hcnt & Hcd & Hrb & Hbt)%placed_spec.
  destruct (mark_revealed_cases r c s) as (sm & Hfm & Hsm & Hcase).
  destruct (placed_mark s sm r c Hpl Hrc Hh Hb Hf Hfm Hsm)
    as [[l Hrm] Hpm].
  { intros l Hl. destruct Hcase as [(Hn & _) | (l' & Hl' & Ha & _)];
      congruence. }
  destruct Hpm as (Hplm & HAm & HAs); [by rewrite Hrm|].
  destruct Hcase as [(Hn & _) | (l' & Hl' & Ha & ->)]; [congruence|].
  assert (l' = l) by congruence. subst l'.
  injection Hsm as Hcm Hjm Hfcm Htm Hpm Hrunm.
  destruct (evolves_mark s sm r c Hg Hrc Hh Hb Hf Hfm) as [Hev Hrm1];
    [by rewrite Hcm|].
  assert (Hcell : ∀ p, inside s p →
            cell sm p = if bool_decide ((r, c) = p)
                        then set_revealed true (cell s p) else cell s p).
  { intros p Hp. by apply cell_update2. }
  assert (Hothers : ∀ q, inside s q → q ≠ (r, c) →
            revealed (cell sm q) = revealed (cell s q)).
  { intros q Hq Hne. rewrite (Hcell q Hq).
    by rewrite bool_decide_eq_false_2 by (by intros <-). }
  destruct (all_cords sm) as [|x k] eqn:Ha.
  - (* the last safe cell: the game is won *)
    assert (Hbt' : best_time_ok (EndGamePopup true sm) = true).
    { unfold best_time_ok. simpl. rewrite Hcm. exact Hbt. }
    rewrite (check_best_checked _ Hbt'). cbn [bind].
    set (sf := stop_timer _).
    assert (HA : all_safe_revealed sm = true) by (by apply HAm).
    destruct (best_checked_diff (config sm) (config_json sm)
                (time_elapsed sm)) as [Hd Hcur].
    assert (Hfield : field sf = field sm) by done.
    assert (Hdiff : cfg_diff (config sf) = cfg_diff (config sm)) by done.
    exists sf. split; [done|]. split; [|split; [|split; [|split]]].
    + apply (placed_same sm sf); try done.
      unfold best_time_ok. rewrite orb_true_iff, !bool_decide_eq_true.
      apply best_checked_keeps_record.
      apply placed_spec in Hplm as (_ & _ & _ & _ & _ & Hbtm).
      unfold best_time_ok in Hbtm.
      by rewrite orb_true_iff, !bool_decide_eq_true in Hbtm.
    + assert (Hw : wins sf = S (wins s)).
      { unfold wins at 1. subst sf. simpl. rewrite wins_app.
        unfold wins. rewrite Hpm. lia. }
      assert (Hl : losses sf = losses s).
      { unfold losses at 1. subst sf. simpl. rewrite losses_app.
        unfold losses. rewrite Hpm. lia. }
      split.
      * eapply evolves_trans; [exact Hev|].
        apply evolves_same; [apply Hev|done..].
      * subst sf. simpl. done.
      * subst sf. simpl. congruence.
      * rewrite Hw, (all_safe_revealed_same sm sf) by done.
        rewrite HA, HAs. simpl. lia.
      * lia.
      * rewrite bool_decide_eq_false_2 by lia.
        subst sf. simpl. rewrite <- Hcm, <- Hjm, <- Htm.
        by destruct (best_checked _ _ _).
      * rewrite bool_decide_eq_false_2 by lia. done.
    + unfold losses. subst sf. simpl. rewrite losses_app.
      unfold losses. rewrite Hpm. lia.
    + by rewrite (cell_same sm sf).
    + intros q Hq Hne. rewrite (cell_same sm sf) by done. by apply Hothers.
  - exists sm. split; [done|]. split; [done|].
    assert (HA : all_safe_revealed sm = false).
    { apply not_true_iff_false. rewrite HAm. done. }
    split; [|split; [by unfold losses; rewrite Hpm|done]].
    split; try done.
    + rewrite HA. unfold wins. rewrite Hpm. simpl. lia.
    + unfold losses. by rewrite Hpm.
    + rewrite bool_decide_eq_true_2 by (unfold wins; by rewrite Hpm).
      congruence.
    + rewrite bool_decide_eq_true_2
        by (unfold wins, losses; by rewrite Hpm).
      done.
Qed.

(** Setting off a mine. *)
Lemma explode_placed r c s :
  placed s = true →
  placed (explode r c s) = true ∧ play s (explode r c s)
  ∧ losses (explode r c s) = S (losses s)
  ∧ running (explode r c s) = false
  ∧ field (explode r c s) = field s.
Proof.
  intros Hpl.
  pose proof Hpl as (Hg & Hfc & Hcnt & Hcd & Hrb & Hbt)%placed_spec.
  assert (Hl : losses (explode r c s) = S (losses s)).
  { unfold losses at 1. simpl. rewrite losses_app. unfold losses. lia. }
  assert (Hw : wins (explode r c s) = wins s).
  { unfold wins at 1. simpl. rewrite wins_app. unfold wins. lia. }
  split; [by apply (placed_same s)|]. split; [|done].
  split; try done.
  - by apply evolves_explode.
  - rewrite Hw, (all_safe_revealed_same s (explode r c s)) by done.
    rewrite andb_negb_r. lia.
  - lia.
  - by rewrite bool_decide_eq_true_2.
  - rewrite bool_decide_eq_false_2 by lia. done.
Qed.

(** ** The flood fill *)

Lemma outcome_ok {S : Type} (P : S → Prop) (r : result S) :
  outcome P (λ _, False) False r ↔ ∃ s', r = Ok s' ∧ P s'.
Proof.
  destruct r; simpl; split; try done.
  - eauto.
  - by intros (? & [= <-] & ?).
  - by intros (? & ? & _).
  - by intros (? & ? & _).
Qed.

Lemma connected_trans (P : Z * Z → Prop) x y z :
  connected P x y → connected P y z → connected P x z.
Proof.
  intros Hxy Hyz. induction Hyz as [|p q Hyp IH Hadj HP]; [done|].
  by eapply connected_step.
Qed.

Lemma connected_mono (P Q : Z * Z → Prop) x y :
  (∀ p, P p → Q p) → connected P x y → connected Q x y.
Proof.
  intros HPQ H. induction H as [|p q Hp IH Hadj HP]; [constructor|].
  eapply connected_step; eauto.
Qed.


Lemma spreads_mono s u p : evolves s u → spreads u p → spreads s p.
Proof.
  intros Hev (Hin & Hr & Hf & Hb & Hn).
  apply (inside_same s u p (ev_diff _ _ Hev)) in Hin.
  rewrite (ev_flagged _ _ Hev) in Hf by done.
  rewrite (ev_bomb _ _ Hev) in Hb by done.
  rewrite (ev_count _ _ Hev) in Hn by done.
  repeat split; try done; try apply Hin.
  destruct (revealed (cell s p)) eqn:E; [|done].
  by rewrite (ev_mono _ _ Hev) in Hr.
Qed.

Lemma closed_mono u u' q :
  evolves u u' → inside u q → closed u q → closed u' q.
Proof.
  intros Hev Hq Hcl Hn y Hadj Hy Hf.
  apply (inside_same u u' y (ev_diff _ _ Hev)) in Hy.
  rewrite (ev_count _ _ Hev) in Hn by done.
  rewrite (ev_flagged _ _ Hev) in Hf by done.
  apply (ev_mono _ _ Hev); [done|]. by apply Hcl.
Qed.

Lemma reveal_flagged fuel row col s :
  (0 < fuel)%nat → revealed (cell s (row, col)) = false →
  flagged (cell s (row, col)) = true → reveal fuel row col s = Ok s.
Proof.
  intros Hfuel Hr Hf. destruct fuel as [|fuel]; [lia|].
  rewrite reveal_S, Hr, Hf. by destruct (bomb (cell s (row, col))).
Qed.

(** The recursive loop with an invariant that records the offsets
    already handled. *)
Lemma spread_with_visited (I : list (Z * Z) → World → Prop)
    (E : World → Prop) (F : Prop) reveal_ row col s :
  I [] s →
  (∀ done (d : Z * Z) u, d ∈ offset_pairs → I done u →
     outcome (I (done ++ [d])) E F
       (if in_grid u (row + d.2) (col + d.1)
           && negb (revealed (cell u (row + d.2, col + d.1)))
        then reveal_ (row + d.2) (col + d.1) u else Ok u)) →
  outcome (I offset_pairs) E F (spread_with reveal_ row col s).
Proof.
  intros H0 Hbody. unfold spread_with.
  rewrite (for_each_nested offsets offsets
    (λ dc dr s,
       if in_grid s (row + dr) (col + dc)
          && negb (revealed (cell_at s (row + dr) (col + dc)))
       then reveal_ (row + dr) (col + dc) s else Ok s)).
  by apply outcome_for_each_visited.
Qed.

Lemma adjacent_offset row col y :
  adjacent (row, col) y →
  ∃ d : Z * Z, d ∈ offset_pairs ∧ y = (row + d.2, col + d.1).
Proof.
  destruct y as [r c]. unfold adjacent. simpl. intros [Hr Hc].
  exists (c - col, r - row). simpl. split; [|f_equal; lia].
  assert (Hr' : r - row = -1 ∨ r - row = 0 ∨ r - row = 1) by lia.
  assert (Hc' : c - col = -1 ∨ c - col = 0 ∨ c - col = 1) by lia.
  unfold offset_pairs, offsets. simpl. rewrite !elem_of_cons.
  destruct Hr' as [-> | [-> | ->]], Hc' as [-> | [-> | ->]]; tauto.
Qed.

Lemma offset_adjacent row col (d : Z * Z) :
  d ∈ offset_pairs → adjacent (row, col) (row + d.2, col + d.1).
Proof.
  unfold offset_pairs, offsets. simpl. rewrite !elem_of_cons, elem_of_nil.
  unfold adjacent. simpl. intros H.
  repeat destruct H as [H|H]; try done; subst d; simpl; lia.
Qed.

Lemma flood fuel :
  ∀ row col s,
    placed s = true → inside s (row, col) →
    revealed (cell s (row, col)) = false →
    bomb (cell s (row, col)) = false →
    flagged (cell s (row, col)) = false →
    (hidden_count s ≤ fuel)%nat →
    outcome (flood_result s (row, col)) (λ _, False) False
            (reveal fuel row col s).
Proof.
  induction fuel as [|fuel IH]; intros row col s Hpl Hrc Hh Hb Hf Hfuel.
  { pose proof (hidden_count_pos s _ Hrc Hh). lia. }
  rewrite reveal_S, Hh, Hb, Hf. cbn [negb andb].
  destruct (mark_revealed_placed row col s Hpl Hrc Hh Hb Hf)
    as (s1 & -> & Hpl1 & Hplay1 & Hl1 & Hr1 & Hothers).
  cbn [bind].
  pose proof (pl_evolves _ _ Hplay1) as Hev1.
  assert (Hn1 : neighbor_bombs (cell s1 (row, col))
                = neighbor_bombs (cell s (row, col)))
    by (by apply (ev_count _ _ Hev1)).
  assert (Hhc1 : (hidden_count s1 < hidden_count s)%nat)
    by (by apply (hidden_count_lt s s1 (row, col))).
  assert (Hin1 : ∀ p, inside s1 p ↔ inside s p)
    by (intros p; apply inside_same, Hev1).
  destruct (neighbor_bombs (cell s1 (row, col)) =? 0) eqn:Hz.
  2:{ (* a numbered cell: nothing else is revealed *)
      simpl. split; [done|]. split; [done|]. split; [done|].
      split; [done|]. intros q Hq Hq1 Hq0.
      destruct (decide (q = (row, col))) as [->|Hne].
      - split; [|by left]. intros H0. rewrite H0 in Hz. done.
      - rewrite (Hothers q Hq Hne) in Hq1. congruence. }
  apply Z.eqb_eq in Hz.
  assert (Hsp : spreads s (row, col)).
  { repeat split; try done; try apply Hrc. congruence. }
  (* the invariant of the loop *)
  set (I := λ (done : list (Z * Z)) (u : World),
         placed u = true ∧ play s1 u ∧ losses u = losses s1
         ∧ (∀ q, inside s q → revealed (cell u q) = true →
                 revealed (cell s1 q) = false →
                 closed u q
                 ∧ ∃ p, connected (spreads s) (row, col) p ∧ adjacent p q)
         ∧ (∀ d : Z * Z, d ∈ done →
              inside s (row + d.2, col + d.1) →
              flagged (cell s (row + d.2, col + d.1)) = false →
              revealed (cell u (row + d.2, col + d.1)) = true)).
  assert (Hloop : outcome (I offset_pairs) (λ _, False) False
                          (spread_with (reveal fuel) row col s1)).
  { apply spread_with_visited.
    { split; [done|]. split; [apply play_refl, Hev1|]. split; [done|].
      split; [intros q _ Hq1 Hq0; congruence|].
      intros d Hd. by apply elem_of_nil in Hd. }
    intros done d u Hd (Hplu & Hplayu & Hlu & Hnew & Hvis).
    set (y := (row + d.2, col + d.1)).
    pose proof (pl_evolves _ _ Hplayu) as Hevu.
    pose proof (evolves_trans _ _ _ Hev1 Hevu) as Hevsu.
    assert (Hinu : ∀ p, inside u p ↔ inside s p)
      by (intros p; apply inside_same, Hevsu).
    assert (Hvis' : ∀ u', evolves u u' →
              (inside s y → flagged (cell s y) = false →
               revealed (cell u' y) = true) →
              ∀ d' : Z * Z, d' ∈ done ++ [d] →
                inside s (row + d'.2, col + d'.1) →
                flagged (cell s (row + d'.2, col + d'.1)) = false →
                revealed (cell u' (row + d'.2, col + d'.1)) = true).
    { intros u' Hev' Hy d' Hd' Hin' Hf'.
      apply elem_of_app in Hd' as [Hd'|Hd'].
      - apply (ev_mono _ _ Hev'); [by apply Hinu|]. by apply Hvis.
      - apply list_elem_of_singleton in Hd'. subst d'. by apply Hy. }
    destruct (in_grid u (row + d.2) (col + d.1)) eqn:Hgrid.
    2:{ simpl. split; [done|]. split; [done|]. split; [done|].
        split; [done|]. apply Hvis'; [apply evolves_refl, Hevu|].
        intros Hy. apply Hinu, in_grid_inside in Hy. congruence. }
    assert (Hy : inside s y) by (by apply Hinu, in_grid_inside).
    fold y. destruct (revealed (cell u y)) eqn:Hry.
    { simpl. split; [done|]. split; [done|]. split; [done|].
      split; [done|]. apply Hvis'; [apply evolves_refl, Hevu|done]. }
    cbn [negb andb].
    assert (Hfuel_u : (hidden_count u ≤ fuel)%nat).
    { pose proof (hidden_count_mono _ _ Hevu). lia. }
    destruct (flagged (cell u y)) eqn:Hfy.
    { rewrite reveal_flagged; try done.
      - simpl. split; [done|]. split; [done|]. split; [done|].
        split; [done|]. apply Hvis'; [apply evolves_refl, Hevu|].
        intros _ Hfs. rewrite (ev_flagged _ _ Hevsu) in Hfy by done.
        congruence.
      - pose proof (hidden_count_pos u y (proj2 (Hinu y) Hy) Hry). lia. }
    assert (Hby : bomb (cell u y) = false).
    { pose proof Hplu as (_ & _ & Hcnt & _)%placed_spec.
      apply (zero_count_no_mine u (row, col) y); try done.
      - by apply Hinu.
      - by rewrite (ev_bomb _ _ Hevsu).
      - rewrite (ev_count _ _ Hevsu) by done. congruence.
      - by apply offset_adjacent.
      - by apply Hinu. }
    eapply outcome_mono;
      [| | |apply (IH (row + d.2) (col + d.1) u Hplu)]; try done;
      [|by apply Hinu].
    intros u' (Hplu' & Hplayu' & Hlu' & Hry' & Hnew').
    pose proof (pl_evolves _ _ Hplayu') as Hevu'.
    split; [done|]. split; [by eapply play_trans|].
    split; [congruence|]. split; [|by apply Hvis'].
    intros q Hq Hq' Hq1.
    destruct (revealed (cell u q)) eqn:Hqu.
    - destruct (Hnew q Hq Hqu Hq1) as [Hcl Hp]. split; [|done].
      apply (closed_mono u u'); [done|by apply Hinu|done].
    - destruct (Hnew' q (proj2 (Hinu q) Hq) Hq' Hqu) as [Hcl Hfl].
      split; [done|].
      destruct Hfl as [->|(Hspy & p & Hp & Hadj)].
      + exists (row, col). split; [constructor|]. by apply offset_adjacent.
      + exists p. split; [|done].
        apply (connected_trans _ _ y).
        * eapply connected_step; [constructor|by apply offset_adjacent|].
          by apply (spreads_mono s u).
        * eapply connected_mono; [|exact Hp].
          intros p'. by apply spreads_mono. }
  eapply outcome_mono; [| | |exact Hloop]; try done.
  intros u (Hplu & Hplayu & Hlu & Hnew & Hvis).
  pose proof (pl_evolves _ _ Hplayu) as Hevu.
  pose proof (evolves_trans _ _ _ Hev1 Hevu) as Hevsu.
  split; [done|]. split; [by eapply play_trans|]. split; [congruence|].
  split; [apply (ev_mono _ _ Hevu); [by apply Hin1|done]|].
  intros q Hq Hqu Hq0.
  destruct (decide (q = (row, col))) as [->|Hne].
  - split; [|by left]. intros _ y Hadj Hy Hfy.
    apply adjacent_offset in Hadj as (d & Hd & ->).
    apply (inside_same s u _ (ev_diff _ _ Hevsu)) in Hy.
    apply Hvis; [done|done|].
    rewrite <- Hfy. symmetry. by apply (ev_flagged _ _ Hevsu).
  - rewrite <- (Hothers q Hq Hne) in Hq0.
    destruct (Hnew q Hq Hqu Hq0) as [Hcl Hp]. split; [done|]. by right.
Qed.



(** ** Chording *)

(** The loop of [try_chord] with an invariant that records the offsets
    already handled. *)
Lemma chord_loop_visited (I : list (Z * Z) → World → Prop)
    (E : World → Prop) (F : Prop) reveal_ row col s :
  I [] s →
  (∀ done (d : Z * Z) u, d ∈ offset_pairs → I done u →
     outcome (I (done ++ [d])) E F
       (if in_grid u (row + d.1) (col + d.2)
        then if negb (revealed (cell u (row + d.1, col + d.2)))
                && negb (flagged (cell u (row + d.1, col + d.2)))
             then reveal_ (row + d.1) (col + d.2) u else Ok u
        else Ok u)) →
  outcome (I offset_pairs) E F
    (for_each offsets (λ dr,
       for_each offsets (λ dc s,
         let nr := row + dr in
         let nc := col + dc in
         if (0 <=? nr) && (nr <? height s) && (0 <=? nc) && (nc <? width s)
         then if negb (revealed (cell_at s nr nc))
                 && negb (flagged (cell_at s nr nc))
              then reveal_ nr nc s
              else Ok s
         else Ok s)) s).
Proof.
  intros H0 Hbody.
  rewrite (for_each_nested offsets offsets
    (λ dr dc s,
       if (0 <=? row + dr) && (row + dr <? height s) && (0 <=? col + dc)
          && (col + dc <? width s)
       then if negb (revealed (cell_at s (row + dr) (col + dc)))
               && negb (flagged (cell_at s (row + dr) (col + dc)))
            then reveal_ (row + dr) (col + dc) s
            else Ok s
       else Ok s)).
  apply outcome_for_each_visited; [done|].
  intros done d u Hd HI. specialize (Hbody done d u Hd HI).
  cbn beta.
  replace ((0 <=? row + d.1) && (row + d.1 <? height u) && (0 <=? col + d.2)
           && (col + d.2 <? width u))
    with (in_grid u (row + d.1) (col + d.2)); [done|].
  unfold in_grid.
  destruct (0 <=? row + d.1), (row + d.1 <? height u), (0 <=? col + d.2),
    (col + d.2 <? width u); done.
Qed.

Lemma live_mine_same s u q :
  evolves s u → no_revealed_bomb u = true → inside s q →
  live_mine s q
  = bomb (cell u q) && negb (revealed (cell u q)) && negb (flagged (cell u q)).
Proof.
  intros Hev Hrb Hq. unfold live_mine.
  destruct q as [r c]. cbn [fst snd].
  rewrite (proj2 (in_grid_inside s r c) Hq). simpl.
  rewrite (ev_bomb _ _ Hev), (ev_flagged _ _ Hev) by done.
  destruct (bomb (cell s (r, c))) eqn:Hb; [|done]. simpl.
  assert (Hu : revealed (cell u (r, c)) = false).
  { destruct (revealed (cell u (r, c))) eqn:E; [|done].
    rewrite no_revealed_bomb_spec in Hrb.
    rewrite <- (ev_bomb _ _ Hev) in Hb by done.
    rewrite (Hrb (r, c)) in Hb; [done| |done].
    by apply (inside_same s u _ (ev_diff _ _ Hev)). }
  rewrite Hu. destruct (revealed (cell s (r, c))) eqn:E; [|done].
  by rewrite (ev_mono _ _ Hev) in Hu.
Qed.

Lemma chord_placed fuel row col s :
  placed s = true → inside s (row, col) →
  revealed (cell s (row, col)) = true →
  (hidden_count s ≤ fuel)%nat →
  outcome (λ s', if flagged_count s row col
                    =? neighbor_bombs (cell s (row, col))
                 then chord_result s (row, col) s' else s' = s)
          (λ _, False) False
          (try_chord_with (reveal fuel) row col s).
Proof.
  intros Hpl Hrc Hr Hfuel. unfold try_chord_with.
  change (cell_at s row col) with (cell s (row, col)). rewrite Hr.
  cbn [negb]. destruct (_ =? _); [|done].
  pose proof Hpl as (Hg & _)%placed_spec.
  set (I := λ (done : list (Z * Z)) (u : World),
         placed u = true ∧ play s u
         ∧ losses u
           = (losses s
              + length (filter (λ d : Z * Z,
                                  live_mine s (row + d.1, col + d.2)%Z)
                               done))%nat
         ∧ (∀ d : Z * Z, d ∈ done →
              inside s (row + d.1, col + d.2) →
              revealed (cell s (row + d.1, col + d.2)) = false →
              flagged (cell s (row + d.1, col + d.2)) = false →
              bomb (cell s (row + d.1, col + d.2)) = false →
              revealed (cell u (row + d.1, col + d.2)) = true)).
  assert (Hloop : outcome (I offset_pairs) (λ _, False) False
    (for_each offsets (λ dr,
       for_each offsets (λ dc s,
         let nr := row + dr in
         let nc := col + dc in
         if (0 <=? nr) && (nr <? height s) && (0 <=? nc) && (nc <? width s)
         then if negb (revealed (cell_at s nr nc))
                 && negb (flagged (cell_at s nr nc))
              then reveal fuel nr nc s
              else Ok s
         else Ok s)) s)).
  { apply chord_loop_visited.
    { split; [done|]. split; [by apply play_refl|]. split; [simpl; lia|].
      intros d Hd. by apply elem_of_nil in Hd. }
    intros done d u Hd (Hplu & Hplayu & Hlu & Hvis).
    set (y := (row + d.1, col + d.2)).
    pose proof (pl_evolves _ _ Hplayu) as Hevu.
    pose proof Hplu as (Hgu & _ & _ & _ & Hrbu & _)%placed_spec.
    assert (Hinu : ∀ p, inside u p ↔ inside s p)
      by (intros p; apply inside_same, Hevu).
    (* extending the invariant by the offset [d] *)
    assert (Hext : ∀ u', placed u' = true → play u u' →
              losses u'
              = (losses u + if live_mine s y then 1 else 0)%nat →
              (inside s y → revealed (cell s y) = false →
               flagged (cell s y) = false → bomb (cell s y) = false →
               revealed (cell u' y) = true) →
              I (done ++ [d]) u').
    { intros u' Hplu' Hplayu' Hlu' Hy.
      split; [done|]. split; [by eapply play_trans|]. split.
      - rewrite filter_app, length_app, Hlu', Hlu, filter_cons, filter_nil.
        fold y. destruct (live_mine s y); simpl; lia.
      - intros d' Hd' Hin' Hr' Hf' Hb'.
        apply elem_of_app in Hd' as [Hd'|Hd'].
        + apply (ev_mono _ _ (pl_evolves _ _ Hplayu')); [by apply Hinu|].
          by apply Hvis.
        + apply list_elem_of_singleton in Hd'. subst d'. by apply Hy. }
    destruct (in_grid u (row + d.1) (col + d.2)) eqn:Hgrid.
    2:{ simpl. apply Hext; [done|by apply play_refl| |].
        - unfold live_mine. fold y. simpl.
          rewrite <- (in_grid_same s u) by apply Hevu.
          rewrite Hgrid. simpl. lia.
        - intros Hy. apply Hinu, in_grid_inside in Hy. congruence. }
    assert (Hy : inside s y) by (by apply Hinu, in_grid_inside).
    fold y. rewrite (live_mine_same s u y Hevu Hrbu Hy) in Hext.
    destruct (revealed (cell u y)) eqn:Hry.
    { simpl. apply Hext; [done|by apply play_refl| |done].
      rewrite andb_false_r. simpl. lia. }
    destruct (flagged (cell u y)) eqn:Hfy.
    { simpl. apply Hext; [done|by apply play_refl| |].
      - rewrite andb_false_r. lia.
      - intros _ _ Hfs. rewrite (ev_flagged _ _ Hevu) in Hfy by done.
        congruence. }
    cbn [negb andb].
    assert (Hfuel_u : (hidden_count u ≤ fuel)%nat).
    { pose proof (hidden_count_mono _ _ Hevu). lia. }
    destruct (bomb (cell u y)) eqn:Hby.
    - (* a mine goes off *)
      destruct fuel as [|fuel'].
      { pose proof (hidden_count_pos u y (proj2 (Hinu y) Hy) Hry). lia. }
      change (reveal (S fuel') (row + d.1) (col + d.2) u)
        with (reveal (S fuel') y.1 y.2 u).
      rewrite reveal_S. destruct y as [yr yc]. cbn [fst snd].
      rewrite Hby, Hry, Hfy. cbn [negb andb].
      destruct (explode_placed yr yc u Hplu) as (He1 & He2 & He3 & He4 & He5).
      simpl. apply Hext; try done; [simpl; lia|].
      intros _ _ _ Hbs. rewrite (ev_bomb _ _ Hevu) in Hby by done.
      congruence.
    - eapply outcome_mono;
        [| | |apply (flood fuel (row + d.1) (col + d.2) u Hplu)]; try done;
        [|by apply Hinu].
      intros u' (Hplu' & Hplayu' & Hlu' & Hry' & _).
      apply Hext; try done. simpl. lia. }
  eapply outcome_mono; [| | |exact Hloop]; try done.
  intros u (Hplu & Hplayu & Hlu & Hvis).
  split; [done|]. split; [done|]. split.
  - rewrite Hlu. f_equal. rewrite around_offsets.
    by rewrite (length_filter_fmap (λ d : Z * Z, (row + d.1, col + d.2))
                  (live_mine s)).
  - intros y Hadj Hy Hry Hfy Hby.
    apply elem_of_around in Hadj. rewrite around_offsets in Hadj.
    apply list_elem_of_fmap in Hadj as (d & -> & Hd). by apply Hvis.
Qed.

(** ** Winning and losing *)


(** Every call of [reveal] in a game after mine placement returns, in a
    game after mine placement. *)
Lemma reveal_placed (s : World) (row col : Z) (fuel : nat) :
  placed s = true → inside s (row, col) →
  (hidden_count s + 1 ≤ fuel)%nat →
  ∃ s', reveal fuel row col s = Ok s' ∧ placed s' = true ∧ play s s'
    ∧ losses s' = (losses s + mines_hit s (row, col))%nat.
Proof.
  intros Hpl Hrc Hfuel.
  destruct fuel as [|fuel]; [lia|]. unfold mines_hit. cbn [fst snd].
  destruct (revealed (cell s (row, col))) eqn:Hr.
  - (* a revealed cell: chording *)
    rewrite reveal_S, Hr, andb_false_r.
    pose proof (chord_placed fuel row col s Hpl Hrc Hr) as Hch.
    apply outcome_ok in Hch as (s' & -> & Hs'); [|lia].
    exists s'. split; [done|].
    destruct (_ =? _); [by destruct Hs' as (? & ? & ? & _)|].
    subst s'. split; [done|].
    apply placed_spec in Hpl as (Hg & _).
    split; [by apply play_refl | lia].
  - destruct (flagged (cell s (row, col))) eqn:Hf.
    + rewrite reveal_flagged by (done || lia). exists s.
      split; [done|]. split; [done|].
      pose proof Hpl as (Hg & _)%placed_spec.
      split; [by apply play_refl|].
      rewrite andb_false_r. lia.
    + destruct (bomb (cell s (row, col))) eqn:Hb.
      * rewrite reveal_S, Hr, Hb, Hf. cbn [negb andb].
        destruct (explode_placed row col s Hpl) as (H1 & H2 & H3 & _).
        exists (explode row col s). rewrite H3.
        do 3 (split; [done|]). lia.
      * pose proof (flood (S fuel) row col s Hpl Hrc Hr Hb Hf) as Hfl.
        apply outcome_ok in Hfl as (s' & -> & H1 & H2 & H3 & _); [|lia].
        exists s'. do 3 (split; [done|]). simpl. lia.
Qed.






(** ** From the first click to a placed game *)

(** The first click on a fresh grid places the mines, reveals the safe
    zone, and leaves a game after mine placement. *)
Lemma first_click_placed fuel bomb_coords row col s :
  fresh_game s = true → best_time_ok s = true → inside s (row, col) →
  sample_of (set_difference_list (seqZ 0 (height s * width s))
                                 (def_zone (safe_zone row col s)))
            (cfg_bombs (config s)) bomb_coords = true →
  (hidden_count s + 1 ≤ fuel)%nat →
  ∃ s', on_click fuel bomb_coords row col s = Ok s' ∧ placed s' = true.
Proof.
  intros Hfresh Hbt Hrc Hsample Hfuel.
  pose proof Hfresh as Hf. unfold fresh_game in Hf.
  rewrite !andb_true_iff, bool_decide_eq_true, forallb_elem_of in Hf.
  destruct Hf as [[[Hg Hfc] Hdz] Hcells].
  assert (Hcell0 : ∀ p, inside s p →
            bomb (cell s p) = false ∧ revealed (cell s p) = false).
  { intros p Hp%elem_of_positions. apply Hcells, andb_true_iff in Hp.
    by rewrite !negb_true_iff in Hp. }
  destruct (first_click_setup fuel bomb_coords row col s Hfc Hg Hrc Hsample)
    as (s4 & -> & Hc4 & Hj4 & Hg4 & Hfc4 & Hp4 & Ha4 & Hcell4).
  assert (Hin4 : ∀ p, inside s4 p ↔ inside s p)
    by (intros p; apply inside_same; by rewrite Hc4).
  assert (Hw : 0 < width s) by (destruct Hrc; simpl in *; lia).
  assert (Hpl4 : placed s4 = true).
  { apply placed_spec. split; [done|]. split; [done|].
    split; [|split; [|split]].
    - apply counts_ok_spec. intros p Hp%Hin4. by apply Hcell4.
    - apply cords_ok_spec. rewrite Ha4.
      split; [apply NoDup_set_difference_list|].
      intros x. rewrite elem_of_set_difference_list, elem_of_seqZ.
      unfold lin. rewrite Hc4. split.
      + intros [Hx Hnot].
        destruct (div_mod_inside s x Hw) as [Hin Hlin]; [lia|].
        exists (x `div` width s, x `mod` width s).
        split; [by apply Hin4|]. split; [done|].
        destruct (Hcell4 _ Hin) as (-> & _ & -> & _).
        destruct (Hcell0 _ Hin) as [-> ->]. rewrite Hlin.
        by rewrite bool_decide_eq_false_2.
      + intros (p & Hp%Hin4 & -> & Hb & _).
        pose proof (lin_range s p Hp). split; [unfold lin in *; lia|].
        destruct (Hcell4 _ Hp) as (_ & _ & Hb4 & _).
        rewrite Hb4 in Hb. apply orb_false_iff in Hb as [_ Hb].
        by apply bool_decide_eq_false in Hb.
    - apply no_revealed_bomb_spec. intros p Hp%Hin4.
      destruct (Hcell4 _ Hp) as (-> & _). destruct (Hcell0 _ Hp). congruence.
    - unfold best_time_ok. rewrite Hc4. exact Hbt. }
  assert (Hhc4 : hidden_count s4 = hidden_count s).
  { unfold hidden_count. rewrite (positions_same s s4) by (by rewrite Hc4).
    apply length_filter_ext. intros p Hp%elem_of_positions.
    by destruct (Hcell4 _ Hp) as (-> & _). }
  apply outcome_ok.
  apply (outcome_mono (λ u, placed u = true ∧ evolves s4 u) _
                      (λ _, False) _ False); [tauto|done|done|].
  apply outcome_loops; [split; [done | by apply evolves_refl]|].
  intros dc dr u [Hplu Hevu].
  destruct (in_grid u (row + dr) (col + dc)) eqn:Hgrid; [|done].
  apply in_grid_inside in Hgrid.
  destruct (reveal_placed u (row + dr) (col + dc) fuel Hplu Hgrid)
    as (u' & Hok & Hplu' & _).
  { pose proof (hidden_count_mono _ _ Hevu). lia. }
  pose proof (reveal_evolves fuel (row + dr) (col + dc) u
                (ev_grid _ _ Hevu) Hgrid) as Hev'.
  rewrite Hok in *. simpl in *. split; [done|]. by eapply evolves_trans.
Qed.

(** * Lemmas for the further properties *)

(** ** Binary64 numbers of integers *)

Lemma digits2_pos_bounds (q : positive) :
  2 ^ (Z.pos (SpecFloat.digits2_pos q) - 1) ≤ Z.pos q
  < 2 ^ Z.pos (SpecFloat.digits2_pos q).
Proof.
  induction q as [q IH|q IH|]; cbn [SpecFloat.digits2_pos].
  - rewrite Pos2Z.inj_succ.
    replace (Z.succ (Z.pos (SpecFloat.digits2_pos q)) - 1)
      with (Z.succ (Z.pos (SpecFloat.digits2_pos q) - 1)) by lia.
    rewrite !Z.pow_succ_r by lia. lia.
  - rewrite Pos2Z.inj_succ.
    replace (Z.succ (Z.pos (SpecFloat.digits2_pos q)) - 1)
      with (Z.succ (Z.pos (SpecFloat.digits2_pos q) - 1)) by lia.
    rewrite !Z.pow_succ_r by lia. lia.
  - simpl. lia.
Qed.

Lemma iter_xO_value (q k : positive) :
  Z.pos (Pos.iter xO q k) = Z.pos q * 2 ^ Z.pos k.
Proof.
  induction k as [|k IH] using Pos.peano_ind.
  - simpl. lia.
  - rewrite Pos.iter_succ, Pos2Z.inj_xO, IH, Pos2Z.inj_succ,
      Z.pow_succ_r by lia. lia.
Qed.

Lemma digits2_pos_iter (q k : positive) :
  SpecFloat.digits2_pos (Pos.iter xO q k)
  = (SpecFloat.digits2_pos q + k)%positive.
Proof.
  induction k as [|k IH] using Pos.peano_ind.
  - simpl. lia.
  - rewrite Pos.iter_succ. cbn [SpecFloat.digits2_pos]. rewrite IH. lia.
Qed.

Lemma binary_round_aux_exact (mz : positive) (ez : Z) :
  Z.pos (SpecFloat.digits2_pos mz) = 53 → -52 ≤ ez ≤ 0 →
  SpecFloat.binary_round_aux FloatOps.prec FloatOps.emax false (Z.pos mz) ez
    SpecFloat.loc_Exact
  = SpecFloat.S754_finite false mz ez.
Proof.
  intros Hd He.
  assert (Hshr : ∀ l, SpecFloat.shr_fexp FloatOps.prec FloatOps.emax
                        (Z.pos mz) ez l
                      = (SpecFloat.shr_record_of_loc (Z.pos mz) l, ez)).
  { intros l. unfold SpecFloat.shr_fexp, SpecFloat.Zdigits2, SpecFloat.fexp,
      SpecFloat.emin, FloatOps.prec, FloatOps.emax.
    rewrite Hd.
    replace (Z.max (53 + ez - 53) (3 - 1024 - 53) - ez) with 0 by lia.
    reflexivity. }
  unfold SpecFloat.binary_round_aux. rewrite Hshr. cbn.
  rewrite Hshr. cbn.
  unfold FloatOps.prec, FloatOps.emax.
  destruct (ez <=? 1024 - 53) eqn:E; [done|]. apply Z.leb_gt in E. lia.
Qed.

Lemma float_of_pos (q : positive) :
  Z.pos q < 2 ^ 53 →
  FloatOps.Prim2SF (to_float (Z.pos q))
  = SpecFloat.S754_finite false (mantissa53 q) (exponent53 q).
Proof.
  intros Hq. unfold to_float.
  rewrite FloatAxioms.of_uint63_spec, Uint63.of_Z_spec.
  rewrite Z.mod_small
    by (change Uint63Axioms.wB with (2 ^ 63); split; [lia|];
        assert (2 ^ 53 < 2 ^ 63) by (by apply Z.pow_lt_mono_r); lia).
  pose proof (digits2_pos_bounds q) as [Hlo Hhi].
  assert (Hd : Z.pos (SpecFloat.digits2_pos q) ≤ 53).
  { destruct (Z.le_gt_cases (Z.pos (SpecFloat.digits2_pos q)) 53) as [|Hgt];
      [done|].
    assert (2 ^ 53 ≤ 2 ^ (Z.pos (SpecFloat.digits2_pos q) - 1))
      by (apply Z.pow_le_mono_r; lia).
    lia. }
  cbn [SpecFloat.binary_normalize]. unfold SpecFloat.binary_round.
  unfold SpecFloat.shl_align, SpecFloat.fexp, SpecFloat.emin,
    FloatOps.prec, FloatOps.emax.
  replace (Z.max (Z.pos (SpecFloat.digits2_pos q) + 0 - 53) (3 - 1024 - 53) - 0)
    with (Z.pos (SpecFloat.digits2_pos q) - 53) by lia.
  replace (Z.max (Z.pos (SpecFloat.digits2_pos q) + 0 - 53) (3 - 1024 - 53))
    with (Z.pos (SpecFloat.digits2_pos q) - 53) by lia.
  unfold mantissa53, exponent53.
  destruct (Z.pos (SpecFloat.digits2_pos q) - 53) as [|k|k] eqn:Ek; [|lia|].
  - replace (53 - Z.pos (SpecFloat.digits2_pos q)) with 0 by lia.
    change (FloatOps.prec) with 53. 
    apply (binary_round_aux_exact q 0); lia.
  - replace (53 - Z.pos (SpecFloat.digits2_pos q)) with (Z.pos k) by lia.
    apply binary_round_aux_exact; [|lia].
    rewrite digits2_pos_iter. lia.
Qed.

Lemma float_of_pos_le (a b : positive) :
  Z.pos a ≤ Z.pos b → Z.pos b < 2 ^ 53 →
  exponent53 a < exponent53 b
  ∨ exponent53 a = exponent53 b ∧ (mantissa53 a ≤ mantissa53 b)%positive.
Proof.
  intros Hab Hb. unfold exponent53, mantissa53.
  pose proof (digits2_pos_bounds a) as [Ha1 Ha2].
  pose proof (digits2_pos_bounds b) as [Hb1 Hb2].
  destruct (Z.lt_trichotomy (Z.pos (SpecFloat.digits2_pos a))
                            (Z.pos (SpecFloat.digits2_pos b)))
    as [Hlt|[Heq|Hgt]].
  - left. lia.
  - right. split; [lia|]. rewrite Heq.
    destruct (53 - Z.pos (SpecFloat.digits2_pos b)) as [|k|k]; [lia| |lia].
    assert (Z.pos (Pos.iter xO a k) ≤ Z.pos (Pos.iter xO b k)); [|lia].
    rewrite !iter_xO_value. apply Z.mul_le_mono_nonneg_r; lia.
  - assert (2 ^ Z.pos (SpecFloat.digits2_pos b)
            ≤ 2 ^ (Z.pos (SpecFloat.digits2_pos a) - 1))
      by (apply Z.pow_le_mono_r; lia).
    lia.
Qed.

(** Comparing a float with the float of an integer is monotone in the
    integer. *)
Lemma leb_to_float_mono (x : PrimFloat.float) (a b : Z) :
  0 ≤ a ≤ b → b < 2 ^ 53 →
  PrimFloat.leb x (to_float a) = true → PrimFloat.leb x (to_float b) = true.
Proof.
  intros [Ha Hab] Hb. rewrite !FloatAxioms.leb_spec.
  destruct b as [|b|b]; [| |lia].
  { by replace a with 0 by lia. }
  destruct a as [|a|a]; [|clear Ha|lia].
  - rewrite float_of_pos by done.
    replace (FloatOps.Prim2SF (to_float 0)) with (SpecFloat.S754_zero false)
      by (by vm_compute).
    unfold SpecFloat.SFleb, SpecFloat.SFcompare.
    destruct (FloatOps.Prim2SF x) as [| | |[] ? ?]; done.
  - rewrite !float_of_pos by lia.
    pose proof (float_of_pos_le a b Hab Hb) as Hle.
    unfold SpecFloat.SFleb, SpecFloat.SFcompare.
    destruct (FloatOps.Prim2SF x) as [| | |[] mx ex]; try done.
    change (Pos.compare_cont Eq) with Pos.compare.
    destruct (Z.compare_spec ex (exponent53 a)) as [He|He|He];
      destruct (Z.compare_spec ex (exponent53 b)) as [He'|He'|He'];
      try done; try lia;
      repeat match goal with
             | |- context [Pos.compare ?x ?y] =>
                 destruct (Pos.compare_spec x y)
             | H : context [Pos.compare ?x ?y] |- _ =>
                 destruct (Pos.compare_spec x y)
             end; try done; lia.
Qed.

Lemma mines_limit_spec p m : mines_limit p ≤ m ↔ 4 * p - 45 ≤ 5 * m.
Proof.
  unfold mines_limit.
  pose proof (Z.div_mod (4 * p - 45 + 4) 5 ltac:(lia)).
  pose proof (Z.mod_pos_bound (4 * p - 45 + 4) 5 ltac:(lia)). lia.
Qed.

Lemma float_bound_table :
  forallb (λ p, PrimFloat.leb (float_bound p) (to_float (mines_limit p))
                && negb (PrimFloat.leb (float_bound p)
                                       (to_float (mines_limit p - 1))))
          (seqZ 16 9985) = true.
Proof. vm_compute. reflexivity. Qed.

Lemma too_many_mines_exact (m w h : Z) :
  4 ≤ w ≤ 100 → 4 ≤ h ≤ 100 → 0 ≤ m →
  too_many_mines m w h = false ↔ 5 * m < 4 * (w * h) - 45.
Proof.
  intros Hw Hh Hm.
  assert (Hp : 16 ≤ w * h ≤ 10000) by nia.
  pose proof float_bound_table as Ht.
  rewrite forallb_forall in Ht.
  specialize (Ht (w * h)). 
  rewrite <- list_elem_of_In, elem_of_seqZ in Ht.
  specialize (Ht ltac:(lia)).
  apply andb_true_iff in Ht as [Ht1 Ht2]. apply negb_true_iff in Ht2.
  fold (float_bound (w * h)) in *.
  pose proof (mines_limit_spec (w * h) m) as Hspec.
  assert (Hlim : 1 ≤ mines_limit (w * h) ≤ 8000).
  { pose proof (mines_limit_spec (w * h) 0).
    pose proof (mines_limit_spec (w * h) 8000). lia. }
  unfold too_many_mines. fold (float_bound (w * h)).
  assert (H53 : 8000 < 2 ^ 53) by (by vm_compute).
  destruct (m <? 2 ^ 53) eqn:E.
  - apply Z.ltb_lt in E. split.
    + intros Hleb. destruct (Z.lt_ge_cases m (mines_limit (w * h))) as [|Hge];
        [rewrite <- Z.nle_gt, <- Hspec in *; lia .. |].
      rewrite (leb_to_float_mono _ (mines_limit (w * h)) m) in Hleb;
        [done|lia|done|done].
    + intros Hlt. destruct (PrimFloat.leb _ (to_float m)) eqn:Hleb; [|done].
      rewrite (leb_to_float_mono _ m (mines_limit (w * h) - 1)) in Ht2;
        [done| |lia|done].
      assert (¬ mines_limit (w * h) ≤ m) by (rewrite Hspec; lia). lia.
  - apply Z.ltb_ge in E. split; [done|]. lia.
Qed.

(** ** The settings form *)

Lemma all_chars_impl (p q : ascii → bool) s :
  (∀ a, p a = true → q a = true) →
  all_chars p s = true → all_chars q s = true.
Proof.
  intros Hpq. induction s as [|a s IH]; simpl; [done|].
  rewrite !andb_true_iff. intros [Ha Hs]. auto.
Qed.

Lemma decimal_value_nonneg s acc :
  0 ≤ acc → all_chars is_decimal s = true → 0 ≤ decimal_value acc s.
Proof.
  revert acc. induction s as [|a s IH]; intros acc Hacc; simpl; [done|].
  rewrite andb_true_iff. intros [Ha Hs]. apply IH; [|done].
  unfold is_decimal in Ha. apply andb_true_iff in Ha as [Ha _].
  apply Z.leb_le in Ha. lia.
Qed.

Lemma int_of_str_Some s n :
  int_of_str s = Some n → isdigit s = true ∧ 0 ≤ n.
Proof.
  unfold int_of_str, isdigit.
  destruct (negb (bool_decide (s = EmptyString))); [|done]. simpl.
  destruct (all_chars is_decimal s) eqn:Hd; [|done]. intros [= <-].
  split; [|by apply decimal_value_nonneg].
  apply (all_chars_impl is_decimal); [|done].
  intros a Ha. unfold is_digit_char. by rewrite Ha.
Qed.

Lemma validate_custom_inr f h w m :
  validate_custom f = inr (h, w, m) ↔
  int_of_str (custom_height f) = Some h
  ∧ int_of_str (custom_width f) = Some w
  ∧ int_of_str (custom_mines f) = Some m
  ∧ 4 ≤ h ≤ 100 ∧ 4 ≤ w ≤ 100 ∧ 1 ≤ m
  ∧ 5 * m < 4 * (w * h) - 45.
Proof.
  unfold validate_custom. split.
  - destruct (negb _); [done|].
    destruct (int_of_str (custom_height f)) as [h'|] eqn:Hh; [|done].
    destruct (int_of_str (custom_width f)) as [w'|] eqn:Hw; [|done].
    destruct (int_of_str (custom_mines f)) as [m'|] eqn:Hm; [|done].
    destruct (_ || _) eqn:Hrange; [done|].
    destruct (too_many_mines m' w' h') eqn:Htoo; [done|].
    destruct (m' <? 1) eqn:Hone; [done|]. intros [= -> -> ->].
    rewrite !orb_false_iff, !Z.ltb_ge in Hrange. apply Z.ltb_ge in Hone.
    destruct (int_of_str_Some _ _ Hm) as [_ Hm0].
    apply too_many_mines_exact in Htoo; [|lia..].
    split_and!; try done; lia.
  - intros (Hh & Hw & Hm & Hhr & Hwr & Hm1 & Hlim).
    destruct (int_of_str_Some _ _ Hh) as [-> _].
    destruct (int_of_str_Some _ _ Hw) as [-> _].
    destruct (int_of_str_Some _ _ Hm) as [-> _].
    rewrite Hh, Hw, Hm. simpl.
    replace ((h <? 4) || (w <? 4) || (100 <? h) || (100 <? w)) with false
      by (symmetry; rewrite !orb_false_iff, !Z.ltb_ge; lia).
    rewrite (proj2 (too_many_mines_exact m w h Hwr Hhr ltac:(lia)) Hlim).
    by replace (m <? 1) with false by (symmetry; apply Z.ltb_ge; lia).
Qed.

(** What [apply_settings] does when it shows no error. *)
Lemma apply_settings_accepted f s :
  selected_diff f ≠ "custom"%string
  ∨ is_Some (difficulties (config s) !! "custom"%string)
    ∧ (∃ hwm, validate_custom f = inr hwm) →
  let c := set_current_theme (selected_theme f)
             (set_current_diff (selected_diff f) (config s)) in
  let c' := if bool_decide (selected_diff f = "custom"%string) then
              match validate_custom f with
              | inr (h, w, m) =>
                set_difficulties
                  (<["custom"%string := mkDifficulty w h m]> (difficulties c))
                  c
              | inl _ => c
              end
            else c in
  apply_settings f s = set_config c' (set_config_json c' s).
Proof.
  intros H. unfold apply_settings. cbv zeta.
  case_bool_decide as Hd.
  - destruct H as [H | [[d Hc] [[[h w] m] Hv]]]; [done|].
    rewrite Hv. cbn [config set_config]. unfold set_current_theme at 1.
    cbn [difficulties set_current_diff set_current_theme]. rewrite Hc.
    reflexivity.
  - reflexivity.
Qed.

(** ** The buttons of the grid *)

Lemma buttons_ok_spec s :
  buttons_ok s = true ↔
  length (buttons s) = Z.to_nat (height s)
  ∧ Forall (λ row, length row = Z.to_nat (width s)) (buttons s).
Proof.
  unfold buttons_ok. rewrite andb_true_iff, bool_decide_eq_true.
  rewrite forallb_elem_of, Forall_forall.
  by setoid_rewrite bool_decide_eq_true.
Qed.

Lemma lookup2_button_inside s p :
  buttons_ok s = true → inside s p → is_Some (lookup2 (buttons s) p.1 p.2).
Proof.
  intros [Hlen Hrows]%buttons_ok_spec [Hr Hc]. unfold lookup2.
  destruct (lookup_lt_is_Some_2 (buttons s) (Z.to_nat p.1)) as [row Hrow];
    [lia|].
  rewrite Hrow. simpl. apply lookup_lt_is_Some_2.
  rewrite Forall_lookup in Hrows. rewrite (Hrows _ _ Hrow). lia.
Qed.

(** Reading a button after [buttons[r][c]] was configured. *)
Lemma button_update2 s s' f r c p :
  buttons_ok s = true → inside s (r, c) → inside s p →
  buttons s' = update2 f r c (buttons s) →
  button s' p = if bool_decide ((r, c) = p) then f (button s p)
                else button s p.
Proof.
  intros Hg Hrc Hp Hf. unfold button, button_at. rewrite Hf.
  destruct Hrc as [Hr Hc], Hp as [Hr' Hc']. simpl in *.
  rewrite lookup2_update2 by lia.
  destruct p as [r' c']; simpl in *.
  destruct (lookup2_button_inside s (r, c) Hg) as [x Hx]; [done|].
  simpl in Hx.
  repeat case_bool_decide; try done.
  - destruct_and!; simplify_eq. by rewrite Hx.
  - destruct_and!; simplify_eq.
  - simplify_eq. tauto.
Qed.

Lemma buttons_ok_update2 s s' f r c :
  buttons_ok s = true → cfg_diff (config s') = cfg_diff (config s) →
  buttons s' = update2 f r c (buttons s) → buttons_ok s' = true.
Proof.
  rewrite !buttons_ok_spec. unfold cfg_width, cfg_height.
  intros [Hl Hr] Hc Hf. rewrite Hc, Hf.
  split; [by rewrite length_update2 | by apply update2_rows].
Qed.

Lemma buttons_ok_same s s' :
  buttons_ok s = true → cfg_diff (config s') = cfg_diff (config s) →
  buttons s' = buttons s → buttons_ok s' = true.
Proof.
  rewrite !buttons_ok_spec. unfold cfg_width, cfg_height.
  intros [Hl Hr] Hc Hf. by rewrite Hc, Hf.
Qed.

Lemma rendered_spec s :
  rendered s = true ↔
  grid_ok s = true ∧ buttons_ok s = true
  ∧ ∀ p, inside s p → shows (cell s p) (button s p) = true.
Proof.
  unfold rendered. rewrite !andb_true_iff, forallb_elem_of.
  setoid_rewrite elem_of_positions. tauto.
Qed.

(** States with the same field, buttons and grid size look the same. *)
Lemma rendered_same s s' :
  rendered s = true → cfg_diff (config s') = cfg_diff (config s) →
  field s' = field s → buttons s' = buttons s → rendered s' = true.
Proof.
  rewrite !rendered_spec. intros (Hg & Hb & Hsh) Hc Hf Hbt.
  split; [by eapply grid_ok_same|]. split; [by eapply buttons_ok_same|].
  intros p Hp%(inside_same s s' p Hc).
  unfold cell, cell_at, button, button_at. rewrite Hf, Hbt. by apply Hsh.
Qed.

(** Cells and buttons changed at one position only. *)
Lemma rendered_update s s' r c (fc : Cell → Cell) (fb : Button → Button) :
  rendered s = true → inside s (r, c) →
  cfg_diff (config s') = cfg_diff (config s) →
  field s' = update2 fc r c (field s) →
  buttons s' = update2 fb r c (buttons s) →
  shows (fc (cell s (r, c))) (fb (button s (r, c))) = true →
  rendered s' = true.
Proof.
  rewrite !rendered_spec. intros (Hg & Hb & Hsh) Hrc Hc Hf Hbt Hnew.
  split; [by eapply grid_ok_update2|].
  split; [by eapply buttons_ok_update2|].
  intros p Hp%(inside_same s s' p Hc).
  rewrite (cell_update2 s s' fc r c p), (button_update2 s s' fb r c p)
    by done.
  case_bool_decide; [by subst p | by apply Hsh].
Qed.

(** ** What [mark_revealed] paints *)

(** The button of a cell with count [n] after it was revealed. *)
Lemma mark_revealed_eq r c s l :
  grid_ok s = true → inside s (r, c) →
  list_remove (r * width s + c) (all_cords s) = Some l →
  let n := neighbor_bombs (cell s (r, c)) in
  let paint b :=
    if 1 <=? n
    then set_btn_text n (set_btn_text_color (number_color n)
                           (set_fg_color pressed_color b))
    else set_fg_color pressed_color b in
  let s1 := set_buttons (update2 paint r c (buttons s))
              (set_all_cords l
                 (set_field (update2 (set_revealed true) r c (field s)) s)) in
  mark_revealed r c s
  = match l with
    | [] => bind (check_best (EndGamePopup true s1)) (λ s, Ok (stop_timer s))
    | _ :: _ => Ok s1
    end.
Proof.
  intros Hg Hrc Hrm n paint s1. unfold mark_revealed. cbv zeta.
  set (sa := set_field (update2 (set_revealed true) r c (field s)) s).
  change (width sa) with (width s).
  change (all_cords sa) with (all_cords s). rewrite Hrm.
  set (sb := set_buttons _ (set_all_cords l sa)).
  assert (Hn : neighbor_bombs (cell_at sb r c) = n).
  { change (cell_at sb r c) with (cell sa (r, c)).
    rewrite (cell_update2 s sa (set_revealed true) r c (r, c)) by done.
    by rewrite bool_decide_eq_true_2. }
  rewrite Hn.
  assert (Hs1 : (if 1 <=? n
                 then set_buttons
                        (update2 (set_btn_text n) r c
                           (buttons
                              (set_buttons
                                 (update2 (set_btn_text_color (number_color n))
                                          r c (buttons sb)) sb)))
                        (set_buttons
                           (update2 (set_btn_text_color (number_color n))
                                    r c (buttons sb)) sb)
                 else sb) = s1).
  { unfold s1, paint. destruct (1 <=? n); [|done].
    unfold sb. cbn [buttons set_buttons].
    rewrite !update2_compose. reflexivity. }
  rewrite Hs1. unfold s1 at 1. cbn [all_cords set_buttons set_all_cords].
  reflexivity.
Qed.

Lemma shows_inside s p :
  rendered s = true → inside s p → shows (cell s p) (button s p) = true.
Proof. intros (_ & _ & H)%rendered_spec. apply H. Qed.

Lemma mark_revealed_display r c s :
  grid_ok s = true → inside s (r, c) →
  revealed (cell s (r, c)) = false →
  outcome (λ u, counters u = counters s
                ∧ (rendered s = true → rendered u = true))
          (λ u, counters u = counters s) False
          (mark_revealed r c s).
Proof.
  intros Hg Hrc Hh.
  destruct (list_remove (r * width s + c) (all_cords s)) as [l|] eqn:Hrm.
  2:{ unfold mark_revealed. cbv zeta.
      change (list_remove _ _) with
        (list_remove (r * width s + c) (all_cords s)).
      by rewrite Hrm. }
  rewrite (mark_revealed_eq r c s l) by done. cbv zeta.
  set (n := neighbor_bombs (cell s (r, c))).
  set (paint := λ b, if 1 <=? n then _ else set_fg_color pressed_color b).
  set (s1 := set_buttons _ _).
  assert (Hrd1 : rendered s = true → rendered s1 = true).
  { intros Hrd.
    apply (rendered_update s s1 r c (set_revealed true) paint);
      try done.
    pose proof (shows_inside s (r, c) Hrd Hrc) as Hsh.
    unfold shows in *. rewrite Hh in Hsh. cbn [revealed set_revealed].
    apply andb_true_iff in Hsh as [Htxt _].
    apply bool_decide_eq_true in Htxt.
    cbn [neighbor_bombs]. unfold paint, n.
    destruct (1 <=? neighbor_bombs (cell s (r, c))) eqn:E; cbn;
      rewrite ?E, ?Htxt; repeat case_bool_decide; done. }
  destruct l as [|x l]; [|done].
  destruct (check_best_cases (EndGamePopup true s1)) as [-> | [[e ->] | ->]];
    simpl; [|done|]; (split; [done|]); intros Hrd;
    by apply (rendered_same s1); [apply Hrd1|..].
Qed.

Lemma explode_rendered r c s :
  rendered s = true → inside s (r, c) →
  revealed (cell s (r, c)) = false → flagged (cell s (r, c)) = false →
  bomb (cell s (r, c)) = true →
  rendered (explode r c s) = true.
Proof.
  intros Hrd Hrc Hh Hf Hb.
  apply (rendered_update s _ r c (λ x, x) (set_fg_color mines_color));
    try done.
  - by rewrite update2_id.
  - pose proof (shows_inside s (r, c) Hrd Hrc) as Hsh.
    unfold shows in *. rewrite Hh, Hf in *. rewrite Hb. cbn.
    apply andb_true_iff in Hsh as [-> _]. by rewrite orb_true_r.
Qed.

(** Whatever [reveal] does, the buttons keep showing the cells; the
    mine counter, its label and the error dialogs are not touched. *)
Lemma reveal_display fuel :
  ∀ row col s, grid_ok s = true → inside s (row, col) →
  outcome (λ u, counters u = counters s
                ∧ (rendered s = true → rendered u = true))
          (λ u, counters u = counters s) True
          (reveal fuel row col s).
Proof.
  induction fuel as [|fuel IH]; intros row col s Hg Hrc; [done|].
  set (J := λ u, evolves s u ∧ counters u = counters s
                 ∧ (rendered s = true → rendered u = true)).
  assert (HJ : J s) by (split; [by apply evolves_refl|done]).
  assert (Hcall : ∀ r c u, J u → in_grid u r c = true →
            outcome J (λ u, counters u = counters s) True
                    (reveal fuel r c u)).
  { intros r c u (Hev & Hcu & Hru) Hin%in_grid_inside.
    pose proof (outcome_and _ _ _ _ _ _ _
                  (reveal_evolves fuel r c u (ev_grid _ _ Hev) Hin)
                  (IH r c u (ev_grid _ _ Hev) Hin)) as Hboth.
    eapply outcome_mono; [| | |exact Hboth]; simpl.
    - intros u' [Hev' [Hc' Hr']]. split; [by eapply evolves_trans|].
      split; [congruence|auto].
    - intros u' [_ Hc']. congruence.
    - done. }
  assert (Hend : outcome J (λ u, counters u = counters s) True
                         (reveal (S fuel) row col s)).
  { rewrite reveal_S.
    destruct (bomb (cell s (row, col))) eqn:Hb,
             (revealed (cell s (row, col))) eqn:Hr,
             (flagged (cell s (row, col))) eqn:Hf; simpl;
      try done;
      try (apply try_chord_with_outcome; [done|]; by auto).
    - split; [by apply evolves_explode|]. split; [done|].
      intros Hrd. by apply explode_rendered.
    - eapply outcome_bind.
      + pose proof (outcome_and _ _ _ _ _ _ _
                      (mark_revealed_evolves row col s Hg Hrc Hr Hb Hf)
                      (mark_revealed_display row col s Hg Hrc Hr)) as Hboth.
        eapply (outcome_mono _ J _ (λ u, counters u = counters s) _ True);
          [| | |exact Hboth]; simpl.
        * intros u [[Hev _] [Hc' Hr']]. done.
        * intros u [_ Hc']. done.
        * tauto.
      + intros s1 Hs1. simpl. destruct (_ =? 0); [|done].
        apply spread_with_outcome; [done|]. auto. }
  eapply outcome_mono; [| | |exact Hend]; try done.
  intros u (_ & ? & ?). done.
Qed.

(** ** Games in progress *)







(** ** Flags and the mine counter *)

(** [set_flag] writes the field, the buttons, the counter and its
    label, and nothing else. *)
Lemma set_flag_frame row col s :
  let s' := set_flag row col s in
  config s' = config s ∧ config_json s' = config_json s
  ∧ first_click s' = first_click s ∧ running s' = running s
  ∧ time_elapsed s' = time_elapsed s ∧ def_zone s' = def_zone s
  ∧ all_cords s' = all_cords s ∧ danger_cords s' = danger_cords s
  ∧ popups s' = popups s ∧ error_dialogs s' = error_dialogs s.
Proof.
  unfold set_flag. destruct (negb _); [|done].
  by destruct (flagged _).
Qed.

Lemma set_flag_cells row col s p :
  grid_ok s = true → inside s (row, col) → inside s p →
  bomb (cell (set_flag row col s) p) = bomb (cell s p)
  ∧ revealed (cell (set_flag row col s) p) = revealed (cell s p)
  ∧ neighbor_bombs (cell (set_flag row col s) p) = neighbor_bombs (cell s p).
Proof.
  intros Hg Hrc Hp. rewrite set_flag_cell by done.
  by destruct (_ && _).
Qed.



(** Toggling a flag moves the counter by one the other way. *)
Lemma set_flag_total row col s :
  grid_ok s = true → inside s (row, col) →
  mines (set_flag row col s) + Z.of_nat (flag_total (set_flag row col s))
  = mines s + Z.of_nat (flag_total s).
Proof.
  intros Hg Hrc.
  pose proof (set_flag_frame row col s) as (Hc & _).
  assert (Hcell := λ p, set_flag_cell row col s p Hg Hrc).
  destruct (revealed (cell s (row, col))) eqn:Hr.
  { unfold set_flag. change (cell_at s row col) with (cell s (row, col)).
    by rewrite Hr. }
  unfold flag_total. rewrite (positions_same s (set_flag row col s))
    by (by rewrite Hc).
  assert (Hm : mines (set_flag row col s)
               = if flagged (cell s (row, col))
                 then mines s + 1 else mines s - 1).
  { rewrite (set_flag_eq row col s Hg Hrc Hr). done. }
  rewrite Hm.
  destruct (flagged (cell s (row, col))) eqn:Hf.
  - rewrite (length_filter_remove_one
               (λ p, flagged (cell (set_flag row col s) p))
               (λ p, flagged (cell s p)) (positions s) (row, col)).
    + lia.
    + apply NoDup_positions.
    + by apply elem_of_positions.
    + by rewrite Hf.
    + rewrite Hcell by done. rewrite bool_decide_eq_true_2, Hr, Hf by done.
      simpl. by intros ?.
    + intros p Hp%elem_of_positions Hne. rewrite Hcell by done.
      by rewrite bool_decide_eq_false_2.
  - rewrite (length_filter_remove_one
               (λ p, flagged (cell s p))
               (λ p, flagged (cell (set_flag row col s) p))
               (positions s) (row, col)).
    + lia.
    + apply NoDup_positions.
    + by apply elem_of_positions.
    + rewrite Hcell by done. by rewrite bool_decide_eq_true_2, Hr, Hf by done.
    + rewrite Hf. by intros ?.
    + intros p Hp%elem_of_positions Hne. rewrite Hcell by done.
      by rewrite bool_decide_eq_false_2.
Qed.



(** ** The first click, in full *)







(** ** Runs of events *)












(** ** Starting a game *)




(** ** The settings screen and the game *)


(** ** Writing and reading back an integer *)

Lemma decimal_value_uint_acc (d : Decimal.uint) (acc : positive) :
  decimal_value (Z.pos acc) (DecimalString.NilEmpty.string_of_uint d)
  = Z.pos (Pos.of_uint_acc d acc).
Proof.
  revert acc. induction d; intros acc; simpl; [done|..];
    rewrite <- IHd; f_equal; unfold code_point; simpl; lia.
Qed.

Lemma decimal_value_uint (d : Decimal.uint) :
  decimal_value 0 (DecimalString.NilEmpty.string_of_uint d)
  = Z.of_N (Pos.of_uint d).
Proof.
  induction d; simpl; [done|exact IHd|..];
    unfold code_point; simpl; apply decimal_value_uint_acc.
Qed.

Lemma all_chars_decimal_uint (d : Decimal.uint) :
  all_chars is_decimal (DecimalString.NilEmpty.string_of_uint d) = true.
Proof. induction d; simpl; [done|..]; exact IHd. Qed.

Lemma int_of_str_str_of_int (n : Z) :
  0 ≤ n → int_of_str (str_of_int n) = Some n.
Proof.
  intros Hn. destruct n as [|p|p]; [done| |lia].
  unfold str_of_int, Z.to_int, DecimalString.NilZero.string_of_int.
  pose proof (DecimalPos.Unsigned.of_to p) as Hp.
  unfold DecimalString.NilZero.string_of_uint.
  destruct (Pos.to_uint p) as [|u|u|u|u|u|u|u|u|u|u] eqn:Hu; [done|..];
    unfold int_of_str;
    (rewrite bool_decide_eq_false_2 by done);
    rewrite all_chars_decimal_uint; cbn [negb andb];
    by rewrite decimal_value_uint, Hp.
Qed.

Lemma str_of_int_negative (n : Z) : n < 0 → isdigit (str_of_int n) = false.
Proof. intros Hn. destruct n as [|p|p]; [lia|lia|done]. Qed.

Lemma set_current_id (c : ConfigData) :
  set_current_theme (current_theme c) (set_current_diff (current_diff c) c)
  = c.
Proof. by destruct c. Qed.

(** Pressing Apply on the form as the screen opened it. *)
Lemma apply_untouched f s :
  config_frame_init s = Some f →
  current_diff (config s) ≠ "custom"%string
  ∨ (∃ d, difficulties (config s) !! "custom"%string = Some d
          ∧ 4 ≤ d_height d ≤ 100 ∧ 4 ≤ d_width d ≤ 100 ∧ 1 ≤ d_mines d
          ∧ 5 * d_mines d < 4 * (d_width d * d_height d) - 45) →
  apply_settings f s = set_config_json (config s) s.
Proof.
  unfold config_frame_init.
  destruct (difficulties (config s) !! "custom"%string) as [d|] eqn:Hd;
    [|done].
  intros [= <-] Hcase.
  rewrite apply_settings_accepted; cbn [selected_diff selected_theme
    custom_height custom_width custom_mines].
  - rewrite set_current_id. case_bool_decide as Hcur.
    + destruct Hcase as [Hcase | (d' & [= <-] & Hh & Hw & Hm & Hlim)];
        [done|].
      rewrite (proj2 (validate_custom_inr _ (d_height d) (d_width d)
                        (d_mines d))).
      * rewrite insert_id by (by destruct d).
        assert (Hs : set_difficulties (difficulties (config s)) (config s)
                     = config s) by (by destruct (config s)).
        rewrite Hs. by destruct s.
      * cbn. rewrite !int_of_str_str_of_int by lia. done.
    + by destruct s.
  - destruct Hcase as [Hcase | (d' & [= <-] & Hh & Hw & Hm & Hlim)];
      [by left|].
    right. split; [done|]. exists (d_height d, d_width d, d_mines d).
    apply validate_custom_inr. cbn.
    rewrite !int_of_str_str_of_int by lia. done.
Qed.

(** ** Best times *)


(** ** A first click whose draw fails *)

Lemma on_click_sample_error fuel bomb_coords row col s :
  first_click s = true →
  cfg_bombs (config s) < 0
  ∨ Z.of_nat (length (set_difference_list (seqZ 0 (height s * width s))
                        (def_zone (safe_zone row col s))))
    < cfg_bombs (config s) →
  on_click fuel bomb_coords row col s
  = Raise (ValueError "Sample larger than population or is negative")
      (set_danger_cords
         (set_difference_list (seqZ 0 (height s * width s))
                              (def_zone (safe_zone row col s)))
         (set_all_cords (seqZ 0 (height s * width s))
            (set_first_click false (safe_zone row col s)))).
Proof.
  intros Hfc Hbad. unfold on_click. rewrite Hfc. unfold place_bombs.
  cbn [config all_cords def_zone danger_cords set_all_cords set_danger_cords
       set_first_click].
  rewrite !safe_zone_config.
  assert (Hif : (cfg_bombs (config s) <? 0)
                || (Z.of_nat (length (set_difference_list
                                        (seqZ 0 (height s * width s))
                                        (def_zone (safe_zone row col s))))
                    <? cfg_bombs (config s)) = true).
  { apply orb_true_iff. rewrite !Z.ltb_lt. tauto. }
  by rewrite Hif.
Qed.

(** * Further properties of the application *)

(** ** The settings screen *)






(** X6. Pressing Apply on the settings form as the screen opened it
    changes nothing in memory and writes the dictionary to the file,
    provided the current difficulty is not custom or the stored custom
    preset satisfies the validation rules: the numbers written into the
    text fields by [str] are read back by [int] unchanged. *)
Theorem apply_untouched_form (f : ConfigForm) (s : World) :
  config_frame_init s = Some f →
  current_diff (config s) ≠ "custom"%string
  ∨ (∃ d, difficulties (config s) !! "custom"%string = Some d
          ∧ 4 ≤ d_height d ≤ 100 ∧ 4 ≤ d_width d ≤ 100 ∧ 1 ≤ d_mines d
          ∧ 5 * d_mines d < 4 * (d_width d * d_height d) - 45) →
  config (apply_settings f s) = config s
  ∧ config_json (apply_settings f s) = config s
  ∧ error_dialogs (apply_settings f s) = error_dialogs s.
Proof.
  intros Hf Hcase. by rewrite (apply_untouched f s Hf Hcase).
Qed.

(** ** The game screen *)




(** X10. A right click on a cell of the grid does nothing to a
    revealed cell; on a hidden cell it toggles the flag of that cell
    only, moves the mine counter by one the other way (so the counter
    plus the number of flags stays the same), writes the label from the
    counter ("Are you dumb?" below zero) and leaves mines, counts,
    revealed marks and the rest of the game alone. *)
Theorem set_flag_counter (s : World) (row col : Z) :
  grid_ok s = true → inside s (row, col) →
  let s' := set_flag row col s in
  mines s' + Z.of_nat (flag_total s') = mines s + Z.of_nat (flag_total s)
  ∧ (revealed (cell s (row, col)) = true → s' = s)
  ∧ (revealed (cell s (row, col)) = false →
     flagged (cell s' (row, col)) = negb (flagged (cell s (row, col)))
     ∧ mines_label s' = mines_text (mines s'))
  ∧ (∀ p, inside s p → p ≠ (row, col) → cell s' p = cell s p)
  ∧ (∀ p, inside s p →
       bomb (cell s' p) = bomb (cell s p)
       ∧ revealed (cell s' p) = revealed (cell s p)
       ∧ neighbor_bombs (cell s' p) = neighbor_bombs (cell s p))
  ∧ (config s', config_json s', first_click s', running s',
     time_elapsed s', all_cords s', popups s')
    = (config s, config_json s, first_click s, running s,
       time_elapsed s, all_cords s, popups s).
Proof.
  intros Hg Hrc. cbv zeta.
  pose proof (set_flag_frame row col s)
    as (Hc & Hj & Hfc & Hrn & Hte & _ & Ha & _ & Hpp & _).
  split; [by apply set_flag_total|]. split; [|split; [|split; [|split]]].
  - intros Hr. unfold set_flag.
    change (cell_at s row col) with (cell s (row, col)). by rewrite Hr.
  - intros Hr. split.
    + rewrite set_flag_cell by done.
      by rewrite bool_decide_eq_true_2, Hr by done.
    + by rewrite (set_flag_eq row col s Hg Hrc Hr).
  - intros p Hp Hne. rewrite set_flag_cell by done.
    by rewrite bool_decide_eq_false_2 by congruence.
  - intros p Hp. by apply set_flag_cells.
  - by rewrite Hc, Hj, Hfc, Hrn, Hte, Ha, Hpp.
Qed.


(** X12. When the draw of the first click is impossible (the
    difficulty asks for more mines than there are cells outside the
    clicked block, or for a negative number), [on_click] raises the
    ValueError of [random.sample] after it has cleared [first_click]:
    no mine is placed, no count computed, no cell revealed and the
    timer not started, [all_cords] lists every cell, and every later
    click is handled as an ordinary reveal on that field. *)
Theorem first_click_sample_error (s : World) (row col : Z)
    (bomb_coords : list Z) (fuel : nat) :
  first_click s = true →
  cfg_bombs (config s) < 0
  ∨ Z.of_nat (length (set_difference_list (seqZ 0 (height s * width s))
                        (def_zone (safe_zone row col s))))
    < cfg_bombs (config s) →
  ∃ s', on_click fuel bomb_coords row col s
        = Raise (ValueError "Sample larger than population or is negative")
                s'
    ∧ first_click s' = false
    ∧ field s' = field s ∧ buttons s' = buttons s
    ∧ running s' = running s ∧ time_elapsed s' = time_elapsed s
    ∧ popups s' = popups s ∧ config s' = config s
    ∧ all_cords s' = seqZ 0 (height s * width s)
    ∧ ∀ fuel' bomb_coords' row' col',
        on_click fuel' bomb_coords' row' col' s' = reveal fuel' row' col' s'.
Proof.
  intros Hfc Hbad. eexists.
  split; [by apply on_click_sample_error|].
  cbn [first_click field buttons running time_elapsed popups config
       all_cords set_danger_cords set_all_cords set_first_click].
  rewrite safe_zone_eq. split_and!; done.
Qed.


(** X14. However a call of [reveal] on a cell of a rectangular grid
    ends (it returns, raises, or the model runs out of fuel), it has not
    moved a mine, changed a flag or a neighbour count, resized the grid
    or hidden a revealed cell, every cell it has revealed held neither
    a mine nor a flag, and the mine counter, its label and the error
    dialogs are as before. *)
Theorem reveal_changes_only_reveals (s : World) (row col : Z) (fuel : nat) :
  grid_ok s = true → inside s (row, col) →
  outcome (λ u, evolves s u ∧ counters u = counters s)
          (λ u, evolves s u ∧ counters u = counters s) True
          (reveal fuel row col s).
Proof.
  intros Hg Hrc.
  pose proof (outcome_and _ _ _ _ _ _ _
                (reveal_evolves fuel row col s Hg Hrc)
                (reveal_display fuel row col s Hg Hrc)) as H.
  eapply outcome_mono; [| | |exact H]; simpl; try done.
  intros u [? [? _]]. done.
Qed.


(** * The properties on the small game *)

(** C7 (the code departs from it). [try_chord] is documented to work
    only on revealed cells with a number, but [reveal] calls it on every
    revealed cell and [try_chord] does not look at the number: in the
    small game, after the corner (0,0) was opened, clicking the revealed
    zero-count cell (0,1) reveals the hidden cell (0,2) and wins the
    game. *)
Theorem reveal_on_revealed_zero_count_chords :
  placed small_corner = true
  ∧ revealed (cell small_corner (0, 1)) = true
  ∧ neighbor_bombs (cell small_corner (0, 1)) = 0
  ∧ revealed (cell small_corner (0, 2)) = false
  ∧ all_cords small_corner = [2] ∧ popups small_corner = []
  ∧ ∃ s', reveal 20 0 1 small_corner = Ok s'
          ∧ revealed (cell s' (0, 2)) = true
          ∧ all_cords s' = [] ∧ popups s' = [true] ∧ running s' = false.
Proof.
  do 6 (split; [vm_compute; reflexivity|]).
  eexists. split; [vm_compute; reflexivity|].
  repeat split; vm_compute; reflexivity.
Qed.

Lemma first_click_placement_witness :
  fresh_game small_flagged = true ∧ inside small_flagged (1, 1)
  ∧ 0 ≤ cfg_bombs (config small_flagged)
  ∧ 5 * cfg_bombs (config small_flagged)
    < 4 * (width small_flagged * height small_flagged) - 45
  ∧ sample_of (set_difference_list
                 (seqZ 0 (height small_flagged * width small_flagged))
                 (def_zone (safe_zone 1 1 small_flagged)))
              (cfg_bombs (config small_flagged)) [15] = true
  ∧ ∃ s', place_bombs [15] (safe_zone 1 1 small_flagged) = Ok s'
      ∧ (∀ q, q ∈ around (1, 1) → inside small_flagged q →
              bomb (cell s' q) = false)
      ∧ Z.of_nat (mine_total s') = cfg_bombs (config small_flagged).
Proof.
  assert (H1 : fresh_game small_flagged = true) by (vm_compute; reflexivity).
  assert (H2 : inside small_flagged (1, 1))
    by (apply in_grid_inside; vm_compute; reflexivity).
  assert (H3 : 0 ≤ cfg_bombs (config small_flagged))
    by (apply Z.leb_le; vm_compute; reflexivity).
  assert (H4 : 5 * cfg_bombs (config small_flagged)
               < 4 * (width small_flagged * height small_flagged) - 45)
    by (apply Z.ltb_lt; vm_compute; reflexivity).
  assert (H5 : sample_of
                 (set_difference_list
                    (seqZ 0 (height small_flagged * width small_flagged))
                    (def_zone (safe_zone 1 1 small_flagged)))
                 (cfg_bombs (config small_flagged)) [15] = true)
    by (vm_compute; reflexivity).
  exact (conj H1 (conj H2 (conj H3 (conj H4 (conj H5
           (proj2 (first_click_placement small_flagged 1 1 H1 H2 H3 H4)
                  [15] H5)))))).
Defined.





Lemma calculate_neighbor_bombs_correct_witness :
  grid_ok small_clicked = true ∧ inside small_clicked (2, 2)
  ∧ bomb (cell (calculate_neighbor_bombs small_clicked) (2, 2)) = false
  ∧ neighbor_bombs (cell (calculate_neighbor_bombs small_clicked) (2, 2))
    = mines_around (calculate_neighbor_bombs small_clicked) (2, 2).
Proof.
  assert (H1 : grid_ok small_clicked = true) by (vm_compute; reflexivity).
  assert (H2 : inside small_clicked (2, 2))
    by (apply in_grid_inside; vm_compute; reflexivity).
  assert (H3 : bomb (cell (calculate_neighbor_bombs small_clicked) (2, 2))
               = false) by (vm_compute; reflexivity).
  exact (conj H1 (conj H2 (conj H3
           (calculate_neighbor_bombs_correct small_clicked (2, 2)
              H1 H2 H3)))).
Defined.

Lemma apply_settings_invalid_witness :
  selected_diff narrow_form = "custom"%string
  ∧ validate_custom narrow_form
    = inl "The field is too small or big. Min/max value is 4/100."%string
  ∧ config_json (apply_settings narrow_form initial_world)
    = config_json initial_world
  ∧ current_diff (config (apply_settings narrow_form initial_world))
    = "custom"%string
  ∧ config (ok_settings narrow_form initial_world)
    = config_json initial_world.
Proof.
  assert (H1 : selected_diff narrow_form = "custom"%string) by reflexivity.
  assert (H2 : validate_custom narrow_form
               = inl "The field is too small or big. Min/max value is 4/100."%string)
    by (vm_compute; reflexivity).
  pose proof (apply_settings_invalid narrow_form initial_world _ H1 H2)
    as (Ha & _ & _ & Hb & _ & _ & _ & Hc).
  exact (conj H1 (conj H2 (conj Ha (conj Hb Hc)))).
Defined.

(** C6 as it was stated fails: the rejected form has already replaced
    the in-memory current difficulty and theme. *)
Lemma apply_settings_invalid_changes_memory :
  validate_custom narrow_form
  = inl "The field is too small or big. Min/max value is 4/100."%string
  ∧ current_diff (config initial_world) = "easy"%string
  ∧ current_theme (config initial_world) = "dark"%string
  ∧ current_diff (config (apply_settings narrow_form initial_world))
    = "custom"%string
  ∧ current_theme (config (apply_settings narrow_form initial_world))
    = "light"%string
  ∧ config (apply_settings narrow_form initial_world)
    ≠ config initial_world.
Proof.
  do 5 (split; [vm_compute; reflexivity|]).
  intros H. apply (f_equal current_diff) in H. vm_compute in H.
  discriminate H.
Qed.

Lemma reveal_terminates_witness :
  grid_ok small_unflagged = true ∧ inside small_unflagged (0, 0)
  ∧ (hidden_count small_unflagged + 1 ≤ 20)%nat
  ∧ reveal 20 0 0 small_unflagged ≠ OutOfFuel
  ∧ ∀ s', reveal 20 0 0 small_unflagged = Ok s' →
          (hidden_count s' ≤ hidden_count small_unflagged)%nat
          ∧ marks_balance small_unflagged s'.
Proof.
  assert (H1 : grid_ok small_unflagged = true) by (vm_compute; reflexivity).
  assert (H2 : inside small_unflagged (0, 0))
    by (apply in_grid_inside; vm_compute; reflexivity).
  assert (H3 : (hidden_count small_unflagged + 1 ≤ 20)%nat)
    by (apply Nat.leb_le; vm_compute; reflexivity).
  exact (conj H1 (conj H2 (conj H3
           (reveal_terminates small_unflagged 0 0 20 H1 H2 H3)))).
Defined.

Lemma set_flag_round_trip_witness :
  grid_ok small_unflagged = true ∧ inside small_unflagged (0, 0)
  ∧ revealed (cell small_unflagged (0, 0)) = false
  ∧ flagged (cell small_unflagged (0, 0)) = false
  ∧ fg_color (button_at small_unflagged 0 0) = button_color
  ∧ field (set_flag 0 0 (set_flag 0 0 small_unflagged))
    = field small_unflagged
  ∧ mines (set_flag 0 0 (set_flag 0 0 small_unflagged))
    = mines small_unflagged
  ∧ buttons (set_flag 0 0 (set_flag 0 0 small_unflagged))
    = buttons small_unflagged.
Proof.
  assert (H1 : grid_ok small_unflagged = true) by (vm_compute; reflexivity).
  assert (H2 : inside small_unflagged (0, 0))
    by (apply in_grid_inside; vm_compute; reflexivity).
  assert (H3 : revealed (cell small_unflagged (0, 0)) = false)
    by (vm_compute; reflexivity).
  assert (H4 : flagged (cell small_unflagged (0, 0)) = false)
    by (vm_compute; reflexivity).
  assert (H5 : fg_color (button_at small_unflagged 0 0) = button_color)
    by (vm_compute; reflexivity).
  pose proof (set_flag_round_trip small_unflagged 0 0 H1 H2 H3 H4)
    as (_ & Ha & Hb & _ & Hc).
  exact (conj H1 (conj H2 (conj H3 (conj H4 (conj H5
           (conj Ha (conj Hb (Hc H5)))))))).
Defined.

(** C9 as it was stated fails: after the mine at (3,3) went off, its
    cell is still hidden and unflagged but its button has the mine
    colour; flagging and unflagging leaves the button in the hidden
    colour. *)
Lemma set_flag_round_trip_repaints_mine :
  revealed (cell small_lost (3, 3)) = false
  ∧ flagged (cell small_lost (3, 3)) = false
  ∧ fg_color (button_at small_lost 3 3) = mines_color
  ∧ fg_color (button_at (set_flag 3 3 (set_flag 3 3 small_lost)) 3 3)
    = button_color
  ∧ buttons (set_flag 3 3 (set_flag 3 3 small_lost)) ≠ buttons small_lost.
Proof.
  do 4 (split; [vm_compute; reflexivity|]).
  intros H.
  assert (H' : fg_color (button_at (set_flag 3 3 (set_flag 3 3 small_lost))
                                   3 3)
               = fg_color (button_at small_lost 3 3))
    by (unfold button_at; by rewrite H).
  vm_compute in H'. discriminate H'.
Qed.

Lemma revealed_not_flagged_preserved_witness :
  grid_ok small_unflagged = true ∧ inside small_unflagged (0, 0)
  ∧ no_revealed_flag small_unflagged = true
  ∧ no_revealed_flag (set_flag 0 0 small_unflagged) = true
  ∧ outcome (λ s', no_revealed_flag s' = true)
            (λ s', no_revealed_flag s' = true) True
            (reveal 20 0 0 small_unflagged).
Proof.
  assert (H1 : grid_ok small_unflagged = true) by (vm_compute; reflexivity).
  assert (H2 : inside small_unflagged (0, 0))
    by (apply in_grid_inside; vm_compute; reflexivity).
  assert (H3 : no_revealed_flag small_unflagged = true)
    by (vm_compute; reflexivity).
  pose proof (revealed_not_flagged_preserved small_unflagged 0 0 H1 H2 H3)
    as (Ha & _ & Hb & _).
  exact (conj H1 (conj H2 (conj H3 (conj Hb (Ha 20%nat))))).
Defined.

(** ** The further properties on the example states *)



Lemma apply_untouched_form_witness :
  config_frame_init initial_world = Some opening_form
  ∧ config (apply_settings opening_form initial_world) = config initial_world
  ∧ config_json (apply_settings opening_form initial_world)
    = config initial_world
  ∧ error_dialogs (apply_settings opening_form initial_world)
    = error_dialogs initial_world.
Proof.
  assert (H1 : config_frame_init initial_world = Some opening_form)
    by (vm_compute; reflexivity).
  assert (H2 : current_diff (config initial_world) ≠ "custom"%string)
    by (intros H; vm_compute in H; discriminate H).
  exact (conj H1 (apply_untouched_form opening_form initial_world H1
                    (or_introl H2))).
Defined.





Lemma set_flag_counter_witness :
  grid_ok small_unflagged = true ∧ inside small_unflagged (0, 0)
  ∧ revealed (cell small_unflagged (0, 0)) = false
  ∧ mines (set_flag 0 0 small_unflagged)
    + Z.of_nat (flag_total (set_flag 0 0 small_unflagged))
    = mines small_unflagged + Z.of_nat (flag_total small_unflagged)
  ∧ flagged (cell (set_flag 0 0 small_unflagged) (0, 0))
    = negb (flagged (cell small_unflagged (0, 0)))
  ∧ mines_label (set_flag 0 0 small_unflagged)
    = mines_text (mines (set_flag 0 0 small_unflagged)).
Proof.
  assert (H1 : grid_ok small_unflagged = true) by (vm_compute; reflexivity).
  assert (H2 : inside small_unflagged (0, 0))
    by (apply in_grid_inside; vm_compute; reflexivity).
  assert (H3 : revealed (cell small_unflagged (0, 0)) = false)
    by (vm_compute; reflexivity).
  pose proof (set_flag_counter small_unflagged 0 0 H1 H2)
    as (Ha & _ & Hb & _).
  exact (conj H1 (conj H2 (conj H3 (conj Ha (Hb H3))))).
Defined.


Lemma first_click_sample_error_witness :
  first_click crowded_start = true
  ∧ Z.of_nat (length (set_difference_list
                        (seqZ 0 (height crowded_start * width crowded_start))
                        (def_zone (safe_zone 1 1 crowded_start))))
    < cfg_bombs (config crowded_start)
  ∧ ∃ s', on_click 20 [] 1 1 crowded_start
          = Raise (ValueError "Sample larger than population or is negative")
                  s'
      ∧ first_click s' = false ∧ field s' = field crowded_start
      ∧ running s' = running crowded_start.
Proof.
  assert (H1 : first_click crowded_start = true) by reflexivity.
  assert (H2 : Z.of_nat (length (set_difference_list
                  (seqZ 0 (height crowded_start * width crowded_start))
                  (def_zone (safe_zone 1 1 crowded_start))))
               < cfg_bombs (config crowded_start))
    by (apply Z.ltb_lt; vm_compute; reflexivity).
  destruct (first_click_sample_error crowded_start 1 1 [] 20 H1
              (or_intror H2))
    as (s' & Hr & Ha & Hb & _ & Hc & _).
  exact (conj H1 (conj H2 (ex_intro _ s' (conj Hr (conj Ha (conj Hb Hc)))))).
Defined.


Lemma reveal_changes_only_reveals_witness :
  grid_ok small_unflagged = true ∧ inside small_unflagged (0, 0)
  ∧ outcome (λ u, evolves small_unflagged u
                  ∧ counters u = counters small_unflagged)
            (λ u, evolves small_unflagged u
                  ∧ counters u = counters small_unflagged) True
            (reveal 20 0 0 small_unflagged).
Proof.
  assert (H1 : grid_ok small_unflagged = true) by (vm_compute; reflexivity).
  assert (H2 : inside small_unflagged (0, 0))
    by (apply in_grid_inside; vm_compute; reflexivity).
  exact (conj H1 (conj H2
           (reveal_changes_only_reveals small_unflagged 0 0 20 H1 H2))).
Defined.

(** Why the first click is only known to be safe on a grid without
    flags: with (3,2) flagged before the first click at (1,1) and the
    mine drawn at (3,3), the flood from (0,0) reveals (2,2), whose
    count 1 equals the one flag around it; when the loop of [on_click]
    reaches (2,2) it chords and sets the mine off, so the first click of
    the game loses it. *)
Lemma first_click_with_flag_can_lose :
  fresh_game small_trap = true ∧ flag_total small_trap = 1%nat
  ∧ sample_of (set_difference_list
                 (seqZ 0 (height small_trap * width small_trap))
                 (def_zone (safe_zone 1 1 small_trap)))
              (cfg_bombs (config small_trap)) [15] = true
  ∧ ∃ s', on_click 20 [15] 1 1 small_trap = Ok s'
      ∧ popups s' = [false] ∧ running s' = false
      ∧ fg_color (button_at s' 3 3) = mines_color.
Proof.
  do 3 (split; [vm_compute; reflexivity|]).
  eexists. split; [vm_compute; reflexivity|].
  repeat split; vm_compute; reflexivity.
Qed.
